(** * Equity tracker: FIFO lot engine, allocation ledger, corporate actions
    and reconciliation

  A shallow embedding of the accounting core of the equity tracker
  (app/services/fifo_engine.py, allocation_manager.py,
  corporate_actions.py and reconciliation.py) together with the
  properties its specification states about it.

  Conventions.
  - Python [int] is [Z].
  - [datetime.date] is the day ordinal, a [Z]; the difference of two dates
    in days is the difference of the ordinals.
  - [decimal.Decimal] is its numeric value, a rational, and every
    arithmetic operation rounds its exact result to the 28 significant
    digits of Python's default context (half-even).  Exponent limits
    (Emax 999999) are out of reach of the values handled here.
  - Python [float] is its numeric value, a rational, and every operation
    rounds to 53 significant bits (half-even), as IEEE binary64 does in
    its normal range.
  - A database table is the list of its rows; [filter_by] is [filter],
    [first()] is the head of the filtered list. *)

From Stdlib Require Import ZArith QArith Qabs List Bool String Lia Lqa.
From Stdlib Require Import Permutation Sorted.
From Stdlib Require Qcanon.
Import ListNotations.
Local Open Scope Z_scope.

(** ** Numbers: Decimal and float arithmetic *)

Module Num.

(** [below_pow b e n d]: is b^e <= n/d (for d > 0)? *)
Definition below_pow (b e n d : Z) : bool :=
  if 0 <=? e then d * b ^ e <=? n else d <=? n * b ^ (- e).

(** Downward search for the largest exponent [e] with b^e <= n/d. *)
Fixpoint find_exp (fuel : nat) (b e n d : Z) : Z :=
  match fuel with
  | O => e
  | S fuel' => if below_pow b e n d then e else find_exp fuel' b (e - 1) n d
  end.

(** floor (log_b (n/d)) for n, d > 0 and b >= 2: the search starts above
    log2 n and is sure to stop by -(log2 d + 1). *)
Definition ilog (b n d : Z) : Z :=
  find_exp (Z.to_nat (Z.log2 n + Z.log2 d + 2)) b (Z.log2 n + 1) n d.

(** Nearest integer to n/d (d > 0, n >= 0), ties to even. *)
Definition div_half_even (n d : Z) : Z :=
  let k := n / d in
  let r := n mod d in
  if 2 * r <? d then k
  else if d <? 2 * r then k + 1
  else if Z.even k then k else k + 1.

(** [round_sig b p q]: [q] rounded to [p] significant digits in base [b],
    ties to even.  The value is read in lowest terms and returned in lowest
    terms: with [s] the exponent of the last kept digit, the result is the
    integer nearest to q / b^s, times b^s. *)
Definition round_sig (b p : Z) (q : Q) : Q :=
  let q := Qred q in
  let n := Z.abs (Qnum q) in
  let d := Zpos (Qden q) in
  if n =? 0 then 0%Q
  else
    let s := ilog b n d - (p - 1) in
    let c := if 0 <=? s then div_half_even n (d * b ^ s)
             else div_half_even (n * b ^ (- s)) d in
    let m := Z.sgn (Qnum q) * c in
    Qred (if 0 <=? s then inject_Z (m * b ^ s)
          else Qmake m (Z.to_pos (b ^ (- s)))).

End Num.

(** Python's [decimal.Decimal] under the default context. *)
Module Dec.

Definition Decimal := Q.

(** getcontext().prec *)
Definition prec : Z := 28.

Definition quantize (q : Q) : Decimal := Num.round_sig 10 prec q.

Definition of_int (z : Z) : Decimal := inject_Z z.

Definition add (x y : Decimal) : Decimal := quantize (x + y).
Definition sub (x y : Decimal) : Decimal := quantize (x - y).
Definition mul (x y : Decimal) : Decimal := quantize (x * y).
Definition div (x y : Decimal) : Decimal := quantize (x / y).
Definition abs (x : Decimal) : Decimal := quantize (Qabs x).

Definition eqb (x y : Decimal) : bool := Qeq_bool x y.
Definition leb (x y : Decimal) : bool := Qle_bool x y.
Definition ltb (x y : Decimal) : bool := negb (Qle_bool y x).

Definition max (x y : Decimal) : Decimal := if ltb x y then y else x.

End Dec.

(** Python's [float] (IEEE binary64, normal range). *)
Module Flt.

Definition float := Q.

Definition rnd (q : Q) : float := Num.round_sig 2 53 q.

Definition of_int (z : Z) : float := rnd (inject_Z z).

Definition sub (x y : float) : float := rnd (x - y).
Definition mul (x y : float) : float := rnd (x * y).
Definition div (x y : float) : float := rnd (x / y).
Definition abs (x : float) : float := Qabs x.

Definition leb (x y : float) : bool := Qle_bool x y.
Definition ltb (x y : float) : bool := negb (Qle_bool y x).

(** int(x): truncation toward zero. *)
Definition to_int (x : float) : Z := Z.quot (Qnum x) (Zpos (Qden x)).

(** The value of str(x): the shortest decimal, of at most 17 significant
    digits, that reads back as [x]. *)
Fixpoint shortest (tries : nat) (digits : Z) (x : float) : Q :=
  match tries with
  | O => Num.round_sig 10 17 x
  | S tries' =>
      let candidate := Num.round_sig 10 digits x in
      if Qeq_bool (rnd candidate) x then candidate
      else shortest tries' (digits + 1) x
  end.

Definition str (x : float) : Q := shortest 16 1 x.

End Flt.


(** ** Exceptions and results *)

Inductive exn : Type :=
| ValueError
| AllocationError
| InsufficientUnitsError
| InvalidOwnerError
| InvalidGoalError
| IntegrityError
| ArithmeticError.

Inductive result (A : Type) : Type :=
| Return (a : A)
| Raise (e : exn).

Arguments Return {A} a.
Arguments Raise {A} e.

(** ** The FIFO engine (app/services/fifo_engine.py) *)

Module Fifo.

Import Dec.

Definition date := Z.
Definition datetime := Z.

Record BuyLot : Type := mkBuyLot {
  lot_trade_date : date;
  lot_trade_datetime : option datetime;
  lot_quantity : Z;
  lot_price : Decimal;
  lot_remaining_qty : Z;
  lot_trade_id : string;
  lot_order_id : option string
}.

Inductive TaxTerm : Type := STCG | LTCG.

Record MatchedLot : Type := mkMatchedLot {
  entry_date : date;
  exit_date : date;
  quantity : Z;
  buy_price : Decimal;
  sell_price : Decimal;
  buy_value : Decimal;
  sell_value : Decimal;
  profit : Decimal;
  holding_days : Z;
  tax_term : TaxTerm;
  buy_trade_id : string;
  sell_trade_id : string
}.

Record FIFOEngine : Type := mkEngine {
  buy_lots : list BuyLot;
  matched_lots : list MatchedLot;
  total_bought : Z;
  total_sold : Z
}.

(** FIFOEngine.__init__ *)
Definition init : FIFOEngine := mkEngine [] [] 0 0.

Definition set_remaining (lot : BuyLot) (r : Z) : BuyLot :=
  mkBuyLot (lot_trade_date lot) (lot_trade_datetime lot) (lot_quantity lot)
           (lot_price lot) r (lot_trade_id lot) (lot_order_id lot).

(** FIFOEngine.process_buy *)
Definition process_buy (self : FIFOEngine) (trade_date : date) (qty : Z)
    (price : Decimal) (trade_id : string) (trade_datetime : option datetime)
    (order_id : option string) : FIFOEngine * BuyLot :=
  let lot := mkBuyLot trade_date trade_datetime qty price qty trade_id order_id in
  (mkEngine (buy_lots self ++ [lot]) (matched_lots self)
            (total_bought self + qty) (total_sold self), lot).

(** FIFOEngine.get_available_quantity *)
Definition get_available_quantity (self : FIFOEngine) : Z :=
  fold_right (fun lot acc => lot_remaining_qty lot + acc) 0 (buy_lots self).

(** 'LTCG' if holding_days > 365 else 'STCG' *)
Definition classify (days : Z) : TaxTerm :=
  if 365 <? days then LTCG else STCG.

(** The state the loop of [process_sell] works on: the engine's queue and
    matched list, the local list [matched] and [remaining_sell]. *)
Record SellState : Type := mkSellState {
  st_lots : list BuyLot;
  st_matched_lots : list MatchedLot;
  st_matched : list MatchedLot;
  st_remaining_sell : Z
}.

(** while remaining_sell > 0 and self.buy_lots *)
Definition sell_guard (st : SellState) : bool :=
  (0 <? st_remaining_sell st) && match st_lots st with [] => false | _ :: _ => true end.

(** One iteration of the loop body. *)
Definition sell_step (trade_date : date) (price : Decimal) (trade_id : string)
    (st : SellState) : SellState :=
  match st_lots st with
  | [] => st
  | buy_lot :: rest =>
      let matched_qty := Z.min (st_remaining_sell st) (lot_remaining_qty buy_lot) in
      let buy_value := mul (of_int matched_qty) (lot_price buy_lot) in
      let sell_value := mul (of_int matched_qty) price in
      let profit := sub sell_value buy_value in
      let holding_days := trade_date - lot_trade_date buy_lot in
      let tax_term := classify holding_days in
      let matched_lot :=
        mkMatchedLot (lot_trade_date buy_lot) trade_date matched_qty
                     (lot_price buy_lot) price buy_value sell_value profit
                     holding_days tax_term (lot_trade_id buy_lot) trade_id in
      let buy_lot' := set_remaining buy_lot (lot_remaining_qty buy_lot - matched_qty) in
      mkSellState
        (if lot_remaining_qty buy_lot' =? 0 then rest else buy_lot' :: rest)
        (st_matched_lots st ++ [matched_lot])
        (st_matched st ++ [matched_lot])
        (st_remaining_sell st - matched_qty)
  end.

(** The loop, one iteration per unit of fuel while the guard holds. *)
Fixpoint sell_loop (fuel : nat) (trade_date : date) (price : Decimal)
    (trade_id : string) (st : SellState) : SellState :=
  match fuel with
  | O => st
  | S fuel' =>
      if sell_guard st
      then sell_loop fuel' trade_date price trade_id
             (sell_step trade_date price trade_id st)
      else st
  end.

(** FIFOEngine.process_sell: the engine after the call and what the call
    returns or raises.  The check comes before any mutation, so a raising
    call leaves [self] as it was.  Every iteration either evicts the head
    lot or brings [remaining_sell] to zero, so the loop runs at most once
    per queued lot ([sell_loop_exits] below). *)
Definition process_sell (self : FIFOEngine) (trade_date : date) (qty : Z)
    (price : Decimal) (trade_id : string)
    : FIFOEngine * result (list MatchedLot) :=
  let available := get_available_quantity self in
  if available <? qty then (self, Raise ValueError)
  else
    let st := sell_loop (List.length (buy_lots self)) trade_date price trade_id
                (mkSellState (buy_lots self) (matched_lots self) [] qty) in
    (mkEngine (st_lots st) (st_matched_lots st)
              (total_bought self) (total_sold self + qty),
     Return (st_matched st)).

(** FIFOEngine.get_current_holdings_as_lots *)
Definition get_current_holdings_as_lots (self : FIFOEngine) : list BuyLot :=
  filter (fun lot => 0 <? lot_remaining_qty lot) (buy_lots self).

(** Sum of the matched quantities of the realized-disposal records. *)
Definition total_disposed (self : FIFOEngine) : Z :=
  fold_right (fun m acc => quantity m + acc) 0 (matched_lots self).

(** A transaction as the engine receives it. *)
Inductive TradeType : Type := Buy | Sell.

Record Txn : Type := mkTxn {
  txn_type : TradeType;
  txn_date : date;
  txn_datetime : option datetime;
  txn_quantity : Z;
  txn_price : Decimal;
  txn_id : string
}.

(** One call on the engine for one transaction. *)
Definition apply_txn (self : FIFOEngine) (t : Txn) : result FIFOEngine :=
  match txn_type t with
  | Buy => Return (fst (process_buy self (txn_date t) (txn_quantity t) (txn_price t)
                                   (txn_id t) (txn_datetime t) None))
  | Sell => match process_sell self (txn_date t) (txn_quantity t) (txn_price t) (txn_id t) with
            | (e, Return _) => Return e
            | (_, Raise x) => Raise x
            end
  end.

(** The calls in sequence; the first failing call ends the run. *)
Fixpoint run (self : FIFOEngine) (ts : list Txn) : result FIFOEngine :=
  match ts with
  | [] => Return self
  | t :: ts' => match apply_txn self t with
                | Return e => run e ts'
                | Raise x => Raise x
                end
  end.

(** A valid transaction sequence: positive quantities, and no sell larger
    than what is available when it arrives. *)
Fixpoint valid_sequence (self : FIFOEngine) (ts : list Txn) : Prop :=
  match ts with
  | [] => True
  | t :: ts' =>
      0 < txn_quantity t /\
      (txn_type t = Sell -> txn_quantity t <= get_available_quantity self) /\
      (forall e, apply_txn self t = Return e -> valid_sequence e ts')
  end.

End Fifo.

(** ** Stable sorting, as [order_by] and [sorted] do it *)

Section Sorting.

Context {A : Type} (le : A -> A -> bool).

Fixpoint insert_by (x : A) (l : list A) : list A :=
  match l with
  | [] => [x]
  | y :: l' => if le x y then x :: y :: l' else y :: insert_by x l'
  end.

Definition sort_by (l : list A) : list A := fold_right insert_by [] l.

End Sorting.

(** ** Building and summarising an engine (app/services/fifo_engine.py) *)

Module Engine.

Import Dec Fifo.

(** A trade dictionary as [from_trades] reads it.  The price is a Decimal,
    for which Decimal(str(price)) is the price itself; the trade type is
    'buy' or 'sell'. *)
Record TradeDict : Type := mkTradeDict {
  td_trade_type : TradeType;
  td_trade_date : date;
  td_trade_datetime : option datetime;
  td_quantity : Z;
  td_price : Decimal;
  td_trade_id : string;
  td_order_id : option string
}.

(** Microseconds in a day: a [datetime] counts microseconds from the
    midnight that starts day 0 of [date]. *)
Definition day : Z := 86400000000.

(** datetime.combine(trade_date, datetime.min.time()) *)
Definition midnight (d : date) : datetime := d * day.

(** t.get('trade_datetime') or datetime.combine(t['trade_date'], ...) *)
Definition sort_key (t : TradeDict) : datetime :=
  match td_trade_datetime t with
  | Some dt => dt
  | None => midnight (td_trade_date t)
  end.

Definition key_le (a b : TradeDict) : bool := sort_key a <=? sort_key b.

(** The loop of [from_trades] over the sorted trades.  A ValueError of
    [process_sell] is raised again as a ValueError. *)
Fixpoint from_trades_loop (engine : FIFOEngine) (sorted_trades : list TradeDict)
    : result FIFOEngine :=
  match sorted_trades with
  | [] => Return engine
  | trade :: rest =>
      match td_trade_type trade with
      | Buy =>
          from_trades_loop
            (fst (process_buy engine (td_trade_date trade) (td_quantity trade)
                    (td_price trade) (td_trade_id trade)
                    (td_trade_datetime trade) (td_order_id trade)))
            rest
      | Sell =>
          match process_sell engine (td_trade_date trade) (td_quantity trade)
                  (td_price trade) (td_trade_id trade) with
          | (engine', Return _) => from_trades_loop engine' rest
          | (_, Raise _) => Raise ValueError
          end
      end
  end.

(** FIFOEngine.from_trades *)
Definition from_trades (trades : list TradeDict) : result FIFOEngine :=
  from_trades_loop init (sort_by key_le trades).

(** The loop shared by [calculate_average_price] and [get_unrealized_pnl]:
    the quantity and the value of the lots with units left. *)
Fixpoint holdings_loop (lots : list BuyLot) (total_qty total_value : Decimal)
    : Decimal * Decimal :=
  match lots with
  | [] => (total_qty, total_value)
  | lot :: rest =>
      if 0 <? lot_remaining_qty lot
      then holdings_loop rest
             (add total_qty (of_int (lot_remaining_qty lot)))
             (add total_value (mul (of_int (lot_remaining_qty lot)) (lot_price lot)))
      else holdings_loop rest total_qty total_value
  end.

(** FIFOEngine.calculate_average_price *)
Definition calculate_average_price (self : FIFOEngine) : option Decimal :=
  let '(total_qty, total_value) := holdings_loop (buy_lots self) 0%Q 0%Q in
  if eqb total_qty 0%Q then None else Some (div total_value total_qty).

End Engine.

(** ** The persisted tables (app/models) *)

Module Models.

Import Dec.

Definition date := Z.
Definition datetime := Z.

(** trades: CHECK trade_type IN ('buy', 'sell') *)
Record Trade : Type := mkTrade {
  tr_id : Z;
  tr_account_id : Z;
  tr_stock_id : Z;
  tr_trade_type : Fifo.TradeType;
  tr_trade_date : date;
  tr_trade_datetime : option datetime;
  tr_quantity : Z;
  tr_price : Decimal;
  tr_trade_id : string
}.

Record Allocation : Type := mkAllocation {
  al_id : Z;
  al_stock_id : Z;
  al_account_id : Z;
  al_owner_id : Z;
  al_goal_id : Z;
  al_quantity : Z;
  al_buy_price : Decimal;
  al_buy_date : date
}.

(** corporate_actions: CHECK action_type IN ('split', 'bonus', 'merger',
    'demerger') *)
Inductive ActionType : Type := split | bonus | merger | demerger.

Record CorporateAction : Type := mkCorporateAction {
  ca_id : Z;
  ca_stock_id : Z;
  ca_action_type : ActionType;
  ca_record_date : option date;
  ca_ratio_from : Z;
  ca_ratio_to : Z;
  ca_old_price : option Q;
  ca_new_price : option Q;
  ca_detected_automatically : bool;
  ca_applied : bool
}.

(** The committed state of the database: owners and goals by primary key,
    the other tables by row. *)
Record Database : Type := mkDatabase {
  trades : list Trade;
  allocations : list Allocation;
  owners : list Z;
  goals : list Z;
  corporate_actions : list CorporateAction
}.

Definition set_allocations (db : Database) (rows : list Allocation) : Database :=
  mkDatabase (trades db) rows (owners db) (goals db) (corporate_actions db).

Definition set_corporate_actions (db : Database) (rows : list CorporateAction)
    : Database :=
  mkDatabase (trades db) (allocations db) (owners db) (goals db) rows.

(** A fresh autoincrement primary key. *)
Definition next_id (ids : list Z) : Z := 1 + fold_right Z.max 0 ids.

Definition mem_id (i : Z) (ids : list Z) : bool := existsb (Z.eqb i) ids.

Definition action_type_eqb (a b : ActionType) : bool :=
  match a, b with
  | split, split | bonus, bonus | merger, merger | demerger, demerger => true
  | _, _ => false
  end.

End Models.

(** ** The allocation manager (app/services/allocation_manager.py) *)

Module Alloc.

Import Dec Models.

(** AllocationManager.__init__ *)
Record AllocationManager : Type := mkManager {
  stock_id : Z;
  account_id : Z
}.

(** ORDER BY trade_datetime ASC NULLS FIRST, trade_date ASC *)
Definition trade_order (a b : Trade) : bool :=
  match tr_trade_datetime a, tr_trade_datetime b with
  | None, None => tr_trade_date a <=? tr_trade_date b
  | None, Some _ => true
  | Some _, None => false
  | Some x, Some y =>
      if x <? y then true
      else if y <? x then false
      else tr_trade_date a <=? tr_trade_date b
  end.

(** Trade.query.filter_by(stock_id, account_id).order_by(...).all().  The
    ORDER BY fixes no order among rows with equal keys; they are kept here
    in the order of the table, where the database may return another. *)
Definition query_trades (db : Database) (self : AllocationManager) : list Trade :=
  sort_by trade_order
    (filter (fun t => (tr_stock_id t =? stock_id self) &&
                      (tr_account_id t =? account_id self)) (trades db)).

(** One turn of the replay loop of [_get_fifo_engine]: a buy is queued, a
    sell is matched, and a sell that raises ValueError is passed over. *)
Definition replay_trade (engine : Fifo.FIFOEngine) (trade : Trade)
    : result Fifo.FIFOEngine :=
  match tr_trade_type trade with
  | Fifo.Buy =>
      Return (fst (Fifo.process_buy engine (tr_trade_date trade) (tr_quantity trade)
                     (tr_price trade) (tr_trade_id trade)
                     (tr_trade_datetime trade) None))
  | Fifo.Sell =>
      match Fifo.process_sell engine (tr_trade_date trade) (tr_quantity trade)
              (tr_price trade) (tr_trade_id trade) with
      | (engine', Return _) => Return engine'
      | (engine', Raise ValueError) => Return engine'
      | (_, Raise e) => Raise e
      end
  end.

Fixpoint replay (engine : Fifo.FIFOEngine) (ts : list Trade)
    : result Fifo.FIFOEngine :=
  match ts with
  | [] => Return engine
  | trade :: ts' =>
      match replay_trade engine trade with
      | Return engine' => replay engine' ts'
      | Raise e => Raise e
      end
  end.

(** AllocationManager._get_fifo_engine *)
Definition _get_fifo_engine (db : Database) (self : AllocationManager)
    : result Fifo.FIFOEngine :=
  replay Fifo.init (query_trades db self).

(** AllocationManager.get_total_holdings *)
Definition get_total_holdings (db : Database) (self : AllocationManager)
    : result Z :=
  match _get_fifo_engine db self with
  | Return engine => Return (Fifo.get_available_quantity engine)
  | Raise e => Raise e
  end.

Definition own_row (self : AllocationManager) (a : Allocation) : bool :=
  (al_stock_id a =? stock_id self) && (al_account_id a =? account_id self).

(** AllocationManager.get_allocated_units: SUM(quantity), or 0 without rows *)
Definition get_allocated_units (db : Database) (self : AllocationManager) : Z :=
  fold_right (fun a acc => al_quantity a + acc) 0
             (filter (own_row self) (allocations db)).

(** AllocationManager.get_available_units *)
Definition get_available_units (db : Database) (self : AllocationManager)
    : result Z :=
  match get_total_holdings db self with
  | Return total => Return (Z.max 0 (total - get_allocated_units db self))
  | Raise e => Raise e
  end.

(** The loop of [get_weighted_average_price] over the open lots. *)
Fixpoint wap_loop (lots : list Fifo.BuyLot) (total_value : Decimal)
    (total_qty : Z) (earliest_date : option date)
    (remaining_to_allocate lots_to_skip : Z)
    : Decimal * Z * option date :=
  match lots with
  | [] => (total_value, total_qty, earliest_date)
  | lot :: rest =>
      let available_in_lot := Fifo.lot_remaining_qty lot in
      let skip_from_lot :=
        if 0 <? lots_to_skip then Z.min lots_to_skip available_in_lot else 0 in
      let available_in_lot := available_in_lot - skip_from_lot in
      let lots_to_skip := lots_to_skip - skip_from_lot in
      if available_in_lot <=? 0
      then wap_loop rest total_value total_qty earliest_date
                    remaining_to_allocate lots_to_skip
      else
        let take_qty := Z.min remaining_to_allocate available_in_lot in
        let total_value := add total_value (mul (of_int take_qty) (Fifo.lot_price lot)) in
        let total_qty := total_qty + take_qty in
        let earliest_date :=
          match earliest_date with
          | None => Some (Fifo.lot_trade_date lot)
          | Some d => Some d
          end in
        let remaining_to_allocate := remaining_to_allocate - take_qty in
        if remaining_to_allocate <=? 0
        then (total_value, total_qty, earliest_date)
        else wap_loop rest total_value total_qty earliest_date
                      remaining_to_allocate lots_to_skip
  end.

(** AllocationManager.get_weighted_average_price *)
Definition get_weighted_average_price (db : Database) (self : AllocationManager)
    (qty : Z) : result (Decimal * option date) :=
  match _get_fifo_engine db self with
  | Raise e => Raise e
  | Return engine =>
      let lots := Fifo.get_current_holdings_as_lots engine in
      let allocated := get_allocated_units db self in
      let '(total_value, total_qty, earliest_date) :=
        wap_loop lots 0%Q 0 None qty allocated in
      if total_qty =? 0 then Raise InsufficientUnitsError
      else Return (div total_value (of_int total_qty), earliest_date)
  end.

(** AllocationManager.create_allocation: the database after the call and
    what the call returns or raises.  The commit enforces the table's
    CHECK (quantity > 0) and NOT NULL buy_date.  The buy price is kept as
    computed; the Numeric(15,4) column reads it back at four places. *)
Definition create_allocation (db : Database) (self : AllocationManager)
    (owner_id goal_id qty : Z) : Database * result Allocation :=
  if negb (mem_id owner_id (owners db)) then (db, Raise InvalidOwnerError)
  else if negb (mem_id goal_id (goals db)) then (db, Raise InvalidGoalError)
  else
    match get_available_units db self with
    | Raise e => (db, Raise e)
    | Return available =>
        if available <? qty then (db, Raise InsufficientUnitsError)
        else
          match get_weighted_average_price db self qty with
          | Raise e => (db, Raise e)
          | Return (avg_price, Some buy_date) =>
              if qty <=? 0 then (db, Raise IntegrityError)
              else
                let allocation :=
                  mkAllocation (next_id (map al_id (allocations db)))
                               (stock_id self) (account_id self)
                               owner_id goal_id qty avg_price buy_date in
                (set_allocations db (allocations db ++ [allocation]),
                 Return allocation)
          | Return (_, None) => (db, Raise IntegrityError)
          end
    end.

(** Allocation.query.get(allocation_id) *)
Definition get_allocation (db : Database) (allocation_id : Z) : option Allocation :=
  find (fun a => al_id a =? allocation_id) (allocations db).

(** The row [allocation] written back under its primary key. *)
Definition store (rows : list Allocation) (allocation : Allocation)
    : list Allocation :=
  map (fun a => if al_id a =? al_id allocation then allocation else a) rows.

(** DELETE of the row with the given primary key. *)
Definition remove (rows : list Allocation) (allocation_id : Z) : list Allocation :=
  filter (fun a => negb (al_id a =? allocation_id)) rows.

Definition set_owner (a : Allocation) (o : Z) : Allocation :=
  mkAllocation (al_id a) (al_stock_id a) (al_account_id a) o (al_goal_id a)
               (al_quantity a) (al_buy_price a) (al_buy_date a).

Definition set_goal (a : Allocation) (g : Z) : Allocation :=
  mkAllocation (al_id a) (al_stock_id a) (al_account_id a) (al_owner_id a) g
               (al_quantity a) (al_buy_price a) (al_buy_date a).

Definition set_quantity (a : Allocation) (q : Z) : Allocation :=
  mkAllocation (al_id a) (al_stock_id a) (al_account_id a) (al_owner_id a)
               (al_goal_id a) q (al_buy_price a) (al_buy_date a).

(** AllocationManager.update_allocation.  The row is changed in the
    session and written by the final commit; a call that raises commits
    nothing. *)
Definition update_allocation (db : Database) (self : AllocationManager)
    (allocation_id : Z) (new_quantity new_owner_id new_goal_id : option Z)
    : Database * result Allocation :=
  match get_allocation db allocation_id with
  | None => (db, Raise AllocationError)
  | Some allocation =>
      if negb (own_row self allocation) then (db, Raise AllocationError)
      else
        let after_owner :=
          match new_owner_id with
          | None => Return allocation
          | Some o => if negb (mem_id o (owners db)) then Raise InvalidOwnerError
                      else Return (set_owner allocation o)
          end in
        match after_owner with
        | Raise e => (db, Raise e)
        | Return allocation1 =>
            let after_goal :=
              match new_goal_id with
              | None => Return allocation1
              | Some g => if negb (mem_id g (goals db)) then Raise InvalidGoalError
                          else Return (set_goal allocation1 g)
              end in
            match after_goal with
            | Raise e => (db, Raise e)
            | Return allocation2 =>
                let after_quantity :=
                  match new_quantity with
                  | None => Return allocation2
                  | Some q =>
                      if q <=? 0 then Raise AllocationError
                      else
                        let current_allocated := get_allocated_units db self in
                        match get_total_holdings db self with
                        | Raise e => Raise e
                        | Return total =>
                            let available :=
                              total - current_allocated + al_quantity allocation2 in
                            if available <? q then Raise InsufficientUnitsError
                            else Return (set_quantity allocation2 q)
                        end
                  end in
                match after_quantity with
                | Raise e => (db, Raise e)
                | Return allocation3 =>
                    (set_allocations db (store (allocations db) allocation3),
                     Return allocation3)
                end
            end
        end
  end.

(** AllocationManager.delete_allocation *)
Definition delete_allocation (db : Database) (self : AllocationManager)
    (allocation_id : Z) : Database * result bool :=
  match get_allocation db allocation_id with
  | None => (db, Raise AllocationError)
  | Some allocation =>
      if negb (own_row self allocation) then (db, Raise AllocationError)
      else (set_allocations db (remove (allocations db) allocation_id),
            Return true)
  end.

(** AllocationManager.get_allocations: ORDER BY buy_date *)
Definition get_allocations (db : Database) (self : AllocationManager)
    : list Allocation :=
  sort_by (fun a b => al_buy_date a <=? al_buy_date b)
          (filter (own_row self) (allocations db)).

(** The result dictionary of [sync_with_holdings]. *)
Record SyncResult : Type := mkSyncResult {
  adjusted : Z;
  deleted : Z
}.

(** The loop of [sync_with_holdings] over the ordered allocations: the
    rows of the table, the excess still to absorb and the two counters. *)
Fixpoint sync_loop (allocs : list Allocation) (rows : list Allocation)
    (excess adjusted deleted : Z) : list Allocation * Z * Z * Z :=
  match allocs with
  | [] => (rows, excess, adjusted, deleted)
  | alloc :: rest =>
      if excess <=? 0 then (rows, excess, adjusted, deleted)
      else if al_quantity alloc <=? excess
      then sync_loop rest (remove rows (al_id alloc))
                     (excess - al_quantity alloc) adjusted (deleted + 1)
      else sync_loop rest
                     (store rows (set_quantity alloc (al_quantity alloc - excess)))
                     0 (adjusted + 1) deleted
  end.

(** AllocationManager.sync_with_holdings *)
Definition sync_with_holdings (db : Database) (self : AllocationManager)
    : Database * result SyncResult :=
  match get_total_holdings db self with
  | Raise e => (db, Raise e)
  | Return total_holdings =>
      let total_allocated := get_allocated_units db self in
      if total_allocated <=? total_holdings
      then (db, Return (mkSyncResult 0 0))
      else
        let excess := total_allocated - total_holdings in
        let allocations := get_allocations db self in
        let '(rows, _, adjusted, deleted) :=
          sync_loop allocations (Models.allocations db) excess 0 0 in
        (set_allocations db rows, Return (mkSyncResult adjusted deleted))
  end.

End Alloc.

(** ** Corporate actions (app/services/corporate_actions.py) *)

Module CorpActions.

Import Models.

Definition COMMON_SPLIT_RATIOS : list Z := [2; 3; 4; 5; 10; 20; 25; 50; 100].

(** The dictionary [action_data] handed to [save_corporate_action]. *)
Record ActionData : Type := mkActionData {
  ad_stock_id : Z;
  ad_action_type : ActionType;
  ad_ratio_from : Z;
  ad_ratio_to : Z;
  ad_detected_date : option date;
  ad_old_price : option Q;
  ad_new_price : option Q
}.

(** filter_by(stock_id, action_type, ratio_from, ratio_to) *)
Definition same_action (d : ActionData) (ca : CorporateAction) : bool :=
  (ca_stock_id ca =? ad_stock_id d) &&
  action_type_eqb (ca_action_type ca) (ad_action_type d) &&
  (ca_ratio_from ca =? ad_ratio_from d) &&
  (ca_ratio_to ca =? ad_ratio_to d).

(** CorporateActionService.save_corporate_action.  The prices are kept as
    given; the Numeric(15,4) columns read them back at four places. *)
Definition save_corporate_action (db : Database) (action_data : ActionData)
    : Database * CorporateAction :=
  match find (same_action action_data) (corporate_actions db) with
  | Some existing => (db, existing)
  | None =>
      let ca :=
        mkCorporateAction (next_id (map ca_id (corporate_actions db)))
                          (ad_stock_id action_data)
                          (ad_action_type action_data)
                          (ad_detected_date action_data)
                          (ad_ratio_from action_data)
                          (ad_ratio_to action_data)
                          (ad_old_price action_data)
                          (ad_new_price action_data)
                          true false in
      (set_corporate_actions db (corporate_actions db ++ [ca]), ca)
  end.

(** One turn of the loop of [adjust_quantity_for_splits].  Both divisions
    raise on a zero divisor. *)
Definition apply_split (buy_date : date) (adjusted : Z * Dec.Decimal)
    (s : CorporateAction) : result (Z * Dec.Decimal) :=
  let '(adjusted_qty, adjusted_price) := adjusted in
  match ca_record_date s with
  | None => Return adjusted
  | Some record_date =>
      if buy_date <? record_date then
        if ca_ratio_from s =? 0 then Raise ArithmeticError
        else
          let split_ratio :=
            Flt.rnd (inject_Z (ca_ratio_to s) / inject_Z (ca_ratio_from s)) in
          let adjusted_qty :=
            Flt.to_int (Flt.mul (Flt.of_int adjusted_qty) split_ratio) in
          let divisor := Flt.str split_ratio in
          if Qeq_bool divisor 0 then Raise ArithmeticError
          else Return (adjusted_qty, Dec.div adjusted_price divisor)
      else Return adjusted
  end.

(** CorporateActionService.adjust_quantity_for_splits *)
Fixpoint adjust_quantity_for_splits (original_qty : Z)
    (original_price : Dec.Decimal) (buy_date : date)
    (splits : list CorporateAction) : result (Z * Dec.Decimal) :=
  match splits with
  | [] => Return (original_qty, original_price)
  | s :: rest =>
      match apply_split buy_date (original_qty, original_price) s with
      | Return (q, p) => adjust_quantity_for_splits q p buy_date rest
      | Raise e => Raise e
      end
  end.

(** A split as the detectors propose it: 1 : r with r from the table. *)
Definition detected_split (s : CorporateAction) : Prop :=
  ca_action_type s = split /\ ca_ratio_from s = 1 /\
  In (ca_ratio_to s) COMMON_SPLIT_RATIOS.

(** quantity x price of a lot, exactly. *)
Definition total_value (qty : Z) (price : Dec.Decimal) : Q :=
  (inject_Z qty * price)%Q.

End CorpActions.

(** ** Reconciliation (app/services/reconciliation.py) *)

Module Recon.

Import Dec.

Definition date := Z.

(** A parsed tradebook trade. *)
Record TradebookTrade : Type := mkTradebookTrade {
  t_symbol : string;
  t_isin : option string;
  t_trade_type : Fifo.TradeType;
  t_trade_date : date;
  t_quantity : Z;
  t_price : Decimal;
  t_trade_id : string
}.

(** A parsed Tax P&L entry. *)
Record TaxPnlEntry : Type := mkTaxPnlEntry {
  e_symbol : string;
  e_isin : option string;
  e_entry_date : date;
  e_exit_date : date;
  e_quantity : Z;
  e_buy_value : Decimal;
  e_financial_year : option string
}.

Inductive Confidence : Type := high | medium.

(** The dictionary a detector returns. *)
Record DetectedAction : Type := mkDetectedAction {
  da_action_type : Models.ActionType;
  da_symbol : string;
  da_isin : option string;
  da_ratio_from : Z;
  da_ratio_to : Z;
  da_old_price : Flt.float;
  da_new_price : Flt.float;
  da_detected_automatically : bool;
  da_confidence : Confidence
}.

Inductive DiscrepancyType : Type :=
| quantity_mismatch
| price_mismatch
| missing_trade
| corporate_action.

Inductive Severity : Type := info | warning | error.

(** Discrepancy; [tradebook_data] and [taxpnl_data] are kept as the
    records their dictionaries are read from. *)
Record Discrepancy : Type := mkDiscrepancy {
  d_symbol : string;
  d_isin : option string;
  d_discrepancy_type : DiscrepancyType;
  d_tradebook_data : option TradebookTrade;
  d_taxpnl_data : option TaxPnlEntry;
  d_detected_action : option DetectedAction;
  d_severity : Severity
}.

Record MatchedEntry : Type := mkMatchedEntry {
  m_symbol : string;
  m_isin : option string;
  m_entry_date : date;
  m_tradebook_trade_id : string;
  m_quantity : Z;
  m_buy_value : Flt.float
}.

Record Summary : Type := mkSummary {
  total_taxpnl_entries : Z;
  n_matched : Z;
  n_discrepancies : Z;
  n_corporate_actions : Z;
  n_missing_tradebook_entries : Z;
  match_rate : Flt.float
}.

Record ReconciliationResult : Type := mkResult {
  matched : list MatchedEntry;
  discrepancies : list Discrepancy;
  corporate_actions : list DetectedAction;
  missing_tradebook_entries : list TaxPnlEntry;
  summary : Summary
}.

(** ReconciliationService.__init__ *)
Record ReconciliationService : Type := mkService {
  tradebook_trades : list TradebookTrade;
  taxpnl_entries : list TaxPnlEntry
}.

Definition COMMON_SPLIT_RATIOS : list Z := [2; 3; 4; 5; 10; 20; 25; 50; 100].

(** Decimal('0.01') *)
Definition VALUE_TOLERANCE : Decimal := (1 # 100)%Q.

(** Truth value of a string. *)
Definition truthy (s : string) : bool := negb (String.eqb s EmptyString).

(** self._trades_by_symbol[symbol] *)
Definition trades_by_symbol (self : ReconciliationService) (symbol : string)
    : list TradebookTrade :=
  filter (fun t => truthy (t_symbol t) && String.eqb (t_symbol t) symbol)
         (tradebook_trades self).

(** self._trades_by_isin[isin] *)
Definition trades_by_isin (self : ReconciliationService) (isin : string)
    : list TradebookTrade :=
  filter (fun t => match t_isin t with
                   | Some i => truthy i && String.eqb i isin
                   | None => false
                   end)
         (tradebook_trades self).

(** ReconciliationService.get_trades_for_symbol *)
Definition get_trades_for_symbol (self : ReconciliationService)
    (symbol : string) (isin : option string) : list TradebookTrade :=
  match isin with
  | Some i =>
      if truthy i && negb (Nat.eqb (List.length (trades_by_isin self i)) 0)
      then trades_by_isin self i
      else trades_by_symbol self symbol
  | None => trades_by_symbol self symbol
  end.

(** ReconciliationService._values_match *)
Definition _values_match (value1 value2 tolerance : Decimal) : bool :=
  if eqb value1 0%Q && eqb value2 0%Q then true
  else if eqb value1 0%Q || eqb value2 0%Q then false
  else
    let diff_ratio :=
      div (abs (sub value1 value2)) (max (abs value1) (abs value2)) in
    leb diff_ratio tolerance.

Definition is_buy (t : TradebookTrade) : bool :=
  match t_trade_type t with Fifo.Buy => true | Fifo.Sell => false end.

Definition trade_value (t : TradebookTrade) : Decimal :=
  mul (of_int (t_quantity t)) (t_price t).

(** ReconciliationService.find_matching_buy *)
Definition find_matching_buy (self : ReconciliationService)
    (taxpnl_entry : TaxPnlEntry) : option TradebookTrade :=
  let entry_date := e_entry_date taxpnl_entry in
  let buy_value := e_buy_value taxpnl_entry in
  let trades :=
    get_trades_for_symbol self (e_symbol taxpnl_entry) (e_isin taxpnl_entry) in
  let buy_trades := filter is_buy trades in
  match find (fun trade => (t_trade_date trade =? entry_date) &&
                           _values_match (trade_value trade) buy_value VALUE_TOLERANCE)
             buy_trades with
  | Some trade => Some trade
  | None =>
      find (fun trade =>
              (Z.abs (t_trade_date trade - entry_date) <=? 1) &&
              _values_match (trade_value trade) buy_value VALUE_TOLERANCE)
           buy_trades
  end.

(** The float literals 0.01, 0.02 and 0.001. *)
Definition f_0_01 : Flt.float := Flt.rnd (1 # 100).
Definition f_0_02 : Flt.float := Flt.rnd (2 # 100).
Definition f_0_001 : Flt.float := Flt.rnd (1 # 1000).

(** abs(qty_ratio - ratio) *)
Definition ratio_gap (qty_ratio : Flt.float) (ratio : Z) : Flt.float :=
  Flt.abs (Flt.sub qty_ratio (Flt.of_int ratio)).

(** abs(pnl_price - expected_new_price) / tb_price *)
Definition price_gap (tb_price pnl_price : Decimal) (ratio : Z) : Decimal :=
  let expected_new_price := div tb_price (of_int ratio) in
  div (abs (sub pnl_price expected_new_price)) tb_price.

(** pnl_value / pnl_qty if pnl_qty else Decimal('0') *)
Definition pnl_price_of (taxpnl_entry : TaxPnlEntry) : Decimal :=
  if e_quantity taxpnl_entry =? 0 then 0%Q
  else div (e_buy_value taxpnl_entry) (of_int (e_quantity taxpnl_entry)).

(** int / int *)
Definition true_div (a b : Z) : Flt.float := Flt.rnd (inject_Z a / inject_Z b).

(** The loop of [detect_stock_split] over the ratio table.  Dividing by
    a zero [tb_price] raises. *)
Fixpoint split_loop (taxpnl_entry : TaxPnlEntry) (qty_ratio : Flt.float)
    (tb_price pnl_price : Decimal) (ratios : list Z)
    : result (option DetectedAction) :=
  match ratios with
  | [] => Return None
  | ratio :: rest =>
      if Flt.ltb (ratio_gap qty_ratio ratio) f_0_01 then
        if eqb tb_price 0%Q then Raise ArithmeticError
        else if negb (Qle_bool f_0_02 (price_gap tb_price pnl_price ratio))
        then Return (Some (mkDetectedAction
               Models.split (e_symbol taxpnl_entry) (e_isin taxpnl_entry)
               1 ratio (Flt.rnd tb_price) (Flt.rnd pnl_price) true
               (if Flt.ltb (ratio_gap qty_ratio ratio) f_0_001
                then high else medium)))
        else split_loop taxpnl_entry qty_ratio tb_price pnl_price rest
      else split_loop taxpnl_entry qty_ratio tb_price pnl_price rest
  end.

(** ReconciliationService.detect_stock_split *)
Definition detect_stock_split (tradebook_entry : TradebookTrade)
    (taxpnl_entry : TaxPnlEntry) : result (option DetectedAction) :=
  let tb_qty := t_quantity tradebook_entry in
  let tb_price := t_price tradebook_entry in
  let tb_value := mul (of_int tb_qty) tb_price in
  let pnl_qty := e_quantity taxpnl_entry in
  let pnl_value := e_buy_value taxpnl_entry in
  let pnl_price := pnl_price_of taxpnl_entry in
  if negb (_values_match tb_value pnl_value (2 # 100)%Q) then Return None
  else if tb_qty =? 0 then Return None
  else
    let qty_ratio := true_div pnl_qty tb_qty in
    split_loop taxpnl_entry qty_ratio tb_price pnl_price COMMON_SPLIT_RATIOS.

(** (bonus_num, bonus_den, expected_ratio) *)
Definition bonus_ratios : list (Z * Z * Flt.float) :=
  [(1, 1, 2%Q); (1, 2, (3 # 2)%Q); (2, 1, 3%Q); (3, 1, 4%Q)].

(** The loop of [detect_bonus_issue] over the bonus table. *)
Fixpoint bonus_loop (tradebook_entry : TradebookTrade) (taxpnl_entry : TaxPnlEntry)
    (qty_ratio : Flt.float) (table : list (Z * Z * Flt.float))
    : option DetectedAction :=
  match table with
  | [] => None
  | (bonus_num, bonus_den, expected_ratio) :: rest =>
      if Flt.ltb (Flt.abs (Flt.sub qty_ratio expected_ratio)) f_0_01 then
        Some (mkDetectedAction
                Models.bonus (e_symbol taxpnl_entry) (e_isin taxpnl_entry)
                bonus_den bonus_num (Flt.rnd (t_price tradebook_entry))
                (Flt.rnd (div (e_buy_value taxpnl_entry)
                              (of_int (e_quantity taxpnl_entry))))
                true medium)
      else bonus_loop tradebook_entry taxpnl_entry qty_ratio rest
  end.

(** ReconciliationService.detect_bonus_issue.  [pnl_qty / tb_qty] raises
    on a zero [tb_qty]. *)
Definition detect_bonus_issue (tradebook_entry : TradebookTrade)
    (taxpnl_entry : TaxPnlEntry) : result (option DetectedAction) :=
  let tb_qty := t_quantity tradebook_entry in
  let tb_price := t_price tradebook_entry in
  let tb_value := mul (of_int tb_qty) tb_price in
  let pnl_qty := e_quantity taxpnl_entry in
  let pnl_value := e_buy_value taxpnl_entry in
  if negb (_values_match tb_value pnl_value (2 # 100)%Q) then Return None
  else if pnl_qty <=? tb_qty then Return None
  else if tb_qty =? 0 then Raise ArithmeticError
  else
    let qty_ratio := true_div pnl_qty tb_qty in
    Return (bonus_loop tradebook_entry taxpnl_entry qty_ratio bonus_ratios).

(** What the loop of [reconcile] does with one Tax P&L entry. *)
Inductive Outcome : Type :=
| MissingTradebook (entry : TaxPnlEntry)
| Matched (m : MatchedEntry)
| Proposed (action : DetectedAction) (d : Discrepancy)
| Unexplained (d : Discrepancy).

(** min(t['trade_date'] for t in self.tradebook_trades) *)
Definition earliest_tradebook_date (self : ReconciliationService) : option date :=
  match tradebook_trades self with
  | [] => None
  | t :: ts => Some (fold_left Z.min (map t_trade_date ts) (t_trade_date t))
  end.

Definition action_discrepancy (entry : TaxPnlEntry) (trade : TradebookTrade)
    (action : DetectedAction) : Discrepancy :=
  mkDiscrepancy (e_symbol entry) (e_isin entry) corporate_action
                (Some trade) (Some entry) (Some action) info.

(** The body of the loop of [reconcile] for one entry. *)
Definition reconcile_entry (self : ReconciliationService) (entry : TaxPnlEntry)
    : result Outcome :=
  let before_history :=
    match earliest_tradebook_date self with
    | Some earliest => e_entry_date entry <? earliest
    | None => false
    end in
  if before_history then Return (MissingTradebook entry)
  else
    match find_matching_buy self entry with
    | Some matching_trade =>
        if (t_quantity matching_trade =? e_quantity entry) &&
           _values_match (trade_value matching_trade) (e_buy_value entry)
                         VALUE_TOLERANCE
        then Return (Matched
               (mkMatchedEntry (e_symbol entry) (e_isin entry)
                  (e_entry_date entry) (t_trade_id matching_trade)
                  (e_quantity entry) (Flt.rnd (e_buy_value entry))))
        else
          match detect_stock_split matching_trade entry with
          | Raise e => Raise e
          | Return (Some split_action) =>
              Return (Proposed split_action
                        (action_discrepancy entry matching_trade split_action))
          | Return None =>
              match detect_bonus_issue matching_trade entry with
              | Raise e => Raise e
              | Return (Some bonus_action) =>
                  Return (Proposed bonus_action
                            (action_discrepancy entry matching_trade bonus_action))
              | Return None =>
                  Return (Unexplained
                    (mkDiscrepancy (e_symbol entry) (e_isin entry)
                       (if negb (t_quantity matching_trade =? e_quantity entry)
                        then quantity_mismatch else price_mismatch)
                       (Some matching_trade) (Some entry) None warning))
              end
          end
    | None =>
        Return (Unexplained
          (mkDiscrepancy (e_symbol entry) (e_isin entry) missing_trade
                         None (Some entry) None warning))
    end.

(** The four result lists after one more outcome. *)
Definition record_outcome (r : ReconciliationResult) (o : Outcome)
    : ReconciliationResult :=
  match o with
  | MissingTradebook e =>
      mkResult (matched r) (discrepancies r) (corporate_actions r)
               (missing_tradebook_entries r ++ [e]) (summary r)
  | Matched m =>
      mkResult (matched r ++ [m]) (discrepancies r) (corporate_actions r)
               (missing_tradebook_entries r) (summary r)
  | Proposed a d =>
      mkResult (matched r) (discrepancies r ++ [d]) (corporate_actions r ++ [a])
               (missing_tradebook_entries r) (summary r)
  | Unexplained d =>
      mkResult (matched r) (discrepancies r ++ [d]) (corporate_actions r)
               (missing_tradebook_entries r) (summary r)
  end.

Fixpoint reconcile_loop (self : ReconciliationService) (entries : list TaxPnlEntry)
    (r : ReconciliationResult) : result ReconciliationResult :=
  match entries with
  | [] => Return r
  | entry :: rest =>
      match reconcile_entry self entry with
      | Raise e => Raise e
      | Return o => reconcile_loop self rest (record_outcome r o)
      end
  end.

Definition len {A : Type} (l : list A) : Z := Z.of_nat (List.length l).

(** ReconciliationService.reconcile *)
Definition reconcile (self : ReconciliationService) (financial_year : option string)
    : result ReconciliationResult :=
  let entries :=
    match financial_year with
    | Some fy =>
        if truthy fy
        then filter (fun e => match e_financial_year e with
                              | Some y => String.eqb y fy
                              | None => false
                              end) (taxpnl_entries self)
        else taxpnl_entries self
    | None => taxpnl_entries self
    end in
  let empty := mkResult [] [] [] [] (mkSummary 0 0 0 0 0 0%Q) in
  match reconcile_loop self entries empty with
  | Raise e => Raise e
  | Return r =>
      Return (mkResult (matched r) (discrepancies r) (corporate_actions r)
                (missing_tradebook_entries r)
                (mkSummary (len entries) (len (matched r)) (len (discrepancies r))
                   (len (corporate_actions r)) (len (missing_tradebook_entries r))
                   (match entries with
                    | [] => 0%Q
                    | _ :: _ => Flt.mul (true_div (len (matched r)) (len entries)) 100%Q
                    end)))
  end.

End Recon.

(** ** Split detection from the stored trades
    (app/services/corporate_actions.py) *)

Module Detectors.

Import Models CorpActions.

(** SPLIT_DETECTION_THRESHOLDS, in the order of the dictionary:
    (split ratio, (min ratio, max ratio)). *)
Definition SPLIT_DETECTION_THRESHOLDS : list (Z * (Flt.float * Flt.float)) :=
  [(2, (Flt.rnd (17 # 10), Flt.rnd (24 # 10)));
   (3, (Flt.rnd (25 # 10), Flt.rnd (36 # 10)));
   (4, (Flt.rnd (34 # 10), Flt.rnd (48 # 10)));
   (5, (Flt.rnd (42 # 10), Flt.rnd (60 # 10)));
   (10, (Flt.rnd (85 # 10), Flt.rnd (120 # 10)));
   (20, (Flt.rnd (170 # 10), Flt.rnd (240 # 10)));
   (25, (Flt.rnd (210 # 10), Flt.rnd (300 # 10)));
   (50, (Flt.rnd (420 # 10), Flt.rnd (600 # 10)));
   (100, (Flt.rnd (850 # 10), Flt.rnd (1200 # 10)))].

(** The float literals 0.5, 0.1, 0.8 and 1.2. *)
Definition f_0_5 : Flt.float := Flt.rnd (5 # 10).
Definition f_0_1 : Flt.float := Flt.rnd (1 # 10).
Definition f_0_8 : Flt.float := Flt.rnd (8 # 10).
Definition f_1_2 : Flt.float := Flt.rnd (12 # 10).

(** ORDER BY trade_date, trade_datetime (ascending; a NULL datetime sorts
    first, as SQLite has it). *)
Definition date_order (a b : Trade) : bool :=
  if tr_trade_date a <? tr_trade_date b then true
  else if tr_trade_date b <? tr_trade_date a then false
  else match tr_trade_datetime a, tr_trade_datetime b with
       | None, _ => true
       | Some _, None => false
       | Some x, Some y => x <=? y
       end.

Definition is_buy (t : Trade) : bool :=
  match tr_trade_type t with Fifo.Buy => true | Fifo.Sell => false end.

Definition is_sell (t : Trade) : bool := negb (is_buy t).

(** Trade.query.filter_by(stock_id, account_id).order_by(...).all() *)
Definition query_pair (db : Database) (stock_id account_id : Z) : list Trade :=
  sort_by date_order
    (filter (fun t => (tr_stock_id t =? stock_id) &&
                      (tr_account_id t =? account_id)) (trades db)).

(** Trade.query.filter_by(stock_id, account_id, trade_type='buy')
         .order_by(...).all() *)
Definition query_buys (db : Database) (stock_id account_id : Z) : list Trade :=
  sort_by date_order
    (filter (fun t => (tr_stock_id t =? stock_id) &&
                      (tr_account_id t =? account_id) && is_buy t) (trades db)).

(** The dictionary a detector returns; its action_type is 'split'.  A key
    the detector does not set is None. *)
Record SplitData : Type := mkSplitData {
  sd_stock_id : Z;
  sd_ratio_from : Z;
  sd_ratio_to : Z;
  sd_old_price : option Flt.float;
  sd_new_price : option Flt.float;
  sd_detected_date : option date;
  sd_pre_split_trade_id : option string;
  sd_post_split_trade_id : option string;
  sd_total_buy : option Z;
  sd_total_sell : option Z;
  sd_confidence : Recon.Confidence
}.

(** The inner loop of [detect_split_from_prices] over the thresholds. *)
Fixpoint scan_thresholds (price_ratio : Flt.float)
    (table : list (Z * (Flt.float * Flt.float))) : option Z :=
  match table with
  | [] => None
  | (split_ratio, (min_ratio, max_ratio)) :: rest =>
      if Flt.leb min_ratio price_ratio && Flt.leb price_ratio max_ratio
      then Some split_ratio
      else scan_thresholds price_ratio rest
  end.

(** float(prev_trade.price) / float(curr_trade.price); the detectors divide
    only by the price of a trade whose price is positive. *)
Definition price_ratio_of (prev_trade curr_trade : Trade) : Flt.float :=
  Flt.div (Flt.rnd (tr_price prev_trade)) (Flt.rnd (tr_price curr_trade)).

(** The loop of [detect_split_from_prices] over consecutive buys. *)
Fixpoint prices_loop (stock_id : Z) (prev_trade : Trade) (rest : list Trade)
    : option SplitData :=
  match rest with
  | [] => None
  | curr_trade :: rest' =>
      if Qle_bool (tr_price curr_trade) 0
      then prices_loop stock_id curr_trade rest'
      else
        let price_ratio := price_ratio_of prev_trade curr_trade in
        match scan_thresholds price_ratio SPLIT_DETECTION_THRESHOLDS with
        | Some split_ratio =>
            Some (mkSplitData stock_id 1 split_ratio
                    (Some (Flt.rnd (tr_price prev_trade)))
                    (Some (Flt.rnd (tr_price curr_trade)))
                    (Some (tr_trade_date curr_trade))
                    (Some (tr_trade_id prev_trade))
                    (Some (tr_trade_id curr_trade))
                    None None
                    (if Flt.ltb (Flt.abs (Flt.sub price_ratio
                                            (Flt.of_int split_ratio))) f_0_5
                     then Recon.high else Recon.medium))
        | None => prices_loop stock_id curr_trade rest'
        end
  end.

(** CorporateActionService.detect_split_from_prices *)
Definition detect_split_from_prices (db : Database) (stock_id account_id : Z)
    : option SplitData :=
  match query_buys db stock_id account_id with
  | [] => None
  | first :: rest => prices_loop stock_id first rest
  end.

Definition total_units (keep : Trade -> bool) (ts : list Trade) : Z :=
  fold_right (fun t acc => if keep t then tr_quantity t + acc else acc) 0 ts.

(** The search of [detect_split_from_sell_mismatch] for the split point
    among consecutive buys. *)
Fixpoint find_split_point (split_ratio : Z) (prev : Trade) (rest : list Trade)
    : option (date * Flt.float * Flt.float) :=
  match rest with
  | [] => None
  | curr :: rest' =>
      let ratio :=
        if Qle_bool (tr_price curr) 0 then 0%Q else price_ratio_of prev curr in
      if Flt.leb (Flt.mul f_0_8 (Flt.of_int split_ratio)) ratio &&
         Flt.leb ratio (Flt.mul f_1_2 (Flt.of_int split_ratio))
      then Some (tr_trade_date curr, Flt.rnd (tr_price prev), Flt.rnd (tr_price curr))
      else find_split_point split_ratio curr rest'
  end.

(** abs(expected_holdings_after_split - total_sell) <= total_sell * 0.1 *)
Definition within_tenth (total_buy total_sell split_ratio : Z) : bool :=
  Qle_bool (inject_Z (Z.abs (total_buy * split_ratio - total_sell)))
           (Flt.mul (Flt.of_int total_sell) f_0_1).

(** The loop of [detect_split_from_sell_mismatch] over the ratio table. *)
Fixpoint mismatch_loop (stock_id : Z) (trades : list Trade)
    (total_buy total_sell : Z) (ratios : list Z) : option SplitData :=
  match ratios with
  | [] => None
  | split_ratio :: rest =>
      if within_tenth total_buy total_sell split_ratio then
        let point :=
          match filter is_buy trades with
          | [] => None
          | first :: others => find_split_point split_ratio first others
          end in
        Some (mkSplitData stock_id 1 split_ratio
                (match point with Some (_, o, _) => Some o | None => None end)
                (match point with Some (_, _, n) => Some n | None => None end)
                (match point with Some (d, _, _) => Some d | None => None end)
                None None (Some total_buy) (Some total_sell) Recon.medium)
      else mismatch_loop stock_id trades total_buy total_sell rest
  end.

(** CorporateActionService.detect_split_from_sell_mismatch *)
Definition detect_split_from_sell_mismatch (db : Database)
    (stock_id account_id : Z) : option SplitData :=
  let trades := query_pair db stock_id account_id in
  let total_buy := total_units is_buy trades in
  let total_sell := total_units is_sell trades in
  if total_sell <=? total_buy then None
  else mismatch_loop stock_id trades total_buy total_sell COMMON_SPLIT_RATIOS.

(** The keys of the dictionary [save_corporate_action] reads. *)
Definition action_data (d : SplitData) : ActionData :=
  mkActionData (sd_stock_id d) split (sd_ratio_from d) (sd_ratio_to d)
               (sd_detected_date d) (sd_old_price d) (sd_new_price d).

(** CorporateActionService.detect_and_save_splits *)
Definition detect_and_save_splits (db : Database) (stock_id account_id : Z)
    : Database * option CorporateAction :=
  let split_data :=
    match detect_split_from_prices db stock_id account_id with
    | Some d => Some d
    | None => detect_split_from_sell_mismatch db stock_id account_id
    end in
  match split_data with
  | Some d => let '(db', ca) := save_corporate_action db (action_data d) in
              (db', Some ca)
  | None => (db, None)
  end.

End Detectors.

(** ** Facts about rounding *)

Section RoundingFacts.

Import Num.

Lemma find_exp_spec : forall fuel b e n d,
  let r := find_exp fuel b e n d in
  r <= e /\
  (r = e - Z.of_nat fuel \/ below_pow b r n d = true) /\
  (forall x, r < x <= e -> below_pow b x n d = false).
Proof.
  induction fuel as [|fuel IH]; intros b e n d; cbn [find_exp].
  - repeat split; [lia | left; lia | intros x Hx; lia].
  - destruct (below_pow b e n d) eqn:E.
    + repeat split; [lia | right; exact E | intros x Hx; lia].
    + destruct (IH b (e - 1) n d) as (A & B & C). cbv zeta in *.
      repeat split; [lia | destruct B as [B|B]; [left; lia | right; exact B] |].
      intros x Hx. destruct (Z.eq_dec x e) as [->|Hne]; [exact E|].
      apply C. lia.
Qed.

Lemma pow_base_2 : forall b e, 2 <= b -> 0 <= e -> 2 ^ e <= b ^ e.
Proof. intros b e Hb He. apply Z.pow_le_mono_l. lia. Qed.

(** [ilog b n d] is the exponent of the leading digit of n/d in base b. *)
Lemma ilog_spec : forall b n d,
  2 <= b -> 0 < n -> 0 < d ->
  below_pow b (ilog b n d) n d = true /\
  below_pow b (ilog b n d + 1) n d = false.
Proof.
  intros b n d Hb Hn Hd. unfold ilog.
  pose proof (Z.log2_nonneg n) as Hln. pose proof (Z.log2_nonneg d) as Hld.
  pose proof (Z.log2_spec n Hn) as [_ Hn2]. pose proof (Z.log2_spec d Hd) as [_ Hd2].
  set (e0 := Z.log2 n + 1). set (F := Z.to_nat (Z.log2 n + Z.log2 d + 2)).
  assert (Htop : below_pow b e0 n d = false).
  { unfold below_pow. destruct (Z.leb_spec 0 e0); [|lia].
    apply Z.leb_gt. pose proof (pow_base_2 b e0 Hb ltac:(lia)) as Hp.
    unfold e0 in *. replace (Z.succ (Z.log2 n)) with (Z.log2 n + 1) in Hn2 by lia.
    nia. }
  assert (Hbot : below_pow b (e0 - Z.of_nat F) n d = true).
  { unfold F, e0. rewrite Z2Nat.id by lia.
    replace (Z.log2 n + 1 - (Z.log2 n + Z.log2 d + 2)) with (- (Z.log2 d + 1)) by lia.
    unfold below_pow. destruct (Z.leb_spec 0 (- (Z.log2 d + 1))); [lia|].
    apply Z.leb_le. rewrite Z.opp_involutive.
    pose proof (pow_base_2 b (Z.log2 d + 1) Hb ltac:(lia)) as Hp.
    replace (Z.succ (Z.log2 d)) with (Z.log2 d + 1) in Hd2 by lia.
    nia. }
  destruct (find_exp_spec F b e0 n d) as (A & B & C). cbv zeta in *.
  set (r := find_exp F b e0 n d) in *.
  assert (Hr : below_pow b r n d = true).
  { destruct B as [B|B]; [rewrite B; exact Hbot | exact B]. }
  split; [exact Hr|]. apply C.
  assert (r <> e0) by (intros E; rewrite E in Hr; congruence). lia.
Qed.

Lemma div_half_even_exact : forall k d, 0 < d -> div_half_even (k * d) d = k.
Proof.
  intros k d Hd. unfold div_half_even.
  rewrite Z.div_mul by lia. rewrite Z.mod_mul by lia.
  destruct (Z.ltb_spec (2 * 0) d); [reflexivity|lia].
Qed.

Lemma round_sig_proper : forall b p q q',
  (q == q')%Q -> round_sig b p q = round_sig b p q'.
Proof.
  intros b p q q' H. unfold round_sig. rewrite (Qred_complete q q' H). reflexivity.
Qed.

(** A value with at most [p] significant digits is not changed. *)
Lemma round_sig_exact : forall b p m j q,
  2 <= b -> 1 <= p -> 0 <= j -> Z.abs m < b ^ p ->
  (q == m # Z.to_pos (b ^ j))%Q ->
  round_sig b p q = Qred q.
Proof.
  intros b p m j q Hb Hp Hj Hm Hq.
  assert (Hbj : 0 < b ^ j) by (apply Z.pow_pos_nonneg; lia).
  unfold round_sig. cbv zeta.
  pose proof (Qred_correct q) as Hred.
  set (q1 := Qred q) in *.
  assert (Heq : Qnum q1 * b ^ j = m * Zpos (Qden q1)).
  { assert (H : (q1 == m # Z.to_pos (b ^ j))%Q) by (rewrite Hred; exact Hq).
    unfold Qeq in H. cbn [Qnum Qden] in H. rewrite Z2Pos.id in H by lia. exact H. }
  set (num := Qnum q1) in *. set (den := Zpos (Qden q1)) in *.
  assert (Hden : 0 < den) by (unfold den; lia).
  destruct (Z.eqb_spec (Z.abs num) 0) as [Hz|Hnz].
  - assert (num = 0) by lia.
    assert (H0 : (q == 0)%Q).
    { rewrite <- Hred. unfold Qeq. fold num. cbn. lia. }
    unfold q1. rewrite (Qred_complete q 0 H0). reflexivity.
  - assert (Hn : 0 < Z.abs num) by lia.
    assert (Habs : Z.abs num * b ^ j = Z.abs m * den).
    { assert (H : Z.abs (num * b ^ j) = Z.abs (m * den)) by (rewrite Heq; reflexivity).
      rewrite !Z.abs_mul in H.
      rewrite (Z.abs_eq (b ^ j)), (Z.abs_eq den) in H by lia. exact H. }
    assert (Hsgn : Z.sgn num * Z.abs m = m).
    { assert (Z.sgn num = Z.sgn m); [|rewrite H; lia].
      assert (Z.sgn (num * b ^ j) = Z.sgn (m * den)) by (rewrite Heq; reflexivity).
      rewrite !Z.sgn_mul in H. rewrite (Z.sgn_pos (b ^ j)), (Z.sgn_pos den) in H; lia. }
    destruct (ilog_spec b (Z.abs num) den Hb Hn Hden) as [Hlow _].
    set (r := ilog b (Z.abs num) den) in *.
    assert (Hs : r - (p - 1) <= - j).
    { unfold below_pow in Hlow. destruct (Z.leb_spec 0 r) as [Hr|Hr].
      - apply Z.leb_le in Hlow.
        assert (b ^ (r + j) < b ^ p).
        { rewrite Z.pow_add_r by lia.
          assert (0 < b ^ r) by (apply Z.pow_pos_nonneg; lia).
          assert (0 < b ^ p) by (apply Z.pow_pos_nonneg; lia). nia. }
        apply Z.pow_lt_mono_r_iff in H; lia.
      - apply Z.leb_le in Hlow.
        assert (b ^ j < b ^ (p - r)).
        { replace (p - r) with (p + - r) by lia. rewrite Z.pow_add_r by lia.
          assert (0 < b ^ (- r)) by (apply Z.pow_pos_nonneg; lia).
          assert (0 < b ^ p) by (apply Z.pow_pos_nonneg; lia).
          assert (den * b ^ j <= Z.abs m * den * b ^ (- r)) by nia.
          nia. }
        apply Z.pow_lt_mono_r_iff in H; lia. }
    set (s := r - (p - 1)) in *.
    transitivity (Qred q); [|reflexivity]. apply Qred_complete. rewrite <- Hred.
    destruct (Z.leb_spec 0 s) as [Hs0|Hs0].
    + assert (Hs1 : s = 0) by lia. assert (Hj0 : j = 0) by lia.
      assert (Hbs : b ^ s = 1) by (rewrite Hs1; reflexivity).
      assert (Habs' : Z.abs num = Z.abs m * den).
      { rewrite Hj0, Z.pow_0_r in Habs. lia. }
      rewrite Hbs, !Z.mul_1_r, Habs', div_half_even_exact by lia.
      unfold Qeq. cbn [Qnum Qden inject_Z]. fold num. fold den.
      rewrite Hsgn. rewrite Hj0, Z.pow_0_r in Heq. lia.
    + assert (Hss : 0 < b ^ (- s)) by (apply Z.pow_pos_nonneg; lia).
      assert (Hsplit : b ^ (- s) = b ^ j * b ^ (- s - j)).
      { rewrite <- Z.pow_add_r by lia. f_equal. lia. }
      replace (Z.abs num * b ^ (- s)) with ((Z.abs m * b ^ (- s - j)) * den)
        by (rewrite Hsplit; nia).
      rewrite div_half_even_exact by lia.
      unfold Qeq. cbn [Qnum Qden]. fold num. fold den.
      rewrite Z2Pos.id by lia.
      replace (Z.sgn num * (Z.abs m * b ^ (- s - j)) * den)
        with (m * den * b ^ (- s - j)) by (rewrite <- Hsgn at 1; ring).
      rewrite <- Heq. rewrite Hsplit. ring.
Qed.

Lemma div_half_even_error : forall n d,
  0 < d -> Z.abs (2 * (div_half_even n d * d - n)) <= d.
Proof.
  intros n d Hd. unfold div_half_even.
  pose proof (Z.div_mod n d ltac:(lia)) as Hdm.
  pose proof (Z.mod_pos_bound n d Hd) as Hm.
  set (k := n / d) in *. set (r := n mod d) in *.
  destruct (Z.ltb_spec (2 * r) d); [nia|].
  destruct (Z.ltb_spec d (2 * r)); [nia|].
  destruct (Z.even k); nia.
Qed.

(** The rounded value is within half a unit of the last kept digit: the
    relative error is at most 1 / (2 b^(p-1)). *)
Lemma round_sig_error : forall b p q,
  2 <= b -> 1 <= p ->
  (Qabs (round_sig b p q - q) * inject_Z (2 * b ^ (p - 1)) <= Qabs q)%Q.
Proof.
  intros b p q Hb Hp.
  assert (HB : 0 < b ^ (p - 1)) by (apply Z.pow_pos_nonneg; lia).
  pose proof (Qred_correct q) as Hred.
  unfold round_sig. cbv zeta.
  set (q1 := Qred q) in *.
  set (num := Qnum q1) in *. set (den := Zpos (Qden q1)) in *.
  assert (Hden : 0 < den) by (unfold den; lia).
  assert (Hq : (q == num # Qden q1)%Q).
  { rewrite <- Hred. unfold num. destruct q1; reflexivity. }
  destruct (Z.eqb_spec (Z.abs num) 0) as [Hz|Hnz].
  - assert (num = 0) by lia.
    rewrite Hq. rewrite H. unfold Qminus, Qplus, Qopp, Qabs, Qmult, Qle. cbn. lia.
  - assert (Hn : 0 < Z.abs num) by lia.
    destruct (ilog_spec b (Z.abs num) den Hb Hn Hden) as [Hlow _].
    set (r := ilog b (Z.abs num) den) in *.
    set (s := r - (p - 1)) in *.
    assert (Hsg : Z.sgn num = 1 \/ Z.sgn num = -1) by lia.
    assert (Hnum : num = Z.sgn num * Z.abs num) by lia.
    remember (Z.abs num) as a eqn:Ea. remember (Z.sgn num) as sg eqn:Esg.
    unfold below_pow in Hlow.
    destruct (Z.leb_spec 0 s) as [Hs|Hs].
    + (* s >= 0, hence r >= 0 *)
      destruct (Z.leb_spec 0 r) as [_|]; [|lia]. apply Z.leb_le in Hlow.
      assert (Hbs : 0 < b ^ s) by (apply Z.pow_pos_nonneg; lia).
      assert (Hsplit : b ^ r = b ^ s * b ^ (p - 1)).
      { rewrite <- Z.pow_add_r by lia. f_equal. unfold s. lia. }
      pose proof (div_half_even_error a (den * b ^ s) ltac:(nia)) as Herr.
      remember (div_half_even a (den * b ^ s)) as c eqn:Ec.
      rewrite Qred_correct. rewrite Hq.
      unfold Qminus, Qplus, Qopp, Qabs, Qmult, Qle, inject_Z. cbn [Qnum Qden].
      fold den. rewrite Hnum.
      remember (b ^ s) as bs. remember (b ^ (p - 1)) as B. remember (b ^ r) as br.
      destruct Hsg as [-> | ->]; nia.
    + assert (Hbs : 0 < b ^ (- s)) by (apply Z.pow_pos_nonneg; lia).
      pose proof (div_half_even_error (a * b ^ (- s)) den Hden) as Herr.
      remember (div_half_even (a * b ^ (- s)) den) as c eqn:Ec.
      assert (Hkey : b ^ (p - 1) * den <= a * b ^ (- s)).
      { destruct (Z.leb_spec 0 r) as [Hr|Hr]; apply Z.leb_le in Hlow.
        - assert (E : b ^ (p - 1) = b ^ r * b ^ (- s)).
          { rewrite <- Z.pow_add_r by lia. f_equal. unfold s. lia. }
          rewrite E. nia.
        - assert (E : b ^ (- s) = b ^ (p - 1) * b ^ (- r)).
          { rewrite <- Z.pow_add_r by lia. f_equal. unfold s. lia. }
          rewrite E. nia. }
      rewrite Qred_correct. rewrite Hq.
      unfold Qminus, Qplus, Qopp, Qabs, Qmult, Qle, inject_Z. cbn [Qnum Qden].
      rewrite !Pos2Z.inj_mul. rewrite Z2Pos.id by lia. fold den. rewrite Hnum.
      remember (b ^ (- s)) as bs. remember (b ^ (p - 1)) as B.
      destruct Hsg as [-> | ->]; nia.
Qed.

(** The same for the two arithmetics. *)
Lemma dec_error : forall q,
  (Qabs (Dec.quantize q - q) * (2000000000000000000000000000 # 1) <= Qabs q)%Q.
Proof.
  intros q. exact (round_sig_error 10 28 q ltac:(lia) ltac:(lia)).
Qed.

Lemma flt_error : forall q,
  (Qabs (Flt.rnd q - q) * (9007199254740992 # 1) <= Qabs q)%Q.
Proof.
  intros q. exact (round_sig_error 2 53 q ltac:(lia) ltac:(lia)).
Qed.

End RoundingFacts.

(** ** Facts about the loop of [process_sell] *)

Section FifoFacts.

Import Fifo.

Definition sum_remaining (lots : list BuyLot) : Z :=
  fold_right (fun lot acc => lot_remaining_qty lot + acc) 0 lots.

Definition sum_matched (ms : list MatchedLot) : Z :=
  fold_right (fun m acc => quantity m + acc) 0 ms.

Lemma sum_remaining_app : forall l1 l2,
  sum_remaining (l1 ++ l2) = sum_remaining l1 + sum_remaining l2.
Proof. induction l1 as [|a l1 IH]; intros; simpl; [|rewrite IH]; lia. Qed.

Lemma sum_remaining_cons : forall a l,
  sum_remaining (a :: l) = lot_remaining_qty a + sum_remaining l.
Proof. reflexivity. Qed.

Lemma sum_matched_app : forall l1 l2,
  sum_matched (l1 ++ l2) = sum_matched l1 + sum_matched l2.
Proof. induction l1 as [|a l1 IH]; intros; simpl; [|rewrite IH]; lia. Qed.

Variables (trade_date : date) (price : Dec.Decimal) (trade_id : string).

Abbreviation step := (sell_step trade_date price trade_id).
Abbreviation loop := (fun fuel => sell_loop fuel trade_date price trade_id).

(** What one iteration does to the quantities. *)
Lemma sell_step_spec : forall st,
  sell_guard st = true ->
  let st' := step st in
  sum_remaining (st_lots st') - st_remaining_sell st'
    = sum_remaining (st_lots st) - st_remaining_sell st /\
  sum_matched (st_matched_lots st') + st_remaining_sell st'
    = sum_matched (st_matched_lots st) + st_remaining_sell st /\
  sum_matched (st_matched st') + st_remaining_sell st'
    = sum_matched (st_matched st) + st_remaining_sell st /\
  0 <= st_remaining_sell st' /\
  ((List.length (st_lots st') < List.length (st_lots st))%nat \/
   st_remaining_sell st' = 0).
Proof.
  intros [lots mls ms rs] Hg. unfold sell_guard in Hg. simpl in Hg.
  apply andb_true_iff in Hg. destruct Hg as [Hrs Hne].
  apply Z.ltb_lt in Hrs.
  destruct lots as [|lot rest]; [discriminate|].
  unfold sell_step; cbn [st_lots st_matched_lots st_matched st_remaining_sell].
  cbn [set_remaining lot_remaining_qty].
  rewrite !sum_matched_app. cbn [sum_matched fold_right quantity].
  destruct (Z.eqb_spec (lot_remaining_qty lot - Z.min rs (lot_remaining_qty lot)) 0) as [E|E];
    cbn [st_lots st_matched_lots st_matched st_remaining_sell List.length];
    rewrite ?sum_remaining_cons; cbn [lot_remaining_qty set_remaining].
  - repeat split; lia.
  - repeat split; lia.
Qed.

Lemma sell_loop_stop : forall fuel st,
  sell_guard st = false -> loop fuel st = st.
Proof. intros [|fuel] st H; simpl; [|rewrite H]; reflexivity. Qed.

(** The loop has left by the time the fuel is spent. *)
Lemma sell_loop_exits : forall fuel st,
  (List.length (st_lots st) <= fuel)%nat ->
  sell_guard (loop fuel st) = false.
Proof.
  induction fuel as [|fuel IH]; intros st Hlen.
  - simpl. unfold sell_guard. destruct (st_lots st); [|simpl in Hlen; lia].
    apply andb_false_r.
  - simpl. destruct (sell_guard st) eqn:Hg; [|exact Hg].
    destruct (sell_step_spec st Hg) as (_ & _ & _ & _ & [Hlt|Hz]).
    + apply IH. lia.
    + assert (Hg' : sell_guard (step st) = false).
      { unfold sell_guard. rewrite Hz. reflexivity. }
      rewrite sell_loop_stop; assumption.
Qed.

Lemma sell_loop_spec : forall fuel st,
  0 <= st_remaining_sell st ->
  let st' := loop fuel st in
  sum_remaining (st_lots st') - st_remaining_sell st'
    = sum_remaining (st_lots st) - st_remaining_sell st /\
  sum_matched (st_matched_lots st') + st_remaining_sell st'
    = sum_matched (st_matched_lots st) + st_remaining_sell st /\
  sum_matched (st_matched st') + st_remaining_sell st'
    = sum_matched (st_matched st) + st_remaining_sell st /\
  0 <= st_remaining_sell st'.
Proof.
  induction fuel as [|fuel IH]; intros st H0; simpl.
  - repeat split; lia.
  - destruct (sell_guard st) eqn:Hg.
    + destruct (sell_step_spec st Hg) as (A & B & C & D & _).
      destruct (IH (step st) D) as (A' & B' & C' & D').
      repeat split; lia.
    + repeat split; lia.
Qed.


Definition lots_positive (lots : list BuyLot) : Prop :=
  Forall (fun lot => 0 < lot_remaining_qty lot) lots.

Lemma sell_step_positive : forall st,
  sell_guard st = true -> lots_positive (st_lots st) ->
  lots_positive (st_lots (step st)).
Proof.
  intros [lots mls ms rs] Hg Hpos. unfold sell_guard in Hg. simpl in Hg.
  apply andb_true_iff in Hg. destruct Hg as [Hrs _]. apply Z.ltb_lt in Hrs.
  destruct lots as [|lot rest]; [exact Hpos|].
  simpl in Hpos. inversion Hpos as [|? ? Hlot Hrest]; subst. cbv beta in Hlot.
  unfold sell_step; cbn [st_lots st_remaining_sell set_remaining lot_remaining_qty].
  destruct (Z.eqb_spec (lot_remaining_qty lot - Z.min rs (lot_remaining_qty lot)) 0) as [E|E].
  - exact Hrest.
  - constructor; [cbn [lot_remaining_qty set_remaining]; lia | exact Hrest].
Qed.

Lemma sell_loop_positive : forall fuel st,
  lots_positive (st_lots st) -> lots_positive (st_lots (loop fuel st)).
Proof.
  induction fuel as [|fuel IH]; intros st Hpos; simpl; [exact Hpos|].
  destruct (sell_guard st) eqn:Hg; [|exact Hpos].
  apply IH. apply sell_step_positive; assumption.
Qed.

(** A realized-disposal record as the loop body builds it from a lot. *)
Definition built_from (lots : list BuyLot) (m : MatchedLot) : Prop :=
  exit_date m = trade_date /\
  holding_days m = exit_date m - entry_date m /\
  tax_term m = classify (holding_days m) /\
  sell_trade_id m = trade_id /\
  exists lot, In lot lots /\
    entry_date m = lot_trade_date lot /\
    buy_price m = lot_price lot /\
    buy_trade_id m = lot_trade_id lot.

(** The lots of a state are lots of the original queue, up to what remains. *)
Definition drawn_from (lots0 lots : list BuyLot) : Prop :=
  Forall (fun lot => exists lot0, In lot0 lots0 /\
            lot_trade_date lot = lot_trade_date lot0 /\
            lot_price lot = lot_price lot0 /\
            lot_trade_id lot = lot_trade_id lot0) lots.

Lemma drawn_from_refl : forall lots, drawn_from lots lots.
Proof.
  intros lots. apply Forall_forall. intros lot Hin. exists lot. auto.
Qed.

Lemma sell_step_records : forall lots0 st,
  drawn_from lots0 (st_lots st) ->
  Forall (built_from lots0) (st_matched st) ->
  drawn_from lots0 (st_lots (step st)) /\
  Forall (built_from lots0) (st_matched (step st)).
Proof.
  intros lots0 [lots mls ms rs] Hd Hb. simpl in *.
  destruct lots as [|lot rest]; [split; assumption|].
  inversion Hd as [|? ? (lot0 & Hin & Hdate & Hprice & Hid) Hrest]; subst.
  unfold sell_step; cbn [st_lots st_matched st_remaining_sell].
  split.
  - destruct (_ =? 0); [exact Hrest|].
    constructor; [|exact Hrest]. exists lot0. auto.
  - apply Forall_app. split; [exact Hb|].
    constructor; [|constructor].
    unfold built_from; cbn. repeat split.
    exists lot0. auto.
Qed.

Lemma sell_loop_records : forall lots0 fuel st,
  drawn_from lots0 (st_lots st) ->
  Forall (built_from lots0) (st_matched st) ->
  Forall (built_from lots0) (st_matched (loop fuel st)).
Proof.
  intros lots0. induction fuel as [|fuel IH]; intros st Hd Hb; simpl; [exact Hb|].
  destruct (sell_guard st); [|exact Hb].
  destruct (sell_step_records lots0 st Hd Hb) as [Hd' Hb'].
  apply IH; assumption.
Qed.

(** A sell within the holdings goes through and takes exactly its quantity
    out of the queue. *)
Lemma process_sell_ok : forall self qty,
  0 <= qty -> qty <= get_available_quantity self ->
  exists e' ms,
    process_sell self trade_date qty price trade_id = (e', Return ms) /\
    get_available_quantity e' = get_available_quantity self - qty /\
    total_disposed e' = total_disposed self + qty /\
    sum_matched ms = qty /\
    total_bought e' = total_bought self /\
    total_sold e' = total_sold self + qty /\
    (lots_positive (buy_lots self) -> lots_positive (buy_lots e')) /\
    Forall (built_from (buy_lots self)) ms.
Proof.
  intros self qty H0 Hle. unfold process_sell.
  destruct (Z.ltb_spec (get_available_quantity self) qty) as [Hlt|_]; [lia|].
  set (st0 := mkSellState (buy_lots self) (matched_lots self) [] qty).
  set (st := sell_loop (List.length (buy_lots self)) trade_date price trade_id st0).
  destruct (sell_loop_spec (List.length (buy_lots self)) st0 H0) as (A & B & C & D).
  fold st in A, B, C, D. cbn [st0 st_lots st_matched_lots st_matched st_remaining_sell] in A, B, C.
  assert (Hexit : sell_guard st = false).
  { apply sell_loop_exits. cbn. lia. }
  assert (Hz : st_remaining_sell st = 0).
  { unfold sell_guard in Hexit. apply andb_false_iff in Hexit.
    destruct Hexit as [Hexit|Hexit].
    - apply Z.ltb_ge in Hexit. lia.
    - destruct (st_lots st) eqn:El; [|discriminate].
      cbn [sum_remaining fold_right] in A.
      change (fold_right _ 0 (buy_lots self)) with (get_available_quantity self) in A.
      unfold get_available_quantity in Hle. unfold sum_remaining in A. lia. }
  exists (mkEngine (st_lots st) (st_matched_lots st) (total_bought self)
                   (total_sold self + qty)), (st_matched st).
  unfold get_available_quantity, total_disposed; cbn [buy_lots matched_lots total_bought total_sold].
  unfold sum_remaining, sum_matched in *. cbn [fold_right] in C.
  repeat split; try lia.
  - intros Hpos. apply sell_loop_positive. exact Hpos.
  - apply sell_loop_records; [apply drawn_from_refl | constructor].
Qed.

(** A sell beyond the holdings raises and leaves the engine as it was. *)
Lemma process_sell_raises : forall self qty,
  get_available_quantity self < qty ->
  process_sell self trade_date qty price trade_id = (self, Raise ValueError).
Proof.
  intros self qty H. unfold process_sell.
  destruct (Z.ltb_spec (get_available_quantity self) qty); [reflexivity|lia].
Qed.

End FifoFacts.

(** ** The lot engine over a sequence of transactions *)

Section EngineRuns.

Import Fifo.

(** Total quantity of the transactions of one direction. *)
Fixpoint bought (ts : list Txn) : Z :=
  match ts with
  | [] => 0
  | t :: ts' => match txn_type t with
                | Buy => txn_quantity t + bought ts'
                | Sell => bought ts'
                end
  end.

Fixpoint sold (ts : list Txn) : Z :=
  match ts with
  | [] => 0
  | t :: ts' => match txn_type t with
                | Buy => sold ts'
                | Sell => txn_quantity t + sold ts'
                end
  end.

(** What every engine reached by valid calls satisfies. *)
Definition engine_inv (e : FIFOEngine) : Prop :=
  lots_positive (buy_lots e) /\
  get_available_quantity e = total_bought e - total_sold e /\
  total_disposed e = total_sold e.

Lemma engine_inv_init : engine_inv init.
Proof. repeat split. constructor. Qed.

Lemma lots_positive_available : forall e,
  lots_positive (buy_lots e) -> 0 <= get_available_quantity e.
Proof.
  intros e H. unfold get_available_quantity.
  induction H as [|lot lots Hlot _ IH]; simpl; lia.
Qed.

Lemma process_buy_inv : forall e d q p id dt oid,
  0 < q -> engine_inv e ->
  let e' := fst (process_buy e d q p id dt oid) in
  engine_inv e' /\ total_bought e' = total_bought e + q /\
  total_sold e' = total_sold e.
Proof.
  intros e d q p id dt oid Hq (Hpos & Hav & Hdis). cbn.
  unfold engine_inv, get_available_quantity, total_disposed in *.
  cbn [buy_lots matched_lots total_bought total_sold].
  change (fold_right _ 0 (buy_lots e ++ _))
    with (sum_remaining (buy_lots e ++ [mkBuyLot d dt q p q id oid])).
  rewrite sum_remaining_app. unfold sum_remaining at 1. cbn.
  repeat split; try lia.
  apply Forall_app. split; [exact Hpos|]. constructor; [exact Hq|constructor].
Qed.

Lemma apply_txn_inv : forall e t,
  engine_inv e -> 0 < txn_quantity t ->
  (txn_type t = Sell -> txn_quantity t <= get_available_quantity e) ->
  exists e', apply_txn e t = Return e' /\ engine_inv e' /\
    total_bought e' = total_bought e + bought [t] /\
    total_sold e' = total_sold e + sold [t].
Proof.
  intros e t Hinv Hq Hsell. unfold apply_txn. cbn [bought sold].
  destruct (txn_type t) eqn:Ety.
  - eexists. split; [reflexivity|].
    destruct (process_buy_inv e (txn_date t) (txn_quantity t) (txn_price t)
                (txn_id t) (txn_datetime t) None Hq Hinv) as (A & B & C).
    repeat split; try apply A; lia.
  - destruct Hinv as (Hpos & Hav & Hdis).
    destruct (process_sell_ok (txn_date t) (txn_price t) (txn_id t) e (txn_quantity t))
      as (e' & ms & Heq & A & B & _ & C & D & E & _); [lia | auto |].
    rewrite Heq. exists e'. split; [reflexivity|].
    unfold engine_inv. repeat split; auto; lia.
Qed.

Lemma run_inv : forall ts e,
  engine_inv e -> valid_sequence e ts ->
  exists e', run e ts = Return e' /\ engine_inv e' /\
    total_bought e' = total_bought e + bought ts /\
    total_sold e' = total_sold e + sold ts.
Proof.
  induction ts as [|t ts IH]; intros e Hinv Hvalid.
  - exists e. cbn. repeat split; try apply Hinv; lia.
  - destruct Hvalid as (Hq & Hsell & Hnext).
    destruct (apply_txn_inv e t Hinv Hq Hsell) as (e1 & Heq & Hinv1 & Hb & Hs).
    destruct (IH e1 Hinv1 (Hnext e1 Heq)) as (e' & Hrun & Hinv' & Hb' & Hs').
    exists e'. cbn [run]. rewrite Heq. split; [exact Hrun|]. split; [exact Hinv'|].
    cbn [bought sold] in *. destruct (txn_type t); lia.
Qed.

End EngineRuns.

(** ** Properties of the lot engine *)

Section EngineProperties.

Import Fifo.

(** The transactions of the worked example: two purchases and one sale. *)
Definition example_buy_1 : Txn := mkTxn Buy 0 None 100 50%Q "T001".
Definition example_buy_2 : Txn := mkTxn Buy 30 None 50 55%Q "T002".
Definition example_sell : Txn := mkTxn Sell 400 None 120 60%Q "T003".

Definition example_txns : list Txn := [example_buy_1; example_buy_2; example_sell].

Lemma example_txns_valid : valid_sequence init example_txns.
Proof.
  cbn [valid_sequence example_txns]. split; [reflexivity|]. split; [discriminate|].
  intros e1 H1. vm_compute in H1. injection H1 as <-.
  split; [reflexivity|]. split; [discriminate|].
  intros e2 H2. vm_compute in H2. injection H2 as <-.
  split; [reflexivity|]. split; [intros _; vm_compute; discriminate|].
  intros e3 _. exact I.
Defined.

(** C1, as stated, fails: after buying 100 and 50 and selling 120 the engine
    holds 30 units, while total bought minus total sold minus total disposed
    is 150 - 120 - 120 = -90, the disposed quantity being the sold quantity
    counted a second time. *)
Lemma available_quantity_double_count :
  valid_sequence init example_txns /\
  exists e, run init example_txns = Return e /\
    get_available_quantity e = 30 /\
    total_bought e - total_sold e - total_disposed e = -90.
Proof.
  split; [exact example_txns_valid|].
  eexists. split; [vm_compute; reflexivity|]. split; reflexivity.
Qed.

(** C1, amended: for every valid transaction sequence the engine accepts
    every call, its available quantity equals total bought minus total sold,
    the total matched (disposed) quantity is that same total sold, and the
    available quantity is not negative. *)
Theorem available_quantity_balance : forall ts,
  valid_sequence init ts ->
  exists e, run init ts = Return e /\
    total_bought e = bought ts /\
    total_sold e = sold ts /\
    total_disposed e = sold ts /\
    get_available_quantity e = bought ts - sold ts /\
    0 <= get_available_quantity e.
Proof.
  intros ts Hvalid.
  destruct (run_inv ts init engine_inv_init Hvalid)
    as (e & Hrun & (Hpos & Hav & Hdis) & Hb & Hs).
  cbn [total_bought total_sold init] in Hb, Hs.
  exists e. repeat split; try lia; try assumption.
  apply lots_positive_available. exact Hpos.
Qed.

Lemma available_quantity_balance_witness :
  valid_sequence init example_txns /\
  exists e, run init example_txns = Return e /\
    total_bought e = bought example_txns /\
    total_sold e = sold example_txns /\
    total_disposed e = sold example_txns /\
    get_available_quantity e = bought example_txns - sold example_txns /\
    0 <= get_available_quantity e.
Proof.
  split; [exact example_txns_valid|].
  apply (available_quantity_balance example_txns). exact example_txns_valid.
Defined.

(** C2: [process_sell] raises exactly when the requested quantity exceeds
    the sum of the remaining quantities of the queued lots; the only thing
    it raises is ValueError, and a raising call returns the engine (queue,
    matched records and totals) as it received it. *)
Theorem process_sell_insufficient_holdings :
  forall self trade_date qty price trade_id,
    (snd (process_sell self trade_date qty price trade_id) = Raise ValueError
       <-> sum_remaining (buy_lots self) < qty) /\
    (forall x, snd (process_sell self trade_date qty price trade_id) = Raise x ->
       x = ValueError /\
       fst (process_sell self trade_date qty price trade_id) = self).
Proof.
  intros self trade_date qty price trade_id.
  change (sum_remaining (buy_lots self)) with (get_available_quantity self).
  unfold process_sell.
  destruct (Z.ltb_spec (get_available_quantity self) qty) as [Hlt|Hge]; cbn [fst snd].
  - split; [split; auto|]. intros x Hx. injection Hx as <-. auto.
  - split; [split; [discriminate|lia]|]. intros x Hx. discriminate.
Qed.

(** C4: buying 100 at 50 on day 0 and 50 at 55 on day 30, then selling 120
    at 60 on day 400, yields exactly two realized-disposal records, 100
    units bought at 50 held 400 days and 20 units bought at 55 held 370
    days, both long-term, and leaves 30 units at 55. *)
Theorem fifo_worked_example :
  exists e1 e2 e3 ms,
    apply_txn init example_buy_1 = Return e1 /\
    apply_txn e1 example_buy_2 = Return e2 /\
    process_sell e2 400 120 60%Q "T003" = (e3, Return ms) /\
    map (fun m => (quantity m, buy_price m, holding_days m, tax_term m)) ms
      = [(100, 50%Q, 400, LTCG); (20, 55%Q, 370, LTCG)] /\
    matched_lots e3 = ms /\
    map (fun lot => (lot_remaining_qty lot, lot_price lot))
        (get_current_holdings_as_lots e3) = [(30, 55%Q)] /\
    get_available_quantity e3 = 30.
Proof.
  do 4 eexists.
  split; [vm_compute; reflexivity|].
  split; [vm_compute; reflexivity|].
  split; [vm_compute; reflexivity|].
  repeat split.
Qed.

(** C5: every record a disposal produces is classified long-term exactly
    when its holding period, the days from the purchase date of the lot it
    was matched against to the sale date, exceeds 365; at exactly 365 days
    it is short-term and at 366 days long-term. *)
Theorem tax_term_threshold :
  forall self trade_date qty price trade_id e' ms m,
    process_sell self trade_date qty price trade_id = (e', Return ms) ->
    In m ms ->
    (exists lot, In lot (buy_lots self) /\
       entry_date m = lot_trade_date lot /\
       holding_days m = trade_date - lot_trade_date lot) /\
    (tax_term m = LTCG <-> 365 < holding_days m) /\
    (tax_term m = STCG <-> holding_days m <= 365) /\
    (holding_days m = 365 -> tax_term m = STCG) /\
    (holding_days m = 366 -> tax_term m = LTCG).
Proof.
  intros self trade_date qty price trade_id e' ms m Hsell Hin.
  unfold process_sell in Hsell.
  destruct (get_available_quantity self <? qty); [discriminate|].
  injection Hsell as _ Hms.
  assert (Hb : Forall (built_from trade_date trade_id (buy_lots self)) ms).
  { rewrite <- Hms. apply sell_loop_records; [apply drawn_from_refl|constructor]. }
  rewrite Forall_forall in Hb.
  destruct (Hb m Hin) as (Hexit & Hdays & Hterm & _ & lot & Hlot & Hentry & _).
  split.
  - exists lot. repeat split; auto. rewrite Hdays, Hexit, Hentry. reflexivity.
  - rewrite Hterm. unfold classify.
    destruct (Z.ltb_spec 365 (holding_days m)); repeat split;
      intros; try discriminate; try lia; reflexivity.
Qed.

(** A lot bought on day 0 and sold on day 365. *)
Definition one_year_engine : FIFOEngine :=
  fst (process_buy init 0 10 100%Q "B1" None None).

(** The record of that sale, one year to the day after the purchase. *)
Definition one_year_record : MatchedLot :=
  mkMatchedLot 0 365 10 100%Q 120%Q 1000%Q 1200%Q 200%Q 365 STCG "B1" "S1".

Definition one_year_sold : FIFOEngine :=
  mkEngine [] [one_year_record] 10 10.

Lemma tax_term_threshold_witness :
  process_sell one_year_engine 365 10 120%Q "S1"
    = (one_year_sold, Return [one_year_record]) /\
  In one_year_record [one_year_record] /\
  (exists lot, In lot (buy_lots one_year_engine) /\
     entry_date one_year_record = lot_trade_date lot /\
     holding_days one_year_record = 365 - lot_trade_date lot) /\
  (tax_term one_year_record = LTCG <-> 365 < holding_days one_year_record) /\
  (tax_term one_year_record = STCG <-> holding_days one_year_record <= 365) /\
  (holding_days one_year_record = 365 -> tax_term one_year_record = STCG) /\
  (holding_days one_year_record = 366 -> tax_term one_year_record = LTCG).
Proof.
  assert (H1 : process_sell one_year_engine 365 10 120%Q "S1"
               = (one_year_sold, Return [one_year_record]))
    by (vm_compute; reflexivity).
  assert (H2 : In one_year_record [one_year_record]) by (left; reflexivity).
  split; [exact H1|]. split; [exact H2|].
  exact (tax_term_threshold one_year_engine 365 10 120%Q "S1" one_year_sold
           [one_year_record] one_year_record H1 H2).
Defined.

End EngineProperties.

(** ** Sorting facts *)

Section SortingFacts.

Context {A : Type} (le : A -> A -> bool).

Lemma insert_by_perm : forall x l, Permutation (insert_by le x l) (x :: l).
Proof.
  intros x l. induction l as [|y l IH]; cbn.
  - apply Permutation_refl.
  - destruct (le x y).
    + apply Permutation_refl.
    + apply perm_trans with (y :: x :: l).
      * apply perm_skip. exact IH.
      * apply perm_swap.
Qed.

Lemma sort_by_perm : forall l, Permutation (sort_by le l) l.
Proof.
  induction l as [|x l IH]; cbn.
  - apply perm_nil.
  - apply perm_trans with (x :: sort_by le l).
    + apply insert_by_perm.
    + apply perm_skip. exact IH.
Qed.

Hypothesis le_total : forall x y, le x y = true \/ le y x = true.
Hypothesis le_trans : forall x y z, le x y = true -> le y z = true -> le x z = true.

Lemma insert_by_sorted : forall x l,
  StronglySorted (fun a b => le a b = true) l ->
  StronglySorted (fun a b => le a b = true) (insert_by le x l).
Proof.
  intros x l Hs. induction Hs as [|y l Hs IH Hy]; cbn.
  - constructor; constructor.
  - destruct (le x y) eqn:E.
    + constructor; [constructor; assumption|].
      constructor; [exact E|].
      rewrite Forall_forall in Hy |- *. intros z Hz. eapply le_trans; eauto.
    + constructor; [exact IH|].
      assert (Hyx : le y x = true) by (destruct (le_total x y); congruence).
      rewrite Forall_forall in Hy |- *. intros z Hz.
      apply (Permutation_in _ (insert_by_perm x l)) in Hz.
      destruct Hz as [<-|Hz]; auto.
Qed.

Lemma sort_by_sorted : forall l,
  StronglySorted (fun a b => le a b = true) (sort_by le l).
Proof.
  induction l as [|x l IH]; cbn; [constructor|]. apply insert_by_sorted. exact IH.
Qed.

End SortingFacts.

(** ** Facts about the allocation table *)

Section LedgerFacts.

Import Models Alloc.

Variable self : AllocationManager.

(** SUM(quantity) over the rows of the manager's (stock, account). *)
Definition sum_own (rows : list Allocation) : Z :=
  fold_right (fun a acc => al_quantity a + acc) 0 (filter (own_row self) rows).

Definition sum_quantity (rows : list Allocation) : Z :=
  fold_right (fun a acc => al_quantity a + acc) 0 rows.

Lemma sum_quantity_perm : forall l l',
  Permutation l l' -> sum_quantity l = sum_quantity l'.
Proof. intros l l' H. unfold sum_quantity. induction H; cbn in *; lia. Qed.

Lemma sum_own_cons : forall a rows,
  sum_own (a :: rows) = (if own_row self a then al_quantity a else 0) + sum_own rows.
Proof. intros a rows. unfold sum_own. cbn. destruct (own_row self a); cbn; lia. Qed.


Lemma remove_absent : forall rows i,
  ~ In i (map al_id rows) -> remove rows i = rows.
Proof.
  induction rows as [|r rows IH]; intros i Hni; [reflexivity|].
  cbn in *. destruct (Z.eqb_spec (al_id r) i) as [E|E].
  - exfalso. apply Hni. left. exact E.
  - cbn. f_equal. apply IH. intros H. apply Hni. right. exact H.
Qed.

Lemma store_absent : forall rows a,
  ~ In (al_id a) (map al_id rows) -> store rows a = rows.
Proof.
  induction rows as [|r rows IH]; intros a Hni; [reflexivity|].
  cbn in *. destruct (Z.eqb_spec (al_id r) (al_id a)) as [E|E].
  - exfalso. apply Hni. left. exact E.
  - f_equal. apply IH. intros H. apply Hni. right. exact H.
Qed.

Lemma in_id : forall (a : Allocation) rows, In a rows -> In (al_id a) (map al_id rows).
Proof. intros a rows H. apply in_map. exact H. Qed.

(** Deleting a row of the pair takes its quantity out of the sum. *)
Lemma remove_sum : forall rows a,
  NoDup (map al_id rows) -> In a rows ->
  sum_own (remove rows (al_id a))
    = sum_own rows - (if own_row self a then al_quantity a else 0) /\
  Z.of_nat (List.length (remove rows (al_id a))) = Z.of_nat (List.length rows) - 1.
Proof.
  induction rows as [|r rows IH]; intros a Hnd Hin; [contradiction|].
  cbn [map] in Hnd. inversion Hnd as [|? ? Hnotin Hnd']; subst.
  cbn [remove filter]. fold (remove rows (al_id a)).
  destruct (Z.eqb_spec (al_id r) (al_id a)) as [E|E]; cbn [negb].
  - assert (a = r).
    { destruct Hin as [H|H]; [auto|]. exfalso. apply Hnotin. rewrite E.
      apply in_id. exact H. }
    subst a. rewrite remove_absent by exact Hnotin.
    rewrite sum_own_cons. cbn [List.length]. lia.
  - destruct Hin as [H|H]; [congruence|].
    destruct (IH a Hnd' H) as [IH1 IH2].
    rewrite !sum_own_cons, IH1. cbn [List.length]. lia.
Qed.

(** Writing back a changed row under the same key and the same pair. *)
Lemma store_sum : forall rows a a',
  NoDup (map al_id rows) -> In a rows ->
  al_id a' = al_id a -> own_row self a' = own_row self a ->
  sum_own (store rows a')
    = sum_own rows - (if own_row self a then al_quantity a - al_quantity a' else 0) /\
  List.length (store rows a') = List.length rows.
Proof.
  induction rows as [|r rows IH]; intros a a' Hnd Hin Hid Hown; [contradiction|].
  cbn [map] in Hnd. inversion Hnd as [|? ? Hnotin Hnd']; subst.
  cbn [store map]. fold (store rows a'). rewrite Hid.
  destruct (Z.eqb_spec (al_id r) (al_id a)) as [E|E].
  - assert (a = r).
    { destruct Hin as [H|H]; [auto|]. exfalso. apply Hnotin. rewrite E.
      apply in_id. exact H. }
    subst a. rewrite store_absent by (rewrite Hid; exact Hnotin).
    rewrite !sum_own_cons, Hown. cbn [List.length].
    destruct (own_row self r); split; lia.
  - destruct Hin as [H|H]; [congruence|].
    destruct (IH a a' Hnd' H Hid Hown) as [IH1 IH2].
    rewrite !sum_own_cons, IH1. cbn [List.length]. rewrite IH2. split; lia.
Qed.

Lemma store_ids : forall rows a, map al_id (store rows a) = map al_id rows.
Proof.
  induction rows as [|r rows IH]; intros a; [reflexivity|].
  cbn [store map]. fold (store rows a). rewrite IH.
  destruct (Z.eqb_spec (al_id r) (al_id a)) as [E|E]; congruence.
Qed.

Definition quantities_positive (rows : list Allocation) : Prop :=
  Forall (fun a => 0 < al_quantity a) rows.

Lemma store_positive : forall rows a,
  quantities_positive rows -> 0 < al_quantity a ->
  quantities_positive (store rows a).
Proof.
  intros rows a Hrows Ha. unfold quantities_positive, store in *.
  rewrite Forall_forall in *. intros x Hx. apply in_map_iff in Hx.
  destruct Hx as (r & <- & Hr). destruct (al_id r =? al_id a); auto.
Qed.

Lemma remove_positive : forall rows i,
  quantities_positive rows -> quantities_positive (remove rows i).
Proof.
  intros rows i H. unfold quantities_positive, remove in *.
  rewrite Forall_forall in *. intros x Hx. apply filter_In in Hx. apply H, Hx.
Qed.

Lemma remove_ids : forall rows i,
  NoDup (map al_id rows) -> NoDup (map al_id (remove rows i)).
Proof.
  induction rows as [|r rows IH]; intros i Hnd; [constructor|].
  cbn [map] in Hnd. inversion Hnd as [|? ? Hnotin Hnd']; subst.
  cbn [remove filter]. fold (remove rows i).
  destruct (negb (al_id r =? i)); [|apply IH; exact Hnd'].
  cbn [map]. constructor; [|apply IH; exact Hnd'].
  intros H. apply Hnotin. apply in_map_iff in H. destruct H as (x & Hx & Hin).
  unfold remove in Hin. apply filter_In in Hin. rewrite <- Hx. apply in_id. apply Hin.
Qed.

Lemma remove_keeps : forall rows i a,
  In a rows -> al_id a <> i -> In a (remove rows i).
Proof.
  intros rows i a Hin Hne. unfold remove. apply filter_In. split; [exact Hin|].
  destruct (Z.eqb_spec (al_id a) i); [contradiction|reflexivity].
Qed.

(** Once the excess is absorbed the loop leaves at its next test. *)
Lemma sync_loop_done : forall l rows adj del,
  sync_loop l rows 0 adj del = (rows, 0, adj, del).
Proof. intros [|a l] rows adj del; reflexivity. Qed.

Lemma sync_loop_spec : forall l rows ex adj del,
  0 <= ex ->
  NoDup (map al_id rows) -> NoDup (map al_id l) ->
  (forall a, In a l -> In a rows /\ own_row self a = true) ->
  forall rows' ex' adj' del',
    sync_loop l rows ex adj del = (rows', ex', adj', del') ->
    sum_own rows' = sum_own rows - (ex - ex') /\
    (ex' = 0 \/ ex' = ex - sum_quantity l) /\
    0 <= ex' /\
    Z.of_nat (List.length rows') = Z.of_nat (List.length rows) - (del' - del) /\
    del <= del' /\ adj <= adj' <= adj + 1 /\
    NoDup (map al_id rows') /\
    (quantities_positive rows -> quantities_positive rows').
Proof.
  induction l as [|a l IH]; intros rows ex adj del Hex Hnd Hndl Hin rows' ex' adj' del' Heq.
  - cbn in Heq. injection Heq as <- <- <- <-. cbn. repeat split; auto; lia.
  - cbn [sync_loop] in Heq.
    destruct (Z.leb_spec ex 0) as [Hle|Hgt].
    + injection Heq as <- <- <- <-. repeat split; auto; lia.
    + destruct (Hin a (or_introl eq_refl)) as [Harows Hown].
      cbn [map] in Hndl. inversion Hndl as [|? ? Hanotin Hndl']; subst.
      destruct (Z.leb_spec (al_quantity a) ex) as [Hq|Hq].
      * destruct (remove_sum rows a Hnd Harows) as [Hsum Hlen].
        rewrite Hown in Hsum.
        assert (Hin' : forall b, In b l -> In b (remove rows (al_id a)) /\ own_row self b = true).
        { intros b Hb. destruct (Hin b (or_intror Hb)) as [Hbrows Hbown].
          split; [|exact Hbown]. apply remove_keeps; [exact Hbrows|].
          intros E. apply Hanotin. rewrite <- E. apply in_id. exact Hb. }
        destruct (IH (remove rows (al_id a)) (ex - al_quantity a) adj (del + 1)
                     ltac:(lia) (remove_ids rows (al_id a) Hnd) Hndl' Hin'
                     rows' ex' adj' del' Heq) as (A & B & C & D & E & F & G & H).
        cbn [sum_quantity fold_right]. fold (sum_quantity l).
        repeat split; try lia; auto.
        intros Hp. apply H. apply remove_positive. exact Hp.
      * rewrite sync_loop_done in Heq. injection Heq as <- <- <- <-.
        destruct (store_sum rows a (set_quantity a (al_quantity a - ex)) Hnd Harows
                    eq_refl eq_refl) as [Hsum Hlen].
        rewrite Hown in Hsum. cbn [al_quantity set_quantity] in Hsum. rewrite Hlen.
        repeat split; try lia.
        -- rewrite store_ids. exact Hnd.
        -- intros Hp. apply store_positive; [exact Hp|]. cbn. lia.
Qed.

End LedgerFacts.

(** ** The rebuild of the engine from the stored trades *)

Section RebuildFacts.

Import Models Alloc.

(** A turn of the replay never raises: the only exception of
    [process_sell] is the ValueError the loop passes over. *)
Lemma replay_trade_total : forall engine trade,
  exists engine', replay_trade engine trade = Return engine'.
Proof.
  intros engine trade. unfold replay_trade.
  destruct (tr_trade_type trade).
  - eexists. reflexivity.
  - unfold Fifo.process_sell.
    destruct (Fifo.get_available_quantity engine <? tr_quantity trade);
      eexists; reflexivity.
Qed.

Lemma replay_total : forall ts engine,
  exists engine', replay engine ts = Return engine'.
Proof.
  induction ts as [|t ts IH]; intros engine; cbn [replay].
  - exists engine. reflexivity.
  - destruct (replay_trade_total engine t) as [e1 ->]. apply IH.
Qed.

Lemma replay_app : forall ts1 ts2 engine e1,
  replay engine ts1 = Return e1 ->
  replay engine (ts1 ++ ts2) = replay e1 ts2.
Proof.
  induction ts1 as [|t ts1 IH]; intros ts2 engine e1 H; cbn [replay app] in *.
  - injection H as ->. reflexivity.
  - destruct (replay_trade engine t) as [e|x]; [|discriminate].
    apply IH. exact H.
Qed.

Lemma replay_trade_positive : forall engine trade engine',
  0 < tr_quantity trade ->
  lots_positive (Fifo.buy_lots engine) ->
  replay_trade engine trade = Return engine' ->
  lots_positive (Fifo.buy_lots engine').
Proof.
  intros engine trade engine' Hq Hpos H. unfold replay_trade in H.
  destruct (tr_trade_type trade).
  - injection H as <-. cbn. apply Forall_app. split; [exact Hpos|].
    constructor; [exact Hq|constructor].
  - unfold Fifo.process_sell in H.
    destruct (Fifo.get_available_quantity engine <? tr_quantity trade).
    + injection H as <-. exact Hpos.
    + injection H as <-. cbn. apply sell_loop_positive. exact Hpos.
Qed.

Lemma replay_positive : forall ts engine engine',
  Forall (fun t => 0 < tr_quantity t) ts ->
  lots_positive (Fifo.buy_lots engine) ->
  replay engine ts = Return engine' ->
  lots_positive (Fifo.buy_lots engine').
Proof.
  induction ts as [|t ts IH]; intros engine engine' Hall Hpos H; cbn [replay] in H.
  - injection H as <-. exact Hpos.
  - inversion Hall as [|? ? Ht Hts]; subst.
    destruct (replay_trade engine t) as [e1|x] eqn:E; [|discriminate].
    apply (IH e1 engine' Hts); [|exact H].
    apply (replay_trade_positive engine t e1 Ht Hpos E).
Qed.

(** CHECK (quantity > 0) on the trades table. *)
Definition trades_checked (db : Database) : Prop :=
  Forall (fun t => 0 < tr_quantity t) (trades db).

(** The primary key of the allocations table. *)
Definition allocations_keyed (db : Database) : Prop :=
  NoDup (map al_id (allocations db)).

Lemma query_trades_checked : forall db self,
  trades_checked db -> Forall (fun t => 0 < tr_quantity t) (query_trades db self).
Proof.
  intros db self H. unfold query_trades. apply Forall_forall. intros t Ht.
  apply (Permutation_in _ (sort_by_perm trade_order _)) in Ht.
  apply filter_In in Ht. destruct Ht as [Ht _].
  unfold trades_checked in H. rewrite Forall_forall in H. apply H. exact Ht.
Qed.

(** The holdings the manager reads always exist, and are not negative when
    the stored trades have positive quantities. *)
Lemma get_total_holdings_total : forall db self,
  exists h, get_total_holdings db self = Return h /\
            (trades_checked db -> 0 <= h).
Proof.
  intros db self. unfold get_total_holdings, _get_fifo_engine.
  destruct (replay_total (query_trades db self) Fifo.init) as [e He].
  rewrite He. eexists. split; [reflexivity|]. intros Hc.
  apply lots_positive_available.
  apply (replay_positive (query_trades db self) Fifo.init e);
    [apply query_trades_checked; exact Hc | constructor | exact He].
Qed.

Lemma get_total_holdings_set_allocations : forall db rows self,
  get_total_holdings (set_allocations db rows) self = get_total_holdings db self.
Proof. reflexivity. Qed.

End RebuildFacts.

(** ** The mutations of the allocation ledger *)

Section LedgerMutations.

Import Models Alloc.

Lemma max_id_bound : forall ids i, In i ids -> i <= fold_right Z.max 0 ids.
Proof.
  induction ids as [|j ids IH]; intros i Hi; [contradiction|].
  cbn [fold_right]. destruct Hi as [->|Hi]; [lia|].
  specialize (IH i Hi). lia.
Qed.

Lemma next_id_fresh : forall ids, ~ In (next_id ids) ids.
Proof.
  intros ids Hin. apply max_id_bound in Hin. unfold next_id in Hin. lia.
Qed.

Lemma filter_keys : forall (f : Allocation -> bool) rows,
  NoDup (map al_id rows) -> NoDup (map al_id (filter f rows)).
Proof.
  induction rows as [|r rows IH]; intros Hnd; [constructor|].
  cbn [map] in Hnd. inversion Hnd as [|? ? Hnotin Hnd']; subst.
  cbn [filter]. destruct (f r); [|apply IH; exact Hnd'].
  cbn [map]. constructor; [|apply IH; exact Hnd'].
  intros H. apply Hnotin. apply in_map_iff in H. destruct H as (x & Hx & Hin).
  apply filter_In in Hin. rewrite <- Hx. apply in_map. apply Hin.
Qed.



Variable self : AllocationManager.
Variable db : Database.
Variable h : Z.
Hypothesis Htrades : trades_checked db.
Hypothesis Hkeyed : allocations_keyed db.
Hypothesis Hpositive : quantities_positive (allocations db).
Hypothesis Hholdings : get_total_holdings db self = Return h.

Lemma holdings_nonneg : 0 <= h.
Proof.
  destruct (get_total_holdings_total db self) as (h' & Hh' & Hnn).
  rewrite Hholdings in Hh'. injection Hh' as <-. apply Hnn. exact Htrades.
Qed.

(** [sync_with_holdings]: nothing to do when the allocations fit, otherwise
    the excess is taken out and the allocations equal the holdings. *)
Lemma sync_with_holdings_spec :
  exists db' res,
    sync_with_holdings db self = (db', Return res) /\
    trades db' = trades db /\
    allocations_keyed db' /\ quantities_positive (allocations db') /\
    get_allocated_units db' self <= h /\
    (get_allocated_units db self <= h -> db' = db /\ res = mkSyncResult 0 0) /\
    (h < get_allocated_units db self ->
       get_allocated_units db' self = h /\
       0 <= adjusted res <= 1 /\
       Z.of_nat (List.length (allocations db'))
         = Z.of_nat (List.length (allocations db)) - deleted res).
Proof.
  unfold sync_with_holdings. rewrite Hholdings.
  destruct (Z.leb_spec (get_allocated_units db self) h) as [Hle|Hgt].
  - exists db, (mkSyncResult 0 0). repeat split; auto; lia.
  - set (l := get_allocations db self).
    destruct (sync_loop l (allocations db) (get_allocated_units db self - h) 0 0)
      as [[[rows' ex'] adj'] del'] eqn:E.
    assert (Hperm : Permutation l (filter (own_row self) (allocations db))).
    { apply sort_by_perm. }
    destruct (sync_loop_spec self l (allocations db)
                (get_allocated_units db self - h) 0 0) with
      (rows' := rows') (ex' := ex') (adj' := adj') (del' := del')
      as (A & B & C & D & F & G & K & L); auto.
    + lia.
    + apply (Permutation_NoDup (Permutation_sym (Permutation_map al_id Hperm))).
      apply filter_keys. exact Hkeyed.
    + intros a Ha. apply (Permutation_in _ Hperm) in Ha.
      apply filter_In in Ha. exact Ha.
    + pose proof holdings_nonneg as Hnn.
      assert (Hsum : sum_quantity l = get_allocated_units db self).
      { rewrite (sum_quantity_perm _ _ Hperm). reflexivity. }
      change (sum_own self (allocations db)) with (get_allocated_units db self) in A.
      exists (set_allocations db rows'), (mkSyncResult adj' del').
      change (get_allocated_units (set_allocations db rows') self)
        with (sum_own self rows').
      cbn [allocations set_allocations adjusted deleted trades].
      repeat split; auto; try lia.
Qed.




End LedgerMutations.

(** ** The order in which [sync_with_holdings] takes allocations *)

Section SyncOrder.

Import Models Alloc.








End SyncOrder.

(** ** Properties of the allocation ledger *)

Section LedgerProperties.

Import Models Alloc.






Definition pair_1_1 : AllocationManager := mkManager 1 1.




(** A pair holding 120 units, none allocated, with owner 1 and goal 1. *)
Definition held_120_db : Database :=
  mkDatabase [mkTrade 1 1 1 Fifo.Buy 1 None 120 50%Q "T1"] [] [1] [1] [].

(** C7: [create_allocation] checks the owner first, then the goal, then the
    quantity against the available units: an unknown owner raises
    InvalidOwnerError whatever the goal and quantity are, a known owner with
    an unknown goal raises InvalidGoalError whatever the quantity is, and a
    quantity above the available units raises InsufficientUnitsError;
    requesting 150 of 120 held units does so.  A call that raises leaves the
    database as it was, so no allocation is created. *)
Theorem create_allocation_validation_order :
  forall db self owner_id goal_id qty,
    (mem_id owner_id (owners db) = false ->
       create_allocation db self owner_id goal_id qty
         = (db, Raise InvalidOwnerError)) /\
    (mem_id owner_id (owners db) = true ->
     mem_id goal_id (goals db) = false ->
       create_allocation db self owner_id goal_id qty
         = (db, Raise InvalidGoalError)) /\
    (mem_id owner_id (owners db) = true ->
     mem_id goal_id (goals db) = true ->
     forall available,
       get_available_units db self = Return available -> available < qty ->
       create_allocation db self owner_id goal_id qty
         = (db, Raise InsufficientUnitsError)) /\
    (forall e,
       snd (create_allocation db self owner_id goal_id qty) = Raise e ->
       fst (create_allocation db self owner_id goal_id qty) = db) /\
    get_available_units held_120_db pair_1_1 = Return 120 /\
    create_allocation held_120_db pair_1_1 1 1 150
      = (held_120_db, Raise InsufficientUnitsError).
Proof.
  intros db self owner_id goal_id qty.
  split; [|split; [|split; [|split; [|split]]]].
  - intros Ho. unfold create_allocation. rewrite Ho. reflexivity.
  - intros Ho Hg. unfold create_allocation. rewrite Ho, Hg. reflexivity.
  - intros Ho Hg available Hav Hlt. unfold create_allocation.
    rewrite Ho, Hg, Hav. cbn [negb].
    destruct (Z.ltb_spec available qty); [reflexivity|lia].
  - intros e. unfold create_allocation.
    destruct (negb (mem_id owner_id (owners db))); [reflexivity|].
    destruct (negb (mem_id goal_id (goals db))); [reflexivity|].
    destruct (get_available_units db self) as [available|x]; [|reflexivity].
    destruct (available <? qty); [reflexivity|].
    destruct (get_weighted_average_price db self qty) as [[avg [d|]]|x];
      try reflexivity.
    destruct (qty <=? 0); [reflexivity|]. cbn [snd]. discriminate.
  - vm_compute. reflexivity.
  - vm_compute. reflexivity.
Qed.

(** C10: in the rebuild of the engine from the stored trades, a sell larger
    than what is available when it is replayed is passed over: the engine
    is as before it, the rebuild returns, and the result, holdings included,
    is that of the history without that sell. *)
Theorem oversized_sell_skipped : forall db self ts1 t ts2 e1,
  query_trades db self = ts1 ++ t :: ts2 ->
  replay Fifo.init ts1 = Return e1 ->
  tr_trade_type t = Fifo.Sell ->
  Fifo.get_available_quantity e1 < tr_quantity t ->
  replay_trade e1 t = Return e1 /\
  _get_fifo_engine db self = replay Fifo.init (ts1 ++ ts2) /\
  exists e, _get_fifo_engine db self = Return e /\
            get_total_holdings db self = Return (Fifo.get_available_quantity e).
Proof.
  intros db self ts1 t ts2 e1 Hq H1 Hsell Hlt.
  assert (Hskip : replay_trade e1 t = Return e1).
  { unfold replay_trade. rewrite Hsell.
    rewrite (process_sell_raises _ _ _ e1 (tr_quantity t) Hlt). reflexivity. }
  assert (Hsame : _get_fifo_engine db self = replay Fifo.init (ts1 ++ ts2)).
  { unfold _get_fifo_engine. rewrite Hq.
    rewrite (replay_app ts1 (t :: ts2) Fifo.init e1 H1).
    rewrite (replay_app ts1 ts2 Fifo.init e1 H1).
    cbn [replay]. rewrite Hskip. reflexivity. }
  split; [exact Hskip|]. split; [exact Hsame|].
  destruct (replay_total (ts1 ++ ts2) Fifo.init) as [e He].
  exists e. unfold get_total_holdings. rewrite Hsame, He. split; reflexivity.
Qed.

(** Ten units bought, fifteen sold, five bought. *)
Definition oversold_buy_1 : Trade := mkTrade 1 1 1 Fifo.Buy 1 None 10 50%Q "T1".
Definition oversold_sell : Trade := mkTrade 2 1 1 Fifo.Sell 2 None 15 60%Q "T2".
Definition oversold_buy_2 : Trade := mkTrade 3 1 1 Fifo.Buy 3 None 5 55%Q "T3".

Definition oversold_db : Database :=
  mkDatabase [oversold_buy_1; oversold_sell; oversold_buy_2] [] [1] [1] [].

Definition after_first_buy : Fifo.FIFOEngine :=
  fst (Fifo.process_buy Fifo.init 1 10 50%Q "T1" None None).

Lemma oversized_sell_skipped_witness :
  query_trades oversold_db pair_1_1 = [oversold_buy_1] ++ oversold_sell :: [oversold_buy_2] /\
  replay Fifo.init [oversold_buy_1] = Return after_first_buy /\
  tr_trade_type oversold_sell = Fifo.Sell /\
  Fifo.get_available_quantity after_first_buy < tr_quantity oversold_sell /\
  replay_trade after_first_buy oversold_sell = Return after_first_buy /\
  _get_fifo_engine oversold_db pair_1_1
    = replay Fifo.init ([oversold_buy_1] ++ [oversold_buy_2]) /\
  exists e, _get_fifo_engine oversold_db pair_1_1 = Return e /\
            get_total_holdings oversold_db pair_1_1
              = Return (Fifo.get_available_quantity e).
Proof.
  assert (Hq : query_trades oversold_db pair_1_1
               = [oversold_buy_1] ++ oversold_sell :: [oversold_buy_2])
    by reflexivity.
  assert (H1 : replay Fifo.init [oversold_buy_1] = Return after_first_buy)
    by reflexivity.
  assert (Hs : tr_trade_type oversold_sell = Fifo.Sell) by reflexivity.
  assert (Hlt : Fifo.get_available_quantity after_first_buy < tr_quantity oversold_sell)
    by reflexivity.
  split; [exact Hq|]. split; [exact H1|]. split; [exact Hs|]. split; [exact Hlt|].
  exact (oversized_sell_skipped oversold_db pair_1_1 [oversold_buy_1] oversold_sell
           [oversold_buy_2] after_first_buy Hq H1 Hs Hlt).
Defined.

End LedgerProperties.

(** ** Properties of the corporate-action service *)

Section SplitAdjustment.

Import Models CorpActions.

Lemma Qred_inject_Z : forall z, Qred (inject_Z z) = inject_Z z.
Proof. intros z. apply Qcanon.Qred_identity. cbn. apply Z.gcd_1_r. Qed.

(** Integers below 2^53 are floats. *)
Lemma flt_int_exact : forall z, Z.abs z < 2 ^ 53 -> Flt.rnd (inject_Z z) = inject_Z z.
Proof.
  intros z Hz. unfold Flt.rnd.
  rewrite (round_sig_exact 2 53 z 0 (inject_Z z)); try lia.
  - apply Qred_inject_Z.
  - reflexivity.
Qed.

Lemma flt_to_int_inject : forall z, Flt.to_int (inject_Z z) = z.
Proof. intros z. unfold Flt.to_int. cbn. apply Z.quot_1_r. Qed.

Lemma table_ratio_facts : forall r,
  In r COMMON_SPLIT_RATIOS ->
  2 <= r <= 100 /\ Flt.str (inject_Z r) = inject_Z r.
Proof.
  intros r Hin. unfold COMMON_SPLIT_RATIOS in Hin. cbn [In] in Hin.
  repeat (destruct Hin as [<-|Hin]; [split; [lia | vm_compute; reflexivity]|]).
  contradiction.
Qed.

(** The adjustment for one detected split 1 : r taken before its record
    date: the quantity times r, the price divided by r in Decimal. *)
Lemma apply_detected_split : forall qty price buy_date s record_date,
  detected_split s ->
  ca_record_date s = Some record_date ->
  buy_date < record_date ->
  Z.abs (qty * ca_ratio_to s) < 2 ^ 53 ->
  apply_split buy_date (qty, price) s
    = Return (qty * ca_ratio_to s, Dec.div price (inject_Z (ca_ratio_to s))).
Proof.
  intros qty price buy_date s record_date (_ & Hfrom & Hto) Hrd Hlt Hsmall.
  destruct (table_ratio_facts _ Hto) as [Hr Hstr].
  set (r := ca_ratio_to s) in *.
  unfold apply_split. rewrite Hrd, Hfrom. fold r.
  destruct (Z.ltb_spec buy_date record_date); [|lia].
  cbn [Z.eqb].
  assert (Hratio : Flt.rnd (inject_Z r / inject_Z 1) = inject_Z r).
  { unfold Flt.rnd.
    rewrite (round_sig_proper 2 53 (inject_Z r / inject_Z 1) (inject_Z r)).
    - apply flt_int_exact. lia.
    - unfold Qeq, Qdiv, Qmult, Qinv. cbn. lia. }
  rewrite Hratio, Hstr.
  assert (Hqty : Flt.of_int qty = inject_Z qty).
  { apply flt_int_exact. nia. }
  assert (Hmul : Flt.mul (Flt.of_int qty) (inject_Z r) = inject_Z (qty * r)).
  { rewrite Hqty. unfold Flt.mul, Flt.rnd.
    rewrite (round_sig_proper 2 53 (inject_Z qty * inject_Z r) (inject_Z (qty * r))).
    - apply flt_int_exact. exact Hsmall.
    - rewrite inject_Z_mult. reflexivity. }
  rewrite Hmul, flt_to_int_inject.
  destruct (Qeq_bool (inject_Z r) 0) eqn:E; [|reflexivity].
  apply Qeq_bool_eq in E. unfold Qeq in E. cbn in E. lia.
Qed.

(** The quotient by a ratio that divides 100 is exact for a price
    c / 10^k whose digits, with the two the division can add, fit the
    context. *)
Lemma decimal_quotient_exact : forall c k r,
  0 <= k ->
  In r [2; 4; 5; 10; 20; 25; 50; 100] ->
  Z.abs (c * (100 / r)) < 10 ^ 28 ->
  (Dec.div (c # Z.to_pos (10 ^ k)) (inject_Z r)
     == (c # Z.to_pos (10 ^ k)) / inject_Z r)%Q.
Proof.
  intros c k r Hk Hin Hsmall.
  assert (Hr : 0 < r /\ r * (100 / r) = 100).
  { cbn [In] in Hin.
    repeat (destruct Hin as [<-|Hin]; [split; reflexivity|]). contradiction. }
  destruct Hr as [Hr Hdiv].
  unfold Dec.div, Dec.quantize, Dec.prec.
  rewrite (round_sig_exact 10 28 (c * (100 / r)) (k + 2)); try lia.
  - apply Qred_correct.
  - assert (H10 : 0 < 10 ^ k) by (apply Z.pow_pos_nonneg; lia).
    assert (H10' : 0 < 10 ^ (k + 2)) by (apply Z.pow_pos_nonneg; lia).
    unfold Qeq, Qdiv, Qmult, Qinv. cbn [Qnum Qden inject_Z].
    destruct r as [|r'|r']; try lia. cbn [Qnum Qden].
    rewrite !Pos2Z.inj_mul, !Z2Pos.id by lia.
    rewrite Z.pow_add_r by lia. change (10 ^ 2) with 100.
    set (x := 100 / Z.pos r') in *. rewrite <- Hdiv. ring.
Qed.

(** A 1 : 3 split recorded on day 10. *)
Definition three_for_one : CorporateAction :=
  mkCorporateAction 1 1 split (Some 10) 1 3 None None true false.

(** A 1 : 2 split recorded on day 10. *)
Definition two_for_one : CorporateAction :=
  mkCorporateAction 2 1 split (Some 10) 1 2 None None true false.

Lemma three_for_one_detected : detected_split three_for_one.
Proof. repeat split. cbn. auto. Qed.

Lemma two_for_one_detected : detected_split two_for_one.
Proof. repeat split. cbn. auto. Defined.

(** C6, as stated, fails: a lot of 100 units at 50, bought on day 0, is
    worth 5000; adjusted for a detected 1 : 3 split it is 300 units at
    16.66666666666666666666666667, the quotient 50 / 3 at the 28 digits of
    the Decimal context, worth 5000.000000000000000000000001. *)
Lemma split_by_three_changes_value :
  detected_split three_for_one /\
  ca_record_date three_for_one = Some 10 /\
  0 < 10 /\
  adjust_quantity_for_splits 100 50%Q 0 [three_for_one]
    = Return (300, (1666666666666666666666666667 # 100000000000000000000000000)%Q) /\
  ~ (total_value 300 (1666666666666666666666666667 # 100000000000000000000000000)
       == total_value 100 50)%Q.
Proof.
  split; [exact three_for_one_detected|].
  split; [reflexivity|]. split; [reflexivity|].
  split; [vm_compute; reflexivity|].
  intros H. vm_compute in H. discriminate.
Qed.

(** C6, amended: for every lot of integer quantity (its adjusted quantity
    below 2^53) bought before the record date of a detected split 1 : r,
    the adjustment returns the quantity times r and the price divided by r
    in Decimal; whenever that quotient is exact at the 28 digits of the
    context, the total value quantity x price of the lot is unchanged. *)
Theorem split_adjustment_preserves_value :
  forall qty price buy_date s record_date,
    detected_split s ->
    ca_record_date s = Some record_date ->
    buy_date < record_date ->
    Z.abs (qty * ca_ratio_to s) < 2 ^ 53 ->
    (Dec.div price (inject_Z (ca_ratio_to s))
       == price / inject_Z (ca_ratio_to s))%Q ->
    exists qty' price',
      adjust_quantity_for_splits qty price buy_date [s] = Return (qty', price') /\
      qty' = qty * ca_ratio_to s /\
      price' = Dec.div price (inject_Z (ca_ratio_to s)) /\
      (total_value qty' price' == total_value qty price)%Q.
Proof.
  intros qty price buy_date s record_date Hdet Hrd Hlt Hsmall Hexact.
  exists (qty * ca_ratio_to s), (Dec.div price (inject_Z (ca_ratio_to s))).
  cbn [adjust_quantity_for_splits].
  rewrite (apply_detected_split qty price buy_date s record_date Hdet Hrd Hlt Hsmall).
  repeat split.
  destruct Hdet as (_ & _ & Hto). destruct (table_ratio_facts _ Hto) as [Hr _].
  unfold total_value. rewrite Hexact, inject_Z_mult.
  field. intros H. unfold Qeq in H. cbn in H. lia.
Qed.

Lemma split_adjustment_preserves_value_witness :
  detected_split two_for_one /\
  ca_record_date two_for_one = Some 10 /\
  0 < 10 /\
  Z.abs (100 * ca_ratio_to two_for_one) < 2 ^ 53 /\
  (Dec.div 50%Q (inject_Z (ca_ratio_to two_for_one))
     == 50 / inject_Z (ca_ratio_to two_for_one))%Q /\
  exists qty' price',
    adjust_quantity_for_splits 100 50%Q 0 [two_for_one] = Return (qty', price') /\
    qty' = 100 * ca_ratio_to two_for_one /\
    price' = Dec.div 50%Q (inject_Z (ca_ratio_to two_for_one)) /\
    (total_value qty' price' == total_value 100 50)%Q.
Proof.
  assert (H1 : ca_record_date two_for_one = Some 10) by reflexivity.
  assert (H2 : 0 < 10) by reflexivity.
  assert (H3 : Z.abs (100 * ca_ratio_to two_for_one) < 2 ^ 53) by reflexivity.
  assert (H4 : (Dec.div 50%Q (inject_Z (ca_ratio_to two_for_one))
                == 50 / inject_Z (ca_ratio_to two_for_one))%Q)
    by (vm_compute; reflexivity).
  split; [exact two_for_one_detected|]. split; [exact H1|]. split; [exact H2|].
  split; [exact H3|]. split; [exact H4|].
  exact (split_adjustment_preserves_value 100 50%Q 0 two_for_one 10
           two_for_one_detected H1 H2 H3 H4).
Defined.

End SplitAdjustment.

Section SavingProposals.

Import Models CorpActions.

(** The row [save_corporate_action] builds from a proposal. *)
Definition proposed_row (d : ActionData) (i : Z) : CorporateAction :=
  mkCorporateAction i (ad_stock_id d) (ad_action_type d) (ad_detected_date d)
                    (ad_ratio_from d) (ad_ratio_to d) (ad_old_price d)
                    (ad_new_price d) true false.

(** The calls in sequence, each on the database the one before left. *)
Definition save_all (db : Database) (ds : list ActionData) : Database :=
  fold_left (fun db d => fst (save_corporate_action db d)) ds db.

(** Rows recorded for the (stock, type, ratio) of a proposal. *)
Definition rows_for (d : ActionData) (db : Database) : list CorporateAction :=
  filter (same_action d) (corporate_actions db).

Lemma action_type_eqb_eq : forall a b, action_type_eqb a b = true -> a = b.
Proof. intros [] []; cbn; congruence. Qed.

Lemma action_type_eqb_refl : forall a, action_type_eqb a a = true.
Proof. intros []; reflexivity. Qed.

Lemma same_action_proposed : forall d i, same_action d (proposed_row d i) = true.
Proof.
  intros d i. unfold same_action, proposed_row. cbn.
  rewrite !Z.eqb_refl, action_type_eqb_refl. reflexivity.
Qed.

(** Two proposals that match one row match the same rows. *)
Lemma same_action_key : forall d d' i,
  same_action d' (proposed_row d i) = true ->
  forall ca, same_action d' ca = same_action d ca.
Proof.
  intros d d' i H ca. unfold same_action, proposed_row in *. cbn in H.
  apply andb_true_iff in H. destruct H as [H H4].
  apply andb_true_iff in H. destruct H as [H H3].
  apply andb_true_iff in H. destruct H as [H1 H2].
  apply Z.eqb_eq in H1, H3, H4. apply action_type_eqb_eq in H2.
  rewrite H1, H2, H3, H4. reflexivity.
Qed.

Lemma find_none_filter : forall (A : Type) (f : A -> bool) l,
  find f l = None -> filter f l = [].
Proof.
  intros A f. induction l as [|x l IH]; cbn; [reflexivity|].
  destruct (f x); [discriminate|]. exact IH.
Qed.

Lemma find_append : forall (A : Type) (f : A -> bool) l1 l2,
  find f (l1 ++ l2) = match find f l1 with
                      | Some x => Some x
                      | None => find f l2
                      end.
Proof.
  intros A f. induction l1 as [|x l1 IH]; intros l2; cbn; [reflexivity|].
  destruct (f x); [reflexivity|]. apply IH.
Qed.

Lemma filter_ext_in_all : forall (A : Type) (f g : A -> bool) l,
  (forall x, f x = g x) -> filter f l = filter g l.
Proof. intros A f g l H. apply filter_ext. exact H. Qed.

(** One save adds at most the first row of a (stock, type, ratio). *)
Lemma save_rows_for : forall db d d',
  (List.length (rows_for d' (fst (save_corporate_action db d)))
     <= Nat.max 1 (List.length (rows_for d' db)))%nat.
Proof.
  intros db d d'. unfold save_corporate_action, rows_for.
  destruct (find (same_action d) (corporate_actions db)) as [existing|] eqn:E;
    cbn [fst]; [lia|].
  cbn [corporate_actions set_corporate_actions].
  rewrite filter_app, length_app. cbn [filter].
  fold (proposed_row d (next_id (map ca_id (corporate_actions db)))).
  destruct (same_action d' (proposed_row d _)) eqn:Hk; cbn [List.length]; [|lia].
  rewrite (filter_ext_in_all _ _ _ _ (same_action_key d d' _ Hk)).
  rewrite (find_none_filter _ _ _ E). cbn. lia.
Qed.

Lemma save_all_rows_for : forall ds db d',
  (List.length (rows_for d' (save_all db ds))
     <= Nat.max 1 (List.length (rows_for d' db)))%nat.
Proof.
  induction ds as [|d ds IH]; intros db d'; cbn [save_all fold_left]; [lia|].
  fold (save_all (fst (save_corporate_action db d)) ds).
  specialize (IH (fst (save_corporate_action db d)) d').
  pose proof (save_rows_for db d d'). lia.
Qed.

(** C9: saving a proposal whose stock, action type and from:to ratio are
    already recorded returns the first such row and leaves the table as it
    is; a save is therefore idempotent (the same proposal saved again
    returns the row of the first save and changes nothing), and after any
    sequence of saves a (stock, type, ratio) that had at most one row still
    has at most one. *)
Theorem save_corporate_action_idempotent : forall db d,
  (forall existing,
     find (same_action d) (corporate_actions db) = Some existing ->
     save_corporate_action db d = (db, existing)) /\
  save_corporate_action (fst (save_corporate_action db d)) d
    = save_corporate_action db d /\
  same_action d (snd (save_corporate_action db d)) = true /\
  In (snd (save_corporate_action db d))
     (corporate_actions (fst (save_corporate_action db d))) /\
  (forall ds d',
     (List.length (rows_for d' (save_all db ds))
        <= Nat.max 1 (List.length (rows_for d' db)))%nat).
Proof.
  intros db d.
  split; [|split; [|split; [|split]]].
  - intros existing H. unfold save_corporate_action. rewrite H. reflexivity.
  - unfold save_corporate_action at 2 3.
    destruct (find (same_action d) (corporate_actions db)) as [existing|] eqn:E;
      cbn [fst].
    + unfold save_corporate_action. rewrite E. reflexivity.
    + unfold save_corporate_action.
      cbn [corporate_actions set_corporate_actions].
      rewrite find_append, E. cbn [find].
      fold (proposed_row d (next_id (map ca_id (corporate_actions db)))).
      rewrite same_action_proposed. reflexivity.
  - unfold save_corporate_action.
    destruct (find (same_action d) (corporate_actions db)) as [existing|] eqn:E;
      cbn [snd].
    + apply find_some in E. apply E.
    + apply same_action_proposed.
  - unfold save_corporate_action.
    destruct (find (same_action d) (corporate_actions db)) as [existing|] eqn:E;
      cbn [fst snd].
    + apply find_some in E. apply E.
    + cbn [corporate_actions set_corporate_actions]. apply in_or_app. right. left.
      reflexivity.
  - intros ds d'. apply save_all_rows_for.
Qed.

End SavingProposals.

(** ** Properties of the reconciliation *)

Section SplitDetection.

Import Recon.

(** The three tests of the split detector on a candidate pair, as the
    detector computes them: the values of trade and report entry within 2%
    of the larger; the report quantity over the trade quantity less than
    0.01 away from the ratio; the implied price of the entry less than 2%
    of the trade price away from the trade price over the ratio. *)
Definition values_within_2pct (trade : TradebookTrade) (entry : TaxPnlEntry) : bool :=
  _values_match (trade_value trade) (e_buy_value entry) (2 # 100)%Q.

Definition ratio_within (trade : TradebookTrade) (entry : TaxPnlEntry) (ratio : Z)
    : bool :=
  Flt.ltb (ratio_gap (true_div (e_quantity entry) (t_quantity trade)) ratio) f_0_01.

Definition price_within (trade : TradebookTrade) (entry : TaxPnlEntry) (ratio : Z)
    : bool :=
  negb (Qle_bool f_0_02 (price_gap (t_price trade) (pnl_price_of entry) ratio)).

Definition split_conditions (trade : TradebookTrade) (entry : TaxPnlEntry) : Prop :=
  values_within_2pct trade entry = true /\
  exists ratio, In ratio COMMON_SPLIT_RATIOS /\
    ratio_within trade entry ratio = true /\
    price_within trade entry ratio = true.

(** The proposal the detector builds for a ratio. *)
Definition split_proposal (trade : TradebookTrade) (entry : TaxPnlEntry) (ratio : Z)
    : DetectedAction :=
  mkDetectedAction Models.split (e_symbol entry) (e_isin entry) 1 ratio
    (Flt.rnd (t_price trade)) (Flt.rnd (pnl_price_of entry)) true
    (if Flt.ltb (ratio_gap (true_div (e_quantity entry) (t_quantity trade)) ratio)
                f_0_001
     then high else medium).

(** The search over the table: the first ratio passing both tests, if any. *)
Lemma split_loop_spec : forall trade entry ratios,
  Dec.eqb (t_price trade) 0%Q = false ->
  match split_loop entry (true_div (e_quantity entry) (t_quantity trade))
          (t_price trade) (pnl_price_of entry) ratios with
  | Return (Some a) =>
      exists ratio, In ratio ratios /\
        ratio_within trade entry ratio = true /\
        price_within trade entry ratio = true /\
        a = split_proposal trade entry ratio
  | Return None =>
      forall ratio, In ratio ratios ->
        ratio_within trade entry ratio && price_within trade entry ratio = false
  | Raise _ => False
  end.
Proof.
  intros trade entry ratios Hprice.
  induction ratios as [|ratio rest IH]; cbn [split_loop].
  - intros ratio [].
  - fold (ratio_within trade entry ratio). rewrite Hprice.
    fold (price_within trade entry ratio).
    destruct (ratio_within trade entry ratio) eqn:Hr.
    + destruct (price_within trade entry ratio) eqn:Hp.
      * exists ratio. repeat split; auto. left. reflexivity.
      * destruct (split_loop entry _ (t_price trade) (pnl_price_of entry) rest)
          as [[a|]|x]; [| |exact IH].
        -- destruct IH as (r & Hin & H1 & H2 & H3). exists r. repeat split; auto.
           right. exact Hin.
        -- intros r [<-|Hin]; [rewrite Hr, Hp; reflexivity|apply IH; exact Hin].
    + destruct (split_loop entry _ (t_price trade) (pnl_price_of entry) rest)
        as [[a|]|x]; [| |exact IH].
      * destruct IH as (r & Hin & H1 & H2 & H3). exists r. repeat split; auto.
        right. exact Hin.
      * intros r [<-|Hin]; [rewrite Hr; reflexivity|apply IH; exact Hin].
Qed.

(** [detect_stock_split] proposes a split exactly under the three tests. *)
Lemma detect_stock_split_spec : forall trade entry,
  t_quantity trade <> 0 ->
  Dec.eqb (t_price trade) 0%Q = false ->
  match detect_stock_split trade entry with
  | Return (Some a) =>
      split_conditions trade entry /\
      exists ratio, In ratio COMMON_SPLIT_RATIOS /\
        ratio_within trade entry ratio = true /\
        price_within trade entry ratio = true /\
        a = split_proposal trade entry ratio
  | Return None => ~ split_conditions trade entry
  | Raise _ => False
  end.
Proof.
  intros trade entry Hqty Hprice. unfold detect_stock_split.
  change (_values_match (Dec.mul (Dec.of_int (t_quantity trade)) (t_price trade))
            (e_buy_value entry) (2 # 100)%Q)
    with (values_within_2pct trade entry).
  destruct (values_within_2pct trade entry) eqn:Hv; cbn [negb].
  - destruct (Z.eqb_spec (t_quantity trade) 0) as [|_]; [contradiction|].
    pose proof (split_loop_spec trade entry COMMON_SPLIT_RATIOS Hprice) as H.
    destruct (split_loop entry _ (t_price trade) (pnl_price_of entry)
                COMMON_SPLIT_RATIOS) as [[a|]|x]; [| |exact H].
    + destruct H as (r & Hin & H1 & H2 & H3).
      split; [split; [exact Hv|]|]; exists r; auto.
    + intros (_ & r & Hin & H1 & H2). specialize (H r Hin).
      rewrite H1, H2 in H. discriminate.
  - intros (H & _). rewrite Hv in H. discriminate.
Qed.

Lemma detect_bonus_issue_type : forall trade entry a,
  detect_bonus_issue trade entry = Return (Some a) ->
  da_action_type a = Models.bonus.
Proof.
  intros trade entry a H. unfold detect_bonus_issue in H.
  destruct (negb _); [discriminate|].
  destruct (e_quantity entry <=? t_quantity trade); [discriminate|].
  destruct (t_quantity trade =? 0); [discriminate|].
  injection H as H.
  revert H. generalize (true_div (e_quantity entry) (t_quantity trade)).
  intros qr. unfold bonus_ratios. cbn [bonus_loop].
  repeat (destruct (Flt.ltb _ f_0_01); [intros H; injection H as <-; reflexivity|]).
  discriminate.
Qed.

(** The candidate [find_matching_buy] returns is a buy whose value matches
    the entry's buy value within the 1% tolerance. *)
Lemma find_matching_buy_values : forall self entry trade,
  find_matching_buy self entry = Some trade ->
  _values_match (trade_value trade) (e_buy_value entry) VALUE_TOLERANCE = true.
Proof.
  intros self entry trade H. unfold find_matching_buy in H.
  destruct (find _ _) as [t|] eqn:E in H.
  - injection H as <-. apply find_some in E. destruct E as [_ E].
    apply andb_true_iff in E. apply E.
  - apply find_some in H. destruct H as [_ H].
    apply andb_true_iff in H. apply H.
Qed.

(** Values that match within 1% match within 2%. *)
Lemma values_match_wider : forall v1 v2,
  _values_match v1 v2 VALUE_TOLERANCE = true ->
  _values_match v1 v2 (2 # 100)%Q = true.
Proof.
  intros v1 v2. unfold _values_match.
  destruct (Dec.eqb v1 0%Q && Dec.eqb v2 0%Q); [auto|].
  destruct (Dec.eqb v1 0%Q || Dec.eqb v2 0%Q); [auto|].
  unfold Dec.leb. rewrite !Qle_bool_iff. intros H.
  eapply Qle_trans; [exact H|]. unfold VALUE_TOLERANCE, Qle. cbn. lia.
Qed.

Lemma Qabs_split : forall x y z : Q,
  (Qabs (x - z) <= Qabs (x - y) + Qabs (y - z))%Q.
Proof.
  intros x y z.
  assert (E : (x - z == (x - y) + (y - z))%Q) by ring.
  rewrite E. apply Qabs_triangle.
Qed.

Lemma Qabs_swap : forall x y : Q, (Qabs (x - y) == Qabs (y - x))%Q.
Proof.
  intros x y. assert (E : (x - y == - (y - x))%Q) by ring.
  rewrite E. apply Qabs_opp.
Qed.

Lemma Qabs_bound : forall x y : Q, (Qabs x <= Qabs (x - y) + Qabs y)%Q.
Proof.
  intros x y. assert (E : (x == (x - y) + y)%Q) by ring.
  rewrite E at 1. apply Qabs_triangle.
Qed.

Lemma Qabs_twice : forall x : Q, (Qabs (Qabs x) == Qabs x)%Q.
Proof. intros x. apply Qabs_pos. apply Qabs_nonneg. Qed.

Lemma Qabs_upper : forall x : Q, (x <= Qabs x)%Q.
Proof. intros x. apply Qle_Qabs. Qed.

(** The detector's price test passes whenever the implied price is within
    1.9% of the old price of the old price over the ratio. *)
Lemma price_test_complete : forall (V P : Q) (p r : Z),
  (0 < P)%Q -> 2 <= r -> p <> 0 ->
  (Qabs (V / inject_Z p - P / inject_Z r) <= (19 # 1000) * P)%Q ->
  negb (Qle_bool f_0_02
          (price_gap P (Dec.div V (Dec.of_int p)) r)) = true.
Proof.
  intros V P p r HP Hr Hp Hdev.
  unfold price_gap, Dec.div, Dec.sub, Dec.abs, Dec.of_int.
  set (a := (V / inject_Z p)%Q) in *. set (e := (P / inject_Z r)%Q) in *.
  set (a' := Dec.quantize a). set (e' := Dec.quantize e).
  set (d' := Dec.quantize (a' - e')).
  set (ad := Dec.quantize (Qabs d')).
  set (g0 := (ad / P)%Q). set (g := Dec.quantize g0).
  pose proof (dec_error a) as E1. fold a' in E1.
  pose proof (dec_error e) as E2. fold e' in E2.
  pose proof (dec_error (a' - e')) as E3. fold d' in E3.
  pose proof (dec_error (Qabs d')) as E4. fold ad in E4. rewrite Qabs_twice in E4.
  pose proof (dec_error g0) as E5. fold g in E5.
  assert (Hr' : (2 <= inject_Z r)%Q) by (unfold Qle; cbn; lia).
  assert (He : (0 < e /\ e <= P * (1 # 2))%Q).
  { unfold e. split.
    - apply Qlt_shift_div_l; lra.
    - apply Qle_shift_div_r; [lra|]. nra. }
  destruct He as [He0 He1].
  assert (Hae : (Qabs e == e)%Q) by (apply Qabs_pos; lra).
  pose proof (Qabs_bound a e) as T1.
  pose proof (Qabs_split a' a e') as T2.
  pose proof (Qabs_split a e e') as T3.
  pose proof (Qabs_swap e e') as T4.
  pose proof (Qabs_bound d' (a' - e')) as T5.
  pose proof (Qabs_bound ad (Qabs d')) as T6. rewrite Qabs_twice in T6.
  pose proof (Qabs_upper ad) as T7.
  pose proof (Qabs_nonneg d') as N1.
  assert (Had : (0 <= ad /\ ad <= (193 # 10000) * P)%Q).
  { split.
    - assert (H := E4). 
      assert (Hc : (Qabs (ad - Qabs d') <= Qabs d')%Q) by lra.
      apply Qabs_Qle_condition in Hc. lra.
    - lra. }
  destruct Had as [Had0 Had1].
  assert (Hg0 : (0 <= g0 /\ g0 <= 193 # 10000)%Q).
  { unfold g0. split.
    - apply Qle_shift_div_l; lra.
    - apply Qle_shift_div_r; lra. }
  destruct Hg0 as [Hg00 Hg01].
  assert (Hag0 : (Qabs g0 == g0)%Q) by (apply Qabs_pos; lra).
  pose proof (Qabs_bound g g0) as T8. pose proof (Qabs_upper g) as T9.
  assert (Hg : (g <= 194 # 10000)%Q) by lra.
  destruct (Qle_bool f_0_02 g) eqn:Hle; [|reflexivity].
  apply Qle_bool_iff in Hle.
  assert (Hf : (2 # 100 <= f_0_02)%Q) by (vm_compute; discriminate).
  lra.
Qed.

(** The float literal 0.01 lies just above 1/100. *)
Lemma f_0_01_bounds :
  (1 # 100 <= f_0_01 /\ f_0_01 <= (1 # 100) + (1 # 100000000000000000))%Q.
Proof. split; vm_compute; discriminate. Qed.

(** The detector's ratio test, against the exact quotient of the
    quantities: it passes only within 0.01 + 10^-13 of the ratio, and always
    within 0.01 - 10^-13 of it. *)
Lemma ratio_test_sound : forall (p t r : Z),
  2 <= r <= 100 ->
  Flt.ltb (ratio_gap (true_div p t) r) f_0_01 = true ->
  (Qabs (inject_Z p / inject_Z t - inject_Z r)
     <= (1 # 100) + (1 # 10000000000000))%Q.
Proof.
  intros p t r Hr Htest.
  unfold Flt.ltb in Htest. apply negb_true_iff in Htest.
  assert (Hlt : ~ (f_0_01 <= ratio_gap (true_div p t) r)%Q).
  { intros H. apply Qle_bool_iff in H. congruence. }
  apply Qnot_le_lt in Hlt.
  unfold ratio_gap, true_div, Flt.abs, Flt.sub, Flt.of_int in Hlt.
  rewrite (flt_int_exact r) in Hlt by lia.
  set (x := (inject_Z p / inject_Z t)%Q) in *.
  set (qr := Flt.rnd x) in *. set (g := Flt.rnd (qr - inject_Z r)) in *.
  pose proof (flt_error x) as E1. fold qr in E1.
  pose proof (flt_error (qr - inject_Z r)) as E2. fold g in E2.
  destruct f_0_01_bounds as [_ Hf].
  assert (Hr1 : (Qabs (inject_Z r) <= 100)%Q).
  { rewrite Qabs_pos; unfold Qle; cbn; lia. }
  pose proof (Qabs_bound (qr - inject_Z r) g) as T1.
  pose proof (Qabs_swap (qr - inject_Z r) g) as T2.
  pose proof (Qabs_bound qr (inject_Z r)) as T3.
  pose proof (Qabs_bound x qr) as T4.
  pose proof (Qabs_swap x qr) as T5.
  pose proof (Qabs_split x qr (inject_Z r)) as T6.
  pose proof (Qabs_nonneg x) as N1.
  pose proof (Qabs_nonneg (qr - inject_Z r)) as N2.
  lra.
Qed.

Lemma ratio_test_complete : forall (p t r : Z),
  2 <= r <= 100 ->
  (Qabs (inject_Z p / inject_Z t - inject_Z r)
     <= (1 # 100) - (1 # 10000000000000))%Q ->
  Flt.ltb (ratio_gap (true_div p t) r) f_0_01 = true.
Proof.
  intros p t r Hr Hx.
  unfold Flt.ltb. apply negb_true_iff.
  destruct (Qle_bool f_0_01 (ratio_gap (true_div p t) r)) eqn:Hle; [|reflexivity].
  apply Qle_bool_iff in Hle. exfalso.
  unfold ratio_gap, true_div, Flt.abs, Flt.sub, Flt.of_int in Hle.
  rewrite (flt_int_exact r) in Hle by lia.
  set (x := (inject_Z p / inject_Z t)%Q) in *.
  set (qr := Flt.rnd x) in *. set (g := Flt.rnd (qr - inject_Z r)) in *.
  pose proof (flt_error x) as E1. fold qr in E1.
  pose proof (flt_error (qr - inject_Z r)) as E2. fold g in E2.
  destruct f_0_01_bounds as [Hf _].
  assert (Hr1 : (Qabs (inject_Z r) <= 100)%Q).
  { rewrite Qabs_pos; unfold Qle; cbn; lia. }
  pose proof (Qabs_bound g (qr - inject_Z r)) as T1.
  pose proof (Qabs_split qr x (inject_Z r)) as T2.
  pose proof (Qabs_bound x (inject_Z r)) as T3.
  pose proof (Qabs_nonneg x) as N1.
  pose proof (Qabs_nonneg (qr - inject_Z r)) as N2.
  lra.
Qed.

Lemma Qdiv_bound : forall x m c : Q,
  (0 < m -> x / m <= c -> x <= c * m)%Q.
Proof.
  intros x m c Hm H.
  assert (E : (x == (x / m) * m)%Q) by (field; lra).
  rewrite E. apply Qmult_le_compat_r; lra.
Qed.

(** Each Decimal operation is within one part in 10^27 of the exact result. *)
Lemma dec_sub_error : forall x y : Q,
  (Qabs (Dec.sub x y - (x - y)) * (2000000000000000000000000000 # 1) <= Qabs (x - y))%Q.
Proof. intros x y. exact (dec_error (x - y)). Qed.

Lemma dec_mul_error : forall x y : Q,
  (Qabs (Dec.mul x y - x * y) * (2000000000000000000000000000 # 1) <= Qabs (x * y))%Q.
Proof. intros x y. exact (dec_error (x * y)). Qed.

Lemma dec_div_error : forall x y : Q,
  (Qabs (Dec.div x y - x / y) * (2000000000000000000000000000 # 1) <= Qabs (x / y))%Q.
Proof. intros x y. exact (dec_error (x / y)). Qed.

Lemma dec_abs_error : forall x : Q,
  (Qabs (Dec.abs x - Qabs x) * (2000000000000000000000000000 # 1) <= Qabs x)%Q.
Proof.
  intros x. pose proof (dec_error (Qabs x)) as E. rewrite Qabs_twice in E.
  exact E.
Qed.

Lemma dec_max_cases : forall x y : Q, Dec.max x y = x \/ Dec.max x y = y.
Proof. intros x y. unfold Dec.max. destruct (Dec.ltb x y); auto. Qed.

Lemma dec_leb_le : forall x y : Q, Dec.leb x y = true -> (x <= y)%Q.
Proof. intros x y H. apply Qle_bool_iff. exact H. Qed.

(** [_values_match] on two non-zero values is the comparison of the relative
    difference with the tolerance. *)
Lemma values_match_nonzero : forall v1 v2 tol : Q,
  Qeq_bool v1 0 = false -> Qeq_bool v2 0 = false ->
  _values_match v1 v2 tol =
  Dec.leb (Dec.div (Dec.abs (Dec.sub v1 v2)) (Dec.max (Dec.abs v1) (Dec.abs v2))) tol.
Proof.
  intros v1 v2 tol H1 H2. unfold _values_match, Dec.eqb. rewrite H1, H2.
  reflexivity.
Qed.

Lemma values_match_zero : forall v1 v2 tol : Q,
  _values_match v1 v2 tol = true ->
  Qeq_bool v1 0 = false -> Qeq_bool v2 0 = false.
Proof.
  intros v1 v2 tol H H1. unfold _values_match, Dec.eqb in H. rewrite H1 in H.
  destruct (Qeq_bool v2 0); [discriminate | reflexivity].
Qed.

(** The 1% value test of the candidate search, against the exact values:
    it passes only when the values differ by at most 1.01% of one of
    them. *)
Lemma values_test_sound : forall (t : Z) (P V : Q),
  0 < t -> (0 < P)%Q ->
  _values_match (Dec.mul (Dec.of_int t) P) V VALUE_TOLERANCE = true ->
  (Qabs (inject_Z t * P - V) <= (101 # 10000) * Qabs (inject_Z t * P) \/
   Qabs (inject_Z t * P - V) <= (101 # 10000) * Qabs V)%Q.
Proof.
  intros t P V Ht HP Htest.
  pose proof (dec_mul_error (Dec.of_int t) P) as E0.
  remember (Dec.mul (Dec.of_int t) P) as T1 eqn:HeqT1. clear HeqT1.
  change (Dec.of_int t) with (inject_Z t) in E0.
  remember (inject_Z t * P)%Q as A eqn:HeqA.
  assert (HA : (0 < A)%Q).
  { subst A. assert ((0 < inject_Z t)%Q) by (unfold Qlt; cbn; lia). nra. }
  clear HeqA.
  assert (HAabs : (Qabs A == A)%Q) by (apply Qabs_pos; lra).
  pose proof (Qabs_bound A T1) as B0. pose proof (Qabs_swap A T1) as B1.
  pose proof (Qabs_bound T1 A) as B2.
  assert (HT1 : (0 < Qabs T1)%Q) by lra.
  destruct (Qeq_bool T1 0) eqn:Hz.
  { apply Qeq_bool_eq in Hz. rewrite Hz in HT1. cbn in HT1. lra. }
  pose proof (values_match_zero _ _ _ Htest Hz) as Hv.
  assert (HV : (0 < Qabs V)%Q).
  { destruct (Qlt_le_dec 0 (Qabs V)) as [H|H]; [exact H|].
    assert (E : (Qabs V == 0)%Q) by (pose proof (Qabs_nonneg V); lra).
    assert (E' : (V == 0)%Q).
    { pose proof (Qle_Qabs V). pose proof (Qle_Qabs (- V)).
      rewrite Qabs_opp in H1. lra. }
    apply Qeq_eq_bool in E'. congruence. }
  rewrite (values_match_nonzero _ _ _ Hz Hv) in Htest.
  apply dec_leb_le in Htest. unfold VALUE_TOLERANCE in Htest. clear Hz Hv.
  pose proof (dec_sub_error T1 V) as E1.
  remember (Dec.sub T1 V) as s1 eqn:Heq1. clear Heq1.
  pose proof (dec_abs_error s1) as E2.
  remember (Dec.abs s1) as as1 eqn:Heq2. clear Heq2.
  pose proof (dec_abs_error T1) as E3.
  remember (Dec.abs T1) as aT eqn:Heq3. clear Heq3.
  pose proof (dec_abs_error V) as E4.
  remember (Dec.abs V) as aV eqn:Heq4. clear Heq4.
  assert (HaT : (0 < aT /\ aT <= Qabs T1 + Qabs (aT - Qabs T1))%Q).
  { assert (Hc : (Qabs (aT - Qabs T1) <= Qabs T1 * (1 # 2))%Q) by lra.
    apply Qabs_Qle_condition in Hc.
    pose proof (Qabs_bound aT (Qabs T1)) as X. rewrite Qabs_twice in X.
    pose proof (Qabs_upper aT). split; lra. }
  assert (HaV : (0 < aV /\ aV <= Qabs V + Qabs (aV - Qabs V))%Q).
  { assert (Hc : (Qabs (aV - Qabs V) <= Qabs V * (1 # 2))%Q) by lra.
    apply Qabs_Qle_condition in Hc.
    pose proof (Qabs_bound aV (Qabs V)) as X. rewrite Qabs_twice in X.
    pose proof (Qabs_upper aV). split; lra. }
  assert (Has1 : (0 <= as1 /\ Qabs s1 <= as1 + Qabs (as1 - Qabs s1))%Q).
  { pose proof (Qabs_nonneg s1).
    assert (Hc : (Qabs (as1 - Qabs s1) <= Qabs s1)%Q) by lra.
    apply Qabs_Qle_condition in Hc.
    pose proof (Qabs_upper (Qabs s1 - as1)) as X.
    pose proof (Qabs_swap as1 (Qabs s1)) as Y. split; lra. }
  pose proof (Qabs_bound (T1 - V) s1) as B3. pose proof (Qabs_swap (T1 - V) s1) as B4.
  pose proof (Qabs_split A T1 V) as B5.
  pose proof (Qabs_bound A (A - V)) as B6.
  assert (B7 : (Qabs (A - (A - V)) == Qabs V)%Q).
  { assert (E : (A - (A - V) == V)%Q) by ring. rewrite E. reflexivity. }
  pose proof (Qabs_bound A V) as B8.
  pose proof (Qabs_nonneg (A - V)) as N1. pose proof (Qabs_nonneg (T1 - V)) as N2.
  pose proof (dec_max_cases aT aV) as Hmax.
  remember (Dec.max aT aV) as m eqn:Heqm. clear Heqm.
  assert (Hm : (0 < m)%Q) by (destruct Hmax as [-> | ->]; lra).
  pose proof (dec_div_error as1 m) as E5.
  remember (Dec.div as1 m) as dr eqn:Heq5. clear Heq5.
  remember (as1 / m)%Q as q0 eqn:Heqq0.
  assert (Hq0 : (0 <= q0)%Q) by (subst q0; apply Qle_shift_div_l; lra).
  assert (Hq0abs : (Qabs q0 == q0)%Q) by (apply Qabs_pos; exact Hq0).
  assert (Hq0le : (q0 <= 10000001 # 1000000000)%Q).
  { assert (Hc : (Qabs (dr - q0) <= q0 * (1 # 1000000000))%Q) by lra.
    apply Qabs_Qle_condition in Hc. lra. }
  subst q0.
  pose proof (Qdiv_bound as1 m _ Hm Hq0le) as Hprod.
  destruct Hmax as [Em | Em]; rewrite Em in Hprod.
  - left. lra.
  - right. lra.
Qed.

(** The tests in exact arithmetic, on the quantities and values of the pair
    themselves. *)
Definition exact_values_within (tol : Q) (trade : TradebookTrade)
    (entry : TaxPnlEntry) : Prop :=
  let T := (inject_Z (t_quantity trade) * t_price trade)%Q in
  let V := e_buy_value entry in
  (Qabs (T - V) <= tol * Qabs T \/ Qabs (T - V) <= tol * Qabs V)%Q.

Definition exact_ratio_within (tol : Q) (trade : TradebookTrade)
    (entry : TaxPnlEntry) (ratio : Z) : Prop :=
  (Qabs (inject_Z (e_quantity entry) / inject_Z (t_quantity trade) - inject_Z ratio)
     <= tol)%Q.

(** The implied new price within 2% of the old price over the ratio,
    measured against the old price over the ratio. *)
Definition exact_price_within (trade : TradebookTrade) (entry : TaxPnlEntry)
    (ratio : Z) : Prop :=
  (Qabs (e_buy_value entry / inject_Z (e_quantity entry)
         - t_price trade / inject_Z ratio)
     <= (2 # 100) * (t_price trade / inject_Z ratio))%Q.

Lemma exact_price_core : forall (T V t p r : Q),
  (0 < T -> 0 < t -> 2 <= r ->
   9899 * T <= 10000 * V -> 10000 * V <= 10103 * T ->
   1000000 * (p - r * t) <= 10001 * t -> 1000000 * (r * t - p) <= 10001 * t ->
   0 < p /\
   100 * (V * r * t - T * p) <= 2 * (T * p) /\
   100 * (T * p - V * r * t) <= 2 * (T * p))%Q.
Proof.
  intros T V t p r HT Ht Hr H1 H2 H3 H4.
  assert (Hp : (1989999 * (r * t) <= 2000000 * p)%Q) by nra.
  assert (Hp2 : (2000000 * p <= 2010001 * (r * t))%Q) by nra.
  assert (Hrt : (0 < r * t)%Q) by nra.
  repeat split; nra.
Qed.

(** In exact arithmetic: values within 1.01% of one another and a quantity
    ratio within 0.01 + 10^-13 of a ratio of at least 2 leave the implied
    price within 2% of the old price over the ratio, and so within 1% of the
    old price. *)
Lemma exact_price_implied : forall (t p r P V : Q),
  (0 < t -> 0 < P -> 2 <= r ->
   (Qabs (t * P - V) <= (101 # 10000) * Qabs (t * P) \/
    Qabs (t * P - V) <= (101 # 10000) * Qabs V) ->
   Qabs (p / t - r) <= (1 # 100) + (1 # 10000000000000) ->
   0 < p /\
   Qabs (V / p - P / r) <= (2 # 100) * (P / r) /\
   Qabs (V / p - P / r) <= (19 # 1000) * P)%Q.
Proof.
  intros t p r P V Ht' HP Hr' Hv Hq.
  assert (HT : (0 < t * P)%Q) by nra.
  assert (Hq1 : (1000000 * (p - r * t) <= 10001 * t /\
                 1000000 * (r * t - p) <= 10001 * t)%Q).
  { apply Qabs_Qle_condition in Hq. destruct Hq as [Ha Hb].
    assert (E : (p == (p / t) * t)%Q) by (field; lra).
    set (y := (p / t)%Q) in *. split; nra. }
  destruct Hq1 as [Hq1 Hq2].
  assert (Hv1 : (9899 * (t * P) <= 10000 * V /\ 10000 * V <= 10103 * (t * P))%Q).
  { rewrite (Qabs_pos (t * P)) in Hv by lra.
    destruct Hv as [Hv|Hv].
    - apply Qabs_Qle_condition in Hv. destruct Hv. split; lra.
    - destruct (Qlt_le_dec V 0) as [Hneg|Hpos].
      + rewrite (Qabs_neg V) in Hv by lra.
        apply Qabs_Qle_condition in Hv. destruct Hv. split; lra.
      + rewrite (Qabs_pos V) in Hv by exact Hpos.
        apply Qabs_Qle_condition in Hv. destruct Hv. split; lra. }
  destruct Hv1 as [Hv1 Hv2].
  destruct (exact_price_core (t * P) V t p r HT Ht' Hr' Hv1 Hv2 Hq1 Hq2)
    as (Hp & G1 & G2).
  assert (Hrpos : (0 < r)%Q) by lra.
  assert (Ea : (V == (V / p) * p)%Q) by (field; lra).
  assert (Eb : (P == (P / r) * r)%Q) by (field; lra).
  set (a := (V / p)%Q) in *. set (b := (P / r)%Q) in *.
  assert (Hb : (0 < b)%Q) by nra.
  assert (Hb2 : (2 * b <= P)%Q) by nra.
  assert (Hpr : (0 < p * r * t)%Q) by nra.
  assert (Hmain : (Qabs (a - b) <= (2 # 100) * b)%Q).
  { apply Qabs_Qle_condition. split.
    - assert ((0 <= (a - b + (2 # 100) * b) * (p * r * t))%Q) by nra. nra.
    - assert ((0 <= ((2 # 100) * b - (a - b)) * (p * r * t))%Q) by nra. nra. }
  split; [exact Hp|]. split; [exact Hmain|]. lra.
Qed.

(** For a candidate of the search, the ratio test decides: when it passes
    for a table ratio, the 2% value test and the price test pass as well,
    and the implied price is within 2% of the old price over the ratio. *)
Lemma ratio_test_decides : forall self entry trade ratio,
  find_matching_buy self entry = Some trade ->
  0 < t_quantity trade -> (0 < t_price trade)%Q ->
  In ratio COMMON_SPLIT_RATIOS ->
  ratio_within trade entry ratio = true ->
  values_within_2pct trade entry = true /\
  price_within trade entry ratio = true /\
  exact_values_within (101 # 10000) trade entry /\
  exact_ratio_within ((1 # 100) + (1 # 10000000000000)) trade entry ratio /\
  exact_price_within trade entry ratio.
Proof.
  intros self entry trade ratio Hfind Ht HP Hin Hratio.
  assert (Hr : 2 <= ratio <= 100).
  { unfold COMMON_SPLIT_RATIOS in Hin. cbn [In] in Hin.
    repeat (destruct Hin as [<-|Hin]; [lia|]). contradiction. }
  pose proof (find_matching_buy_values self entry trade Hfind) as Hv.
  split; [apply values_match_wider; exact Hv|].
  unfold trade_value in Hv.
  pose proof (values_test_sound _ _ _ Ht HP Hv) as Hvx.
  unfold ratio_within in Hratio.
  pose proof (ratio_test_sound _ _ _ Hr Hratio) as Hrx.
  assert (Ht' : (0 < inject_Z (t_quantity trade))%Q) by (unfold Qlt; cbn; lia).
  assert (Hr' : (2 <= inject_Z ratio)%Q) by (unfold Qle; cbn; lia).
  destruct (exact_price_implied _ _ _ _ _ Ht' HP Hr' Hvx Hrx) as (Hp & Hstrict & Hloose).
  assert (Hp0 : e_quantity entry <> 0).
  { intros E. rewrite E in Hp. unfold Qlt in Hp. cbn in Hp. lia. }
  split; [|split; [exact Hvx | split; [exact Hrx | exact Hstrict]]].
  unfold price_within, pnl_price_of.
  destruct (Z.eqb_spec (e_quantity entry) 0) as [|_]; [contradiction|].
  apply price_test_complete; auto. lia.
Qed.

End SplitDetection.

(** ** Further properties of the services *)

Section ValueMatching.

Import Recon.

(** Rounding commutes with negation: ties go to the even neighbour on
    either side of zero. *)
Lemma round_sig_opp : forall b p q,
  Num.round_sig b p (- q) = (- Num.round_sig b p q)%Q.
Proof.
  intros b p q. unfold Num.round_sig. cbv zeta. rewrite Qred_opp.
  destruct (Qred q) as [n d]. cbn [Qopp Qnum Qden].
  rewrite Z.abs_opp.
  destruct (Z.abs n =? 0); [reflexivity|].
  rewrite Z.sgn_opp.
  set (s := Num.ilog b (Z.abs n) (Z.pos d) - (p - 1)).
  set (c := if 0 <=? s then Num.div_half_even (Z.abs n) (Z.pos d * b ^ s)
            else Num.div_half_even (Z.abs n * b ^ (- s)) (Z.pos d)).
  rewrite <- Qred_opp.
  destruct (0 <=? s).
  - f_equal. unfold Qopp, inject_Z. cbn [Qnum Qden]. f_equal. ring.
  - f_equal. unfold Qopp. cbn [Qnum Qden]. f_equal. ring.
Qed.

Lemma dec_abs_sub_swap : forall x y : Q,
  Dec.abs (Dec.sub x y) = Dec.abs (Dec.sub y x).
Proof.
  intros x y. unfold Dec.abs, Dec.sub, Dec.quantize.
  assert (E : Num.round_sig 10 Dec.prec (y - x)
              = (- Num.round_sig 10 Dec.prec (x - y))%Q).
  { rewrite <- round_sig_opp. apply round_sig_proper. ring. }
  rewrite E. apply round_sig_proper. rewrite Qabs_opp. reflexivity.
Qed.

Lemma dec_div_max_swap : forall x a b : Q,
  Dec.div x (Dec.max a b) = Dec.div x (Dec.max b a).
Proof.
  intros x a b. unfold Dec.div, Dec.quantize. apply round_sig_proper.
  unfold Dec.max, Dec.ltb.
  destruct (Qle_bool b a) eqn:Hba; destruct (Qle_bool a b) eqn:Hab; cbn [negb];
    try reflexivity.
  - apply Qle_bool_iff in Hba. apply Qle_bool_iff in Hab.
    assert (E : (a == b)%Q) by (apply Qle_antisym; assumption).
    rewrite E. reflexivity.
  - assert (Hle : (a <= b)%Q \/ (b <= a)%Q).
    { destruct (Qlt_le_dec a b) as [H|H]; [left; apply Qlt_le_weak; exact H|right; exact H]. }
    destruct Hle as [H|H]; apply Qle_bool_iff in H; congruence.
Qed.

(** X1: [_values_match] does not depend on the order of the two values. *)
Theorem values_match_symmetric : forall v1 v2 tolerance,
  _values_match v1 v2 tolerance = _values_match v2 v1 tolerance.
Proof.
  intros v1 v2 tol. unfold _values_match.
  rewrite (andb_comm (Dec.eqb v1 0%Q) (Dec.eqb v2 0%Q)).
  rewrite (orb_comm (Dec.eqb v1 0%Q) (Dec.eqb v2 0%Q)).
  rewrite (dec_abs_sub_swap v1 v2).
  rewrite (dec_div_max_swap _ (Dec.abs v1) (Dec.abs v2)).
  reflexivity.
Qed.

End ValueMatching.

Section ValueTolerance.

Import Recon.

Lemma abs_scaled : forall x k c : Q,
  (0 <= k)%Q -> (Qabs x * k <= c)%Q -> (x * k <= c /\ - x * k <= c)%Q.
Proof.
  intros x k c Hk H.
  pose proof (Qle_Qabs x) as H1. pose proof (Qle_Qabs (- x)) as H2.
  rewrite Qabs_opp in H2.
  assert (A1 : (x * k <= Qabs x * k)%Q) by (apply Qmult_le_compat_r; assumption).
  assert (A2 : (- x * k <= Qabs x * k)%Q) by (apply Qmult_le_compat_r; assumption).
  split; lra.
Qed.

Lemma Qmult_le_nonneg_l : forall z x y : Q,
  (0 <= z)%Q -> (x <= y)%Q -> (z * x <= z * y)%Q.
Proof.
  intros z x y Hz H. rewrite (Qmult_comm z x), (Qmult_comm z y).
  apply Qmult_le_compat_r; assumption.
Qed.

Lemma Qabs_pos_nonzero : forall x : Q, Qeq_bool x 0 = false -> (0 < Qabs x)%Q.
Proof.
  intros x H. destruct (Qlt_le_dec 0 (Qabs x)) as [L|L]; [exact L|].
  assert (E : (x == 0)%Q).
  { pose proof (Qle_Qabs x) as H1. pose proof (Qle_Qabs (- x)) as H2.
    rewrite Qabs_opp in H2. lra. }
  apply Qeq_eq_bool in E. congruence.
Qed.

Lemma dec_max_ge : forall a b : Q,
  (a <= Dec.max a b /\ b <= Dec.max a b)%Q.
Proof.
  intros a b. unfold Dec.max, Dec.ltb.
  destruct (Qle_bool b a) eqn:H; cbn [negb].
  - apply Qle_bool_iff in H. split; lra.
  - assert (L : (a < b)%Q).
    { destruct (Qlt_le_dec a b) as [L|L]; [exact L|].
      apply Qle_bool_iff in L. congruence. }
    split; lra.
Qed.

(** The quantities [_values_match] computes for two non-zero values, with
    the error of each rounding. *)
Lemma values_match_parts : forall v1 v2 tol : Q,
  Qeq_bool v1 0 = false -> Qeq_bool v2 0 = false ->
  exists S A M R : Q,
    _values_match v1 v2 tol = Qle_bool R tol /\
    (0 < M)%Q /\ (0 <= A)%Q /\
    (Qabs (v1 - v2) * (1999999999999999999999999999 # 1)
       <= S * (2000000000000000000000000000 # 1))%Q /\
    (S * (2000000000000000000000000000 # 1)
       <= Qabs (v1 - v2) * (2000000000000000000000000001 # 1))%Q /\
    (S * (1999999999999999999999999999 # 1)
       <= A * (2000000000000000000000000000 # 1))%Q /\
    (A * (2000000000000000000000000000 # 1)
       <= S * (2000000000000000000000000001 # 1))%Q /\
    (Qabs v1 * (1999999999999999999999999999 # 1)
       <= M * (2000000000000000000000000000 # 1))%Q /\
    (Qabs v2 * (1999999999999999999999999999 # 1)
       <= M * (2000000000000000000000000000 # 1))%Q /\
    ((M * (2000000000000000000000000000 # 1)
        <= Qabs v1 * (2000000000000000000000000001 # 1))%Q \/
     (M * (2000000000000000000000000000 # 1)
        <= Qabs v2 * (2000000000000000000000000001 # 1))%Q) /\
    ((A / M) * (1999999999999999999999999999 # 1)
       <= R * (2000000000000000000000000000 # 1))%Q /\
    (R * (2000000000000000000000000000 # 1)
       <= (A / M) * (2000000000000000000000000001 # 1))%Q.
Proof.
  intros v1 v2 tol Hz1 Hz2.
  rewrite (values_match_nonzero _ _ _ Hz1 Hz2).
  pose proof (Qabs_pos_nonzero _ Hz1) as P1. pose proof (Qabs_pos_nonzero _ Hz2) as P2.
  pose proof (dec_sub_error v1 v2) as E1.
  remember (Dec.sub v1 v2) as s eqn:Hs. clear Hs.
  pose proof (dec_abs_error s) as E2.
  remember (Dec.abs s) as a eqn:Ha. clear Ha.
  pose proof (dec_abs_error v1) as E3.
  remember (Dec.abs v1) as a1 eqn:Ha1. clear Ha1.
  pose proof (dec_abs_error v2) as E4.
  remember (Dec.abs v2) as a2 eqn:Ha2. clear Ha2.
  pose proof (dec_max_ge a1 a2) as [G1 G2].
  pose proof (dec_max_cases a1 a2) as Hc.
  remember (Dec.max a1 a2) as m eqn:Hm. clear Hm.
  pose proof (dec_div_error a m) as E5.
  remember (Dec.div a m) as r eqn:Hr. clear Hr.
  apply abs_scaled in E2; [|lra]. apply abs_scaled in E3; [|lra].
  apply abs_scaled in E4; [|lra].
  pose proof (Qabs_bound (v1 - v2) s) as B1.
  pose proof (Qabs_bound s (v1 - v2)) as B2.
  pose proof (Qabs_swap (v1 - v2) s) as B3.
  pose proof (Qabs_nonneg s) as N1. pose proof (Qabs_nonneg (v1 - v2)) as N2.
  assert (Ha0 : (0 <= a)%Q) by lra.
  assert (Hm0 : (0 < m)%Q) by lra.
  assert (Hq0 : (0 <= a / m)%Q) by (apply Qle_shift_div_l; lra).
  rewrite (Qabs_pos _ Hq0) in E5.
  apply abs_scaled in E5; [|lra].
  exists (Qabs s), a, m, r.
  split; [reflexivity|].
  repeat (split; [lra|]). split.
  - destruct Hc as [-> | ->]; [left|right]; lra.
  - split; lra.
Qed.

(** The relative difference of two values is at most [c]: the difference is
    within [c] times the larger magnitude. *)
Definition relative_difference_within (c v1 v2 : Q) : Prop :=
  (Qabs (v1 - v2) <= c * Qabs v1 \/ Qabs (v1 - v2) <= c * Qabs v2)%Q.

Lemma values_match_sound : forall v1 v2 tol : Q,
  (0 <= tol)%Q -> (tol <= 1)%Q ->
  _values_match v1 v2 tol = true ->
  relative_difference_within (tol + (1 # 100000000000000000000000000)) v1 v2.
Proof.
  intros v1 v2 tol Ht0 Ht1 H. unfold relative_difference_within.
  destruct (Qeq_bool v1 0) eqn:Hz1.
  - destruct (Qeq_bool v2 0) eqn:Hz2.
    + apply Qeq_bool_eq in Hz1. apply Qeq_bool_eq in Hz2. left.
      rewrite Hz1, Hz2. cbn. lra.
    + unfold _values_match, Dec.eqb in H. rewrite Hz1, Hz2 in H. discriminate.
  - pose proof (values_match_zero _ _ _ H Hz1) as Hz2.
    destruct (values_match_parts v1 v2 tol Hz1 Hz2)
      as (S & A & M & R & Hm & HM & HA & D1 & D2 & A1 & A2 & M1 & M2 & M3 & R1 & R2).
    rewrite Hm in H. apply Qle_bool_iff in H.
    pose proof (Qabs_nonneg v1) as N1. pose proof (Qabs_nonneg v2) as N2.
    pose proof (Qabs_nonneg (v1 - v2)) as N3.
    assert (HX : (A == (A / M) * M)%Q) by (field; lra).
    assert (HXM : ((A / M) * M * (1999999999999999999999999999 # 1)
                   <= (tol * M) * (2000000000000000000000000000 # 1))%Q).
    { assert (L : ((A / M) * (1999999999999999999999999999 # 1)
                   <= tol * (2000000000000000000000000000 # 1))%Q) by lra.
      apply (Qmult_le_compat_r _ _ M) in L; [|lra]. lra. }
    destruct M3 as [M3|M3].
    + left.
      assert (T1 : (tol * (M * (2000000000000000000000000000 # 1))
                    <= tol * (Qabs v1 * (2000000000000000000000000001 # 1)))%Q)
        by (apply Qmult_le_nonneg_l; [exact Ht0 | exact M3]).
      assert (T2 : (tol * Qabs v1 <= 1 * Qabs v1)%Q)
        by (apply Qmult_le_compat_r; assumption).
      assert (T3 : (0 <= tol * Qabs v1)%Q) by (apply Qmult_le_0_compat; assumption).
      lra.
    + right.
      assert (T1 : (tol * (M * (2000000000000000000000000000 # 1))
                    <= tol * (Qabs v2 * (2000000000000000000000000001 # 1)))%Q)
        by (apply Qmult_le_nonneg_l; [exact Ht0 | exact M3]).
      assert (T2 : (tol * Qabs v2 <= 1 * Qabs v2)%Q)
        by (apply Qmult_le_compat_r; assumption).
      assert (T3 : (0 <= tol * Qabs v2)%Q) by (apply Qmult_le_0_compat; assumption).
      lra.
Qed.

Lemma values_match_complete_one : forall v1 v2 V tol S A M R : Q,
  (0 <= tol)%Q -> (tol <= 1)%Q -> (0 < M)%Q -> (0 <= V)%Q ->
  (Qabs (v1 - v2) <= (tol - (1 # 100000000000000000000000000)) * V)%Q ->
  (S * (2000000000000000000000000000 # 1)
     <= Qabs (v1 - v2) * (2000000000000000000000000001 # 1))%Q ->
  (A * (2000000000000000000000000000 # 1)
     <= S * (2000000000000000000000000001 # 1))%Q ->
  (V * (1999999999999999999999999999 # 1)
     <= M * (2000000000000000000000000000 # 1))%Q ->
  (R * (2000000000000000000000000000 # 1)
     <= (A / M) * (2000000000000000000000000001 # 1))%Q ->
  (R <= tol)%Q.
Proof.
  intros v1 v2 V tol S A M R Ht0 Ht1 HM HV HD D2 A2 M1 R2.
  pose proof (Qabs_nonneg (v1 - v2)) as N3.
  assert (T1 : (tol * (V * (1999999999999999999999999999 # 1))
                <= tol * (M * (2000000000000000000000000000 # 1)))%Q)
    by (apply Qmult_le_nonneg_l; [exact Ht0 | exact M1]).
  assert (T2 : (tol * V <= 1 * V)%Q) by (apply Qmult_le_compat_r; assumption).
  assert (T3 : (0 <= tol * V)%Q) by (apply Qmult_le_0_compat; assumption).
  assert (HA : (A * (2000000000000000000000000001 # 1)
                <= (tol * (2000000000000000000000000000 # 1)) * M)%Q) by lra.
  assert (HX : ((A / M) * (2000000000000000000000000001 # 1)
                <= tol * (2000000000000000000000000000 # 1))%Q).
  { assert (E : ((A / M) * (2000000000000000000000000001 # 1)
                 == (A * (2000000000000000000000000001 # 1)) / M)%Q)
      by (field; lra).
    rewrite E. apply Qle_shift_div_r; [exact HM | exact HA]. }
  lra.
Qed.

Lemma values_match_complete : forall v1 v2 tol : Q,
  (0 <= tol)%Q -> (tol <= 1)%Q ->
  relative_difference_within (tol - (1 # 100000000000000000000000000)) v1 v2 ->
  _values_match v1 v2 tol = true.
Proof.
  intros v1 v2 tol Ht0 Ht1 H. unfold relative_difference_within in H.
  pose proof (Qabs_nonneg v1) as N1. pose proof (Qabs_nonneg v2) as N2.
  pose proof (Qabs_nonneg (v1 - v2)) as N3.
  destruct (Qeq_bool v1 0) eqn:Hz1; destruct (Qeq_bool v2 0) eqn:Hz2.
  - unfold _values_match, Dec.eqb. rewrite Hz1, Hz2. reflexivity.
  - exfalso. apply Qeq_bool_eq in Hz1. pose proof (Qabs_pos_nonzero _ Hz2) as P2.
    assert (E : (Qabs (v1 - v2) == Qabs v2)%Q).
    { rewrite Hz1. rewrite <- (Qabs_opp v2). apply Qabs_wd. ring. }
    assert (E1 : (Qabs v1 == 0)%Q) by (rewrite Hz1; reflexivity).
    assert (T2 : (tol * Qabs v2 <= 1 * Qabs v2)%Q)
      by (apply Qmult_le_compat_r; assumption).
    destruct H as [H|H]; rewrite E in H.
    + rewrite E1 in H. lra.
    + lra.
  - exfalso. apply Qeq_bool_eq in Hz2. pose proof (Qabs_pos_nonzero _ Hz1) as P1.
    assert (E : (Qabs (v1 - v2) == Qabs v1)%Q).
    { rewrite Hz2. apply Qabs_wd. ring. }
    assert (E2 : (Qabs v2 == 0)%Q) by (rewrite Hz2; reflexivity).
    assert (T2 : (tol * Qabs v1 <= 1 * Qabs v1)%Q)
      by (apply Qmult_le_compat_r; assumption).
    destruct H as [H|H]; rewrite E in H.
    + lra.
    + rewrite E2 in H. lra.
  - destruct (values_match_parts v1 v2 tol Hz1 Hz2)
      as (S & A & M & R & Hm & HM & HA & D1 & D2 & A1 & A2 & M1 & M2 & M3 & R1 & R2).
    rewrite Hm. apply Qle_bool_iff.
    destruct H as [H|H].
    + exact (values_match_complete_one v1 v2 (Qabs v1) tol S A M R
               Ht0 Ht1 HM N1 H D2 A2 M1 R2).
    + exact (values_match_complete_one v1 v2 (Qabs v2) tol S A M R
               Ht0 Ht1 HM N2 H D2 A2 M2 R2).
Qed.

(** X2: for a tolerance between 0 and 1, [_values_match] accepts only values
    whose relative difference is at most the tolerance plus 10^-26, and
    accepts all values whose relative difference is at most the tolerance
    minus 10^-26. *)
Theorem values_match_relative_difference : forall v1 v2 tolerance : Q,
  (0 <= tolerance)%Q -> (tolerance <= 1)%Q ->
  (_values_match v1 v2 tolerance = true ->
   relative_difference_within
     (tolerance + (1 # 100000000000000000000000000)) v1 v2) /\
  (relative_difference_within
     (tolerance - (1 # 100000000000000000000000000)) v1 v2 ->
   _values_match v1 v2 tolerance = true).
Proof.
  intros v1 v2 tol Ht0 Ht1. split.
  - apply values_match_sound; assumption.
  - apply values_match_complete; assumption.
Qed.

Lemma values_match_relative_difference_witness :
  relative_difference_within
    ((1 # 100) + (1 # 100000000000000000000000000)) 100 101.
Proof.
  refine (proj1 (values_match_relative_difference 100%Q 101%Q (1 # 100)%Q _ _) _).
  - unfold Qle; cbn; lia.
  - unfold Qle; cbn; lia.
  - vm_compute. reflexivity.
Defined.

End ValueTolerance.

Section CandidateSearch.

Import Recon.

Lemma get_trades_for_symbol_sound : forall self symbol isin t,
  In t (get_trades_for_symbol self symbol isin) ->
  In t (tradebook_trades self) /\
  (t_symbol t = symbol \/ (isin <> None /\ t_isin t = isin)).
Proof.
  intros self symbol isin t H.
  assert (Hs : In t (trades_by_symbol self symbol) ->
               In t (tradebook_trades self) /\ t_symbol t = symbol).
  { intros Hin. unfold trades_by_symbol in Hin. apply filter_In in Hin.
    destruct Hin as [Hin Hc]. apply andb_true_iff in Hc. destruct Hc as [_ Hc].
    apply String.eqb_eq in Hc. auto. }
  unfold get_trades_for_symbol in H. destruct isin as [i|].
  - destruct (truthy i && _).
    + unfold trades_by_isin in H. apply filter_In in H. destruct H as [Hin Hc].
      split; [exact Hin|]. right. split; [discriminate|].
      destruct (t_isin t) as [j|]; [|discriminate].
      apply andb_true_iff in Hc. destruct Hc as [_ Hc].
      apply String.eqb_eq in Hc. congruence.
    + destruct (Hs H). auto.
  - destruct (Hs H). auto.
Qed.

(** The trades [find_matching_buy] searches: the buys of the entry's
    security. *)
Definition candidate_buys (self : ReconciliationService) (entry : TaxPnlEntry)
    : list TradebookTrade :=
  filter is_buy (get_trades_for_symbol self (e_symbol entry) (e_isin entry)).

Definition value_matches (entry : TaxPnlEntry) (trade : TradebookTrade) : bool :=
  _values_match (trade_value trade) (e_buy_value entry) VALUE_TOLERANCE.

Lemma find_matching_buy_cases : forall self entry,
  match find_matching_buy self entry with
  | Some trade =>
      In trade (candidate_buys self entry) /\
      value_matches entry trade = true /\
      Z.abs (t_trade_date trade - e_entry_date entry) <= 1 /\
      (t_trade_date trade <> e_entry_date entry ->
       forall t, In t (candidate_buys self entry) ->
         t_trade_date t = e_entry_date entry -> value_matches entry t = false)
  | None =>
      forall t, In t (candidate_buys self entry) ->
        Z.abs (t_trade_date t - e_entry_date entry) <= 1 ->
        value_matches entry t = false
  end.
Proof.
  intros self entry. unfold find_matching_buy.
  fold (candidate_buys self entry).
  destruct (find _ (candidate_buys self entry)) as [t1|] eqn:E1.
  - apply find_some in E1. destruct E1 as [Hin Hc].
    apply andb_true_iff in Hc. destruct Hc as [Hd Hv]. apply Z.eqb_eq in Hd.
    split; [exact Hin|]. split; [exact Hv|]. split; [lia|].
    intros Hne. contradiction.
  - match goal with
    | |- context [find ?f ?l] => destruct (find f l) as [t2|] eqn:E2
    end.
    + apply find_some in E2. destruct E2 as [Hin Hc].
      apply andb_true_iff in Hc. destruct Hc as [Hd Hv]. apply Z.leb_le in Hd.
      split; [exact Hin|]. split; [exact Hv|]. split; [exact Hd|].
      intros _ t Ht Hdate.
      pose proof (find_none _ _ E1 t Ht) as Hn. cbv beta in Hn.
      apply andb_false_iff in Hn. destruct Hn as [Hn|Hn]; [|exact Hn].
      apply Z.eqb_neq in Hn. contradiction.
    + intros t Ht Hd.
      pose proof (find_none _ _ E2 t Ht) as Hn. cbv beta in Hn.
      apply andb_false_iff in Hn. destruct Hn as [Hn|Hn]; [|exact Hn].
      apply Z.leb_gt in Hn. lia.
Qed.

(** X3: the candidate [find_matching_buy] returns is a buy of the tradebook
    for the entry's symbol or ISIN, dated at most one day from the entry
    date, whose value matches the entry's buy value within 1%; a trade
    dated a day off is returned only when no buy on the entry date itself
    matches in value. *)
Theorem find_matching_buy_candidate : forall self entry trade,
  find_matching_buy self entry = Some trade ->
  In trade (tradebook_trades self) /\
  t_trade_type trade = Fifo.Buy /\
  (t_symbol trade = e_symbol entry \/
   (e_isin entry <> None /\ t_isin trade = e_isin entry)) /\
  Z.abs (t_trade_date trade - e_entry_date entry) <= 1 /\
  _values_match (trade_value trade) (e_buy_value entry) VALUE_TOLERANCE = true /\
  (t_trade_date trade <> e_entry_date entry ->
   forall t, In t (get_trades_for_symbol self (e_symbol entry) (e_isin entry)) ->
     t_trade_type t = Fifo.Buy -> t_trade_date t = e_entry_date entry ->
     _values_match (trade_value t) (e_buy_value entry) VALUE_TOLERANCE = false).
Proof.
  intros self entry trade H.
  pose proof (find_matching_buy_cases self entry) as Hc. rewrite H in Hc.
  destruct Hc as (Hin & Hv & Hd & Hpref).
  unfold candidate_buys in Hin. apply filter_In in Hin. destruct Hin as [Hin Hb].
  destruct (get_trades_for_symbol_sound _ _ _ _ Hin) as [Hbook Hsec].
  split; [exact Hbook|]. split.
  { unfold is_buy in Hb. destruct (t_trade_type trade); [reflexivity|discriminate]. }
  split; [exact Hsec|]. split; [exact Hd|]. split; [exact Hv|].
  intros Hne t Ht Hbuy Hdate. apply (Hpref Hne t); [|exact Hdate].
  unfold candidate_buys. apply filter_In. split; [exact Ht|].
  unfold is_buy. rewrite Hbuy. reflexivity.
Qed.

(** X4: [find_matching_buy] returns None exactly when no buy of the entry's
    security dated within one day of the entry date matches its buy value. *)
Theorem find_matching_buy_none : forall self entry,
  find_matching_buy self entry = None <->
  (forall t, In t (get_trades_for_symbol self (e_symbol entry) (e_isin entry)) ->
     t_trade_type t = Fifo.Buy ->
     Z.abs (t_trade_date t - e_entry_date entry) <= 1 ->
     _values_match (trade_value t) (e_buy_value entry) VALUE_TOLERANCE = false).
Proof.
  intros self entry.
  pose proof (find_matching_buy_cases self entry) as Hc. split.
  - intros H. rewrite H in Hc. intros t Ht Hbuy Hd. apply Hc; [|exact Hd].
    unfold candidate_buys. apply filter_In. split; [exact Ht|].
    unfold is_buy. rewrite Hbuy. reflexivity.
  - intros H. destruct (find_matching_buy self entry) as [trade|]; [|reflexivity].
    destruct Hc as (Hin & Hv & Hd & _).
    unfold candidate_buys in Hin. apply filter_In in Hin. destruct Hin as [Hin Hb].
    assert (Hbuy : t_trade_type trade = Fifo.Buy).
    { unfold is_buy in Hb. destruct (t_trade_type trade); [reflexivity|discriminate]. }
    specialize (H trade Hin Hbuy Hd). unfold value_matches in Hv. congruence.
Qed.

(** A tradebook of one buy of 100 units at 100 on day 10, and four report
    entries: the same lot; a lot bought on day 5, before the tradebook
    starts; 150 units for the same value bought on day 11; and a lot of a
    symbol the tradebook does not have. *)
Definition sample_buy : TradebookTrade :=
  mkTradebookTrade "INFY" (Some "INE009A01021"%string) Fifo.Buy 10 100 100%Q "T1".

Definition sample_matching_entry : TaxPnlEntry :=
  mkTaxPnlEntry "INFY" (Some "INE009A01021"%string) 10 400 100 10000%Q (Some "2024-2025"%string).

Definition sample_early_entry : TaxPnlEntry :=
  mkTaxPnlEntry "INFY" (Some "INE009A01021"%string) 5 400 100 10000%Q (Some "2024-2025"%string).

Definition sample_bonus_entry : TaxPnlEntry :=
  mkTaxPnlEntry "INFY" (Some "INE009A01021"%string) 11 400 150 10000%Q (Some "2024-2025"%string).

Definition sample_unknown_entry : TaxPnlEntry :=
  mkTaxPnlEntry "TCS" None 12 400 10 5000%Q (Some "2024-2025"%string).

Definition sample_service : ReconciliationService :=
  mkService [sample_buy]
    [sample_matching_entry; sample_early_entry; sample_bonus_entry;
     sample_unknown_entry].

Lemma find_matching_buy_candidate_witness :
  find_matching_buy sample_service sample_bonus_entry = Some sample_buy /\
  In sample_buy (tradebook_trades sample_service) /\
  t_trade_type sample_buy = Fifo.Buy /\
  (t_symbol sample_buy = e_symbol sample_bonus_entry \/
   (e_isin sample_bonus_entry <> None /\
    t_isin sample_buy = e_isin sample_bonus_entry)) /\
  Z.abs (t_trade_date sample_buy - e_entry_date sample_bonus_entry) <= 1 /\
  _values_match (trade_value sample_buy) (e_buy_value sample_bonus_entry)
                VALUE_TOLERANCE = true /\
  (t_trade_date sample_buy <> e_entry_date sample_bonus_entry ->
   forall t,
     In t (get_trades_for_symbol sample_service (e_symbol sample_bonus_entry)
             (e_isin sample_bonus_entry)) ->
     t_trade_type t = Fifo.Buy ->
     t_trade_date t = e_entry_date sample_bonus_entry ->
     _values_match (trade_value t) (e_buy_value sample_bonus_entry)
                   VALUE_TOLERANCE = false).
Proof.
  assert (H : find_matching_buy sample_service sample_bonus_entry = Some sample_buy)
    by (vm_compute; reflexivity).
  split; [exact H|].
  exact (find_matching_buy_candidate sample_service sample_bonus_entry sample_buy H).
Defined.

End CandidateSearch.

Section ReconcileRuns.

Import Recon.

(** The entries [reconcile] goes through. *)
Definition selected_entries (self : ReconciliationService)
    (financial_year : option string) : list TaxPnlEntry :=
  match financial_year with
  | Some fy =>
      if truthy fy
      then filter (fun e => match e_financial_year e with
                            | Some y => String.eqb y fy
                            | None => false
                            end) (taxpnl_entries self)
      else taxpnl_entries self
  | None => taxpnl_entries self
  end.

(** What one outcome adds to each of the four lists. *)
Definition outcome_matched (o : Outcome) : list MatchedEntry :=
  match o with Matched m => [m] | _ => [] end.

Definition outcome_discrepancies (o : Outcome) : list Discrepancy :=
  match o with Proposed _ d | Unexplained d => [d] | _ => [] end.

Definition outcome_actions (o : Outcome) : list DetectedAction :=
  match o with Proposed a _ => [a] | _ => [] end.

Definition outcome_missing (o : Outcome) : list TaxPnlEntry :=
  match o with MissingTradebook e => [e] | _ => [] end.

Lemma reconcile_loop_outcomes : forall self entries r r',
  reconcile_loop self entries r = Return r' ->
  exists outcomes,
    Forall2 (fun e o => reconcile_entry self e = Return o) entries outcomes /\
    matched r' = matched r ++ flat_map outcome_matched outcomes /\
    discrepancies r' = discrepancies r ++ flat_map outcome_discrepancies outcomes /\
    corporate_actions r' = corporate_actions r ++ flat_map outcome_actions outcomes /\
    missing_tradebook_entries r'
      = missing_tradebook_entries r ++ flat_map outcome_missing outcomes.
Proof.
  intros self entries. induction entries as [|e rest IH]; intros r r' H.
  - cbn in H. injection H as <-. exists []. cbn. rewrite !app_nil_r.
    repeat split. constructor.
  - cbn [reconcile_loop] in H.
    destruct (reconcile_entry self e) as [o|x] eqn:Ho; [|discriminate].
    destruct (IH _ _ H) as (os & HF & Hm & Hd & Ha & Hmi).
    exists (o :: os). split; [constructor; assumption|].
    rewrite Hm, Hd, Ha, Hmi.
    destruct o; cbn; rewrite <- ?app_assoc; cbn; repeat split; reflexivity.
Qed.

Lemma reconcile_outcomes : forall self fy r,
  reconcile self fy = Return r ->
  exists outcomes,
    Forall2 (fun e o => reconcile_entry self e = Return o)
            (selected_entries self fy) outcomes /\
    matched r = flat_map outcome_matched outcomes /\
    discrepancies r = flat_map outcome_discrepancies outcomes /\
    corporate_actions r = flat_map outcome_actions outcomes /\
    missing_tradebook_entries r = flat_map outcome_missing outcomes /\
    total_taxpnl_entries (summary r) = len (selected_entries self fy) /\
    n_matched (summary r) = len (matched r) /\
    n_discrepancies (summary r) = len (discrepancies r) /\
    n_corporate_actions (summary r) = len (corporate_actions r) /\
    n_missing_tradebook_entries (summary r) = len (missing_tradebook_entries r).
Proof.
  intros self fy r H. unfold reconcile in H.
  fold (selected_entries self fy) in H.
  destruct (reconcile_loop self (selected_entries self fy) _) as [r0|x] eqn:Hl;
    [|discriminate].
  destruct (reconcile_loop_outcomes _ _ _ _ Hl) as (os & HF & Hm & Hd & Ha & Hmi).
  cbn in Hm, Hd, Ha, Hmi. injection H as <-. cbn.
  exists os. repeat split; assumption.
Qed.

Lemma reconcile_returns : forall self fy,
  (forall e, In e (selected_entries self fy) ->
     exists o, reconcile_entry self e = Return o) ->
  exists r, reconcile self fy = Return r.
Proof.
  intros self fy H. unfold reconcile. fold (selected_entries self fy).
  assert (L : forall entries r0,
            (forall e, In e entries -> exists o, reconcile_entry self e = Return o) ->
            exists r, reconcile_loop self entries r0 = Return r).
  { induction entries as [|e rest IH]; intros r0 Hall.
    - exists r0. reflexivity.
    - cbn [reconcile_loop]. destruct (Hall e (or_introl eq_refl)) as [o Ho].
      rewrite Ho. apply IH. intros e' He'. apply Hall. right. exact He'. }
  destruct (L (selected_entries self fy)
              (mkResult [] [] [] [] (mkSummary 0 0 0 0 0 0%Q)) H) as [r0 Hr0].
  rewrite Hr0. eexists. reflexivity.
Qed.

Lemma len_app : forall (A : Type) (l1 l2 : list A), len (l1 ++ l2) = len l1 + len l2.
Proof. intros. unfold len. rewrite length_app. lia. Qed.

Lemma outcome_counts : forall outcomes,
  len outcomes = len (flat_map outcome_matched outcomes)
                 + len (flat_map outcome_discrepancies outcomes)
                 + len (flat_map outcome_missing outcomes) /\
  len (flat_map outcome_actions outcomes)
    <= len (flat_map outcome_discrepancies outcomes).
Proof.
  induction outcomes as [|o os [IH1 IH2]]; [cbn; lia|].
  change (o :: os) with ([o] ++ os). rewrite !flat_map_app, !len_app.
  destruct o; cbn [flat_map outcome_matched outcome_discrepancies outcome_actions
                   outcome_missing app];
    change (len (@nil MatchedEntry)) with 0;
    change (len (@nil Discrepancy)) with 0;
    change (len (@nil DetectedAction)) with 0;
    change (len (@nil TaxPnlEntry)) with 0;
    repeat match goal with
           | |- context [len [?x]] => change (len [x]) with 1
           end; lia.
Qed.

(** The tradebook's quantities and prices are positive, as the trades
    table requires of its rows. *)
Definition trades_positive (self : ReconciliationService) : Prop :=
  Forall (fun t => 0 < t_quantity t /\ (0 < t_price t)%Q) (tradebook_trades self).

Lemma find_matching_buy_in : forall self entry trade,
  find_matching_buy self entry = Some trade -> In trade (tradebook_trades self).
Proof.
  intros self entry trade H.
  assert (Hin : In trade (filter is_buy
            (get_trades_for_symbol self (e_symbol entry) (e_isin entry)))).
  { unfold find_matching_buy in H.
    destruct (find _ _) as [t|] eqn:E in H.
    - injection H as <-. apply find_some in E. apply E.
    - apply find_some in H. apply H. }
  apply filter_In in Hin. destruct Hin as [Hin _].
  unfold get_trades_for_symbol in Hin.
  assert (Hs : forall s, In trade (trades_by_symbol self s) ->
               In trade (tradebook_trades self)).
  { intros s Hs. unfold trades_by_symbol in Hs. apply filter_In in Hs. apply Hs. }
  destruct (e_isin entry) as [i|]; [|eauto].
  destruct (truthy i && _); [|eauto].
  unfold trades_by_isin in Hin. apply filter_In in Hin. apply Hin.
Qed.

Lemma price_nonzero : forall p : Q, (0 < p)%Q -> Dec.eqb p 0%Q = false.
Proof.
  intros p Hp. unfold Dec.eqb. destruct (Qeq_bool p 0) eqn:E; [|reflexivity].
  apply Qeq_bool_eq in E. rewrite E in Hp. exfalso. exact (Qlt_irrefl 0 Hp).
Qed.

(** With positive quantities and prices no division of the detectors has a
    zero divisor. *)
Lemma reconcile_entry_returns : forall self entry,
  trades_positive self -> exists o, reconcile_entry self entry = Return o.
Proof.
  intros self entry Hpos. unfold reconcile_entry.
  destruct (match earliest_tradebook_date self with
            | Some earliest => e_entry_date entry <? earliest
            | None => false
            end); [eexists; reflexivity|].
  destruct (find_matching_buy self entry) as [trade|] eqn:Hfind;
    [|eexists; reflexivity].
  destruct ((t_quantity trade =? e_quantity entry) && _); [eexists; reflexivity|].
  pose proof (find_matching_buy_in _ _ _ Hfind) as Hin.
  unfold trades_positive in Hpos. rewrite Forall_forall in Hpos.
  destruct (Hpos trade Hin) as [Hq Hp].
  pose proof (detect_stock_split_spec trade entry ltac:(lia) (price_nonzero _ Hp))
    as Hsplit.
  destruct (detect_stock_split trade entry) as [[sa|]|x];
    [eexists; reflexivity| |contradiction].
  assert (Hb : exists ob, detect_bonus_issue trade entry = Return ob).
  { unfold detect_bonus_issue. destruct (negb _); [eexists; reflexivity|].
    destruct (e_quantity entry <=? t_quantity trade); [eexists; reflexivity|].
    destruct (Z.eqb_spec (t_quantity trade) 0); [lia|]. eexists; reflexivity. }
  destruct Hb as [[ba|] Hb]; rewrite Hb; eexists; reflexivity.
Qed.

(** X6: [reconcile] returns a result for every tradebook with positive
    quantities and prices: none of the divisions by a trade's quantity or
    price can fail. *)
Theorem reconcile_never_raises : forall self financial_year,
  trades_positive self ->
  exists r, reconcile self financial_year = Return r.
Proof.
  intros self fy Hpos. apply reconcile_returns.
  intros e _. apply reconcile_entry_returns. exact Hpos.
Qed.

Lemma entry_never_price_mismatch : forall self entry o d,
  reconcile_entry self entry = Return o ->
  In d (outcome_discrepancies o) ->
  d_discrepancy_type d <> price_mismatch.
Proof.
  intros self entry o d H Hd. unfold reconcile_entry in H.
  destruct (match earliest_tradebook_date self with
            | Some earliest => e_entry_date entry <? earliest
            | None => false
            end).
  { injection H as <-. destruct Hd. }
  destruct (find_matching_buy self entry) as [trade|] eqn:Hfind.
  - pose proof (find_matching_buy_values _ _ _ Hfind) as Hv.
    rewrite Hv, andb_true_r in H.
    destruct (t_quantity trade =? e_quantity entry) eqn:Hq.
    { injection H as <-. destruct Hd. }
    cbn [negb] in H.
    destruct (detect_stock_split trade entry) as [[sa|]|x]; [| |discriminate].
    { injection H as <-. cbn in Hd. destruct Hd as [<-|[]]. cbn. discriminate. }
    destruct (detect_bonus_issue trade entry) as [[ba|]|x]; [| |discriminate].
    { injection H as <-. cbn in Hd. destruct Hd as [<-|[]]. cbn. discriminate. }
    injection H as <-. cbn in Hd. destruct Hd as [<-|[]]. cbn. discriminate.
  - injection H as <-. cbn in Hd. destruct Hd as [<-|[]]. cbn. discriminate.
Qed.

Lemma flat_map_forall : forall (A B : Type) (P : B -> Prop) (f : A -> list B)
    (Q : A -> Prop) (l : list A),
  (forall a, Q a -> forall b, In b (f a) -> P b) ->
  Forall Q l -> Forall P (flat_map f l).
Proof.
  intros A B P f Q l H HF. apply Forall_forall. intros b Hb.
  apply in_flat_map in Hb. destruct Hb as (a & Ha & Hb).
  rewrite Forall_forall in HF. exact (H a (HF a Ha) b Hb).
Qed.

Lemma outcomes_forall : forall self entries outcomes,
  Forall2 (fun e o => reconcile_entry self e = Return o) entries outcomes ->
  Forall (fun o => exists e, In e entries /\ reconcile_entry self e = Return o)
         outcomes.
Proof.
  intros self entries outcomes H. induction H as [|e o es os He HF IH].
  - constructor.
  - constructor.
    + exists e. split; [left; reflexivity | exact He].
    + eapply Forall_impl; [|exact IH]. cbv beta.
      intros o' (e' & Hin & He'). exists e'. split; [right; exact Hin | exact He'].
Qed.

(** X7: [reconcile] never reports a discrepancy of type price_mismatch: a
    candidate always matches in value, so a pair that is neither a match nor
    a corporate action differs in quantity. *)
Theorem reconcile_never_price_mismatch : forall self financial_year r,
  reconcile self financial_year = Return r ->
  Forall (fun d => d_discrepancy_type d <> price_mismatch) (discrepancies r).
Proof.
  intros self fy r H.
  destruct (reconcile_outcomes self fy r H) as (os & HF & _ & Hd & _).
  rewrite Hd.
  apply (flat_map_forall _ _ _ _ _ _
           (fun o (Ho : exists e, In e (selected_entries self fy) /\
                                  reconcile_entry self e = Return o) d Hin =>
              match Ho with
              | ex_intro _ e (conj _ He) =>
                  entry_never_price_mismatch self e o d He Hin
              end)).
  exact (outcomes_forall _ _ _ HF).
Qed.

Lemma bonus_loop_some : forall trade entry qr table a,
  bonus_loop trade entry qr table = Some a ->
  da_action_type a = Models.bonus /\
  exists n d x, In (n, d, x) table /\
    Flt.ltb (Flt.abs (Flt.sub qr x)) f_0_01 = true /\
    da_ratio_from a = d /\ da_ratio_to a = n.
Proof.
  intros trade entry qr table a. induction table as [|[[n d] x] rest IH]; intros H.
  - discriminate.
  - cbn [bonus_loop] in H.
    destruct (Flt.ltb (Flt.abs (Flt.sub qr x)) f_0_01) eqn:Hc.
    + assert (Hty : da_action_type a = Models.bonus).
      { apply (f_equal (fun o => match o with
                                 | Some y => da_action_type y
                                 | None => Models.bonus
                                 end)) in H.
        cbn [da_action_type] in H. symmetry. exact H. }
      assert (Hfrom : da_ratio_from a = d).
      { apply (f_equal (fun o => match o with
                                 | Some y => da_ratio_from y
                                 | None => d
                                 end)) in H.
        cbn [da_ratio_from] in H. symmetry. exact H. }
      assert (Hto : da_ratio_to a = n).
      { apply (f_equal (fun o => match o with
                                 | Some y => da_ratio_to y
                                 | None => n
                                 end)) in H.
        cbn [da_ratio_to] in H. symmetry. exact H. }
      split; [exact Hty|]. exists n, d, x. split; [left; reflexivity|]. auto.
    + destruct (IH H) as (Hty & n' & d' & x' & Hin & Hrest).
      split; [exact Hty|]. exists n', d', x'. split; [right; exact Hin|exact Hrest].
Qed.

Lemma flt_of_int_small : forall z, Z.abs z < 2 ^ 53 -> Flt.of_int z = inject_Z z.
Proof. intros z H. unfold Flt.of_int. apply flt_int_exact. exact H. Qed.

(** A bonus test on a whole number of the ratio table is the split
    detector's ratio test. *)
Lemma bonus_test_is_split_test : forall trade entry ratio,
  Z.abs ratio < 2 ^ 53 ->
  Flt.ltb (Flt.abs (Flt.sub (true_div (e_quantity entry) (t_quantity trade))
                            (inject_Z ratio))) f_0_01 = true ->
  ratio_within trade entry ratio = true.
Proof.
  intros trade entry ratio Hr H. unfold ratio_within, ratio_gap.
  rewrite (flt_of_int_small ratio Hr). exact H.
Qed.

Lemma entry_bonus_ratio : forall self entry a d,
  trades_positive self ->
  reconcile_entry self entry = Return (Proposed a d) ->
  da_action_type a = Models.bonus ->
  da_ratio_from a = 2 /\ da_ratio_to a = 1.
Proof.
  intros self entry a d Hpos H Hty. unfold reconcile_entry in H.
  destruct (match earliest_tradebook_date self with
            | Some earliest => e_entry_date entry <? earliest
            | None => false
            end); [discriminate|].
  destruct (find_matching_buy self entry) as [trade|] eqn:Hfind; [|discriminate].
  destruct ((t_quantity trade =? e_quantity entry) && _); [discriminate|].
  pose proof (find_matching_buy_in _ _ _ Hfind) as Hin.
  unfold trades_positive in Hpos. rewrite Forall_forall in Hpos.
  destruct (Hpos trade Hin) as [Hq Hp].
  pose proof (detect_stock_split_spec trade entry ltac:(lia) (price_nonzero _ Hp))
    as Hsplit.
  destruct (detect_stock_split trade entry) as [[sa|]|x]; [| |contradiction].
  { destruct Hsplit as (_ & r & _ & _ & _ & Hsa).
    assert (Ea : a = sa) by congruence. subst a. rewrite Hsa in Hty.
    discriminate. }
  destruct (detect_bonus_issue trade entry) as [[ba|]|x] eqn:Hb;
    [|discriminate|discriminate].
  assert (Ea : a = ba) by congruence. subst ba. clear H.
  unfold detect_bonus_issue in Hb.
  destruct (negb _); [discriminate|].
  destruct (e_quantity entry <=? t_quantity trade); [discriminate|].
  destruct (t_quantity trade =? 0); [discriminate|].
  assert (Hloop : bonus_loop trade entry
                    (true_div (e_quantity entry) (t_quantity trade)) bonus_ratios
                  = Some a) by congruence.
  destruct (bonus_loop_some _ _ _ _ _ Hloop) as (_ & n & dd & x & Hx & Ht & Hf & Hto).
  assert (Hno : forall ratio, In ratio COMMON_SPLIT_RATIOS ->
            Flt.ltb (Flt.abs (Flt.sub (true_div (e_quantity entry) (t_quantity trade))
                                      (inject_Z ratio))) f_0_01 = true -> False).
  { intros ratio Hr Htest. apply Hsplit.
    assert (Hrw : ratio_within trade entry ratio = true).
    { apply bonus_test_is_split_test; [|exact Htest].
      unfold COMMON_SPLIT_RATIOS in Hr. cbn [In] in Hr.
      repeat (destruct Hr as [<-|Hr]; [cbn; lia|]). contradiction. }
    destruct (ratio_test_decides self entry trade ratio Hfind Hq Hp Hr Hrw)
      as (Hv & Hpw & _).
    split; [exact Hv|]. exists ratio. auto. }
  unfold bonus_ratios in Hx. cbn [In] in Hx.
  destruct Hx as [Hx|[Hx|[Hx|[Hx|[]]]]]; injection Hx as <- <- <-.
  - exfalso. apply (Hno 2); [cbn; auto|exact Ht].
  - auto.
  - exfalso. apply (Hno 3); [cbn; auto|exact Ht].
  - exfalso. apply (Hno 4); [cbn; auto|exact Ht].
Qed.

(** X8: for a tradebook with positive quantities and prices, every bonus
    issue [reconcile] proposes has ratio_from 2 and ratio_to 1 (the table's
    1.5 x entry): a quantity ratio near 2, 3 or 4 is taken by the split
    detector, which runs first. *)
Theorem reconcile_bonus_only_three_halves : forall self financial_year r,
  trades_positive self ->
  reconcile self financial_year = Return r ->
  Forall (fun a => da_action_type a = Models.bonus ->
                   da_ratio_from a = 2 /\ da_ratio_to a = 1)
         (corporate_actions r).
Proof.
  intros self fy r Hpos H.
  destruct (reconcile_outcomes self fy r H) as (os & HF & _ & _ & Ha & _).
  rewrite Ha.
  apply (flat_map_forall _ _ _ outcome_actions
           (fun o => exists e, In e (selected_entries self fy) /\
                               reconcile_entry self e = Return o));
    [|exact (outcomes_forall _ _ _ HF)].
  intros o (e & _ & He) a Hin. destruct o; cbn in Hin; try contradiction.
  destruct Hin as [<-|[]]. exact (entry_bonus_ratio self e action d Hpos He).
Qed.

Lemma reconcile_loop_map : forall self (f : TaxPnlEntry -> Outcome) entries r,
  (forall e, In e entries -> reconcile_entry self e = Return (f e)) ->
  reconcile_loop self entries r
  = Return (fold_left record_outcome (map f entries) r).
Proof.
  intros self f entries. induction entries as [|e rest IH]; intros r H.
  - reflexivity.
  - cbn [reconcile_loop map fold_left]. rewrite (H e (or_introl eq_refl)).
    apply IH. intros e' He'. apply H. right. exact He'.
Qed.

(** The discrepancy reported for an entry without a candidate. *)
Definition missing_trade_discrepancy (entry : TaxPnlEntry) : Discrepancy :=
  mkDiscrepancy (e_symbol entry) (e_isin entry) missing_trade
                None (Some entry) None warning.

Lemma empty_tradebook_entry : forall entries entry,
  reconcile_entry (mkService [] entries) entry
  = Return (Unexplained (missing_trade_discrepancy entry)).
Proof.
  intros entries entry. unfold reconcile_entry.
  cbn [earliest_tradebook_date tradebook_trades].
  assert (Hnone : find_matching_buy (mkService [] entries) entry = None).
  { unfold find_matching_buy, get_trades_for_symbol, trades_by_isin,
      trades_by_symbol. cbn [tradebook_trades filter].
    destruct (e_isin entry) as [i|]; [|reflexivity].
    cbn [List.length Nat.eqb negb]. rewrite andb_false_r. reflexivity. }
  rewrite Hnone. reflexivity.
Qed.

Lemma fold_unexplained : forall ds r,
  let r' := fold_left record_outcome (map Unexplained ds) r in
  matched r' = matched r /\
  discrepancies r' = discrepancies r ++ ds /\
  corporate_actions r' = corporate_actions r /\
  missing_tradebook_entries r' = missing_tradebook_entries r.
Proof.
  induction ds as [|d ds IH]; intros r; cbn [map fold_left].
  - rewrite app_nil_r. auto.
  - destruct (IH (record_outcome r (Unexplained d))) as (A & B & C & D).
    cbn [record_outcome matched discrepancies corporate_actions
         missing_tradebook_entries] in A, B, C, D.
    rewrite <- app_assoc in B. auto.
Qed.

(** X9: with an empty tradebook, [reconcile] matches nothing, proposes
    nothing and lists nothing as missing from the tradebook; every entry
    it goes through is reported as a missing_trade discrepancy of severity
    warning, in the order of the entries. *)
Theorem reconcile_empty_tradebook : forall entries financial_year,
  exists r,
    reconcile (mkService [] entries) financial_year = Return r /\
    matched r = [] /\
    corporate_actions r = [] /\
    missing_tradebook_entries r = [] /\
    discrepancies r
      = map missing_trade_discrepancy
            (selected_entries (mkService [] entries) financial_year) /\
    n_matched (summary r) = 0 /\
    n_discrepancies (summary r) = total_taxpnl_entries (summary r).
Proof.
  intros entries fy. unfold reconcile.
  fold (selected_entries (mkService [] entries) fy).
  set (sel := selected_entries (mkService [] entries) fy).
  rewrite (reconcile_loop_map (mkService [] entries)
             (fun e => Unexplained (missing_trade_discrepancy e)) sel);
    [|intros e _; apply empty_tradebook_entry].
  rewrite <- (map_map missing_trade_discrepancy Unexplained).
  destruct (fold_unexplained (map missing_trade_discrepancy sel)
              (mkResult [] [] [] [] (mkSummary 0 0 0 0 0 0%Q))) as (A & B & C & D).
  cbn [matched discrepancies corporate_actions missing_tradebook_entries app] in A, B, C, D.
  eexists. split; [reflexivity|].
  cbn [matched discrepancies corporate_actions missing_tradebook_entries summary
       n_matched n_discrepancies total_taxpnl_entries].
  rewrite A, B, C, D. repeat split.
  unfold len. rewrite length_map. reflexivity.
Qed.

Lemma fold_min_lt : forall x l a,
  (x <? fold_left Z.min l a) = ((x <? a) && forallb (fun y => x <? y) l).
Proof.
  intros x l. induction l as [|y l IH]; intros a; cbn [fold_left forallb].
  - rewrite andb_true_r. reflexivity.
  - rewrite IH. rewrite andb_assoc. f_equal.
    destruct (Z.ltb_spec x (Z.min a y)), (Z.ltb_spec x a), (Z.ltb_spec x y);
      cbn; try reflexivity; lia.
Qed.

(** The entry is dated before every trade of a tradebook that has trades. *)
Definition before_tradebook (self : ReconciliationService) (entry : TaxPnlEntry)
    : bool :=
  match tradebook_trades self with
  | [] => false
  | _ :: _ =>
      forallb (fun t => e_entry_date entry <? t_trade_date t) (tradebook_trades self)
  end.

Lemma before_history_test : forall self entry,
  (match earliest_tradebook_date self with
   | Some earliest => e_entry_date entry <? earliest
   | None => false
   end) = before_tradebook self entry.
Proof.
  intros self entry. unfold earliest_tradebook_date, before_tradebook.
  destruct (tradebook_trades self) as [|t ts]; [reflexivity|].
  rewrite fold_min_lt. cbn [forallb]. f_equal.
  induction ts as [|t' ts IH]; [reflexivity|]. cbn [map forallb]. rewrite IH.
  reflexivity.
Qed.

Lemma entry_missing_iff : forall self entry o,
  reconcile_entry self entry = Return o ->
  outcome_missing o = if before_tradebook self entry then [entry] else [].
Proof.
  intros self entry o H. unfold reconcile_entry in H.
  rewrite before_history_test in H.
  destruct (before_tradebook self entry).
  - injection H as <-. reflexivity.
  - destruct (find_matching_buy self entry) as [trade|].
    + destruct (_ && _); [injection H as <-; reflexivity|].
      destruct (detect_stock_split trade entry) as [[sa|]|x];
        [injection H as <-; reflexivity| |discriminate].
      destruct (detect_bonus_issue trade entry) as [[ba|]|x];
        [injection H as <-; reflexivity|injection H as <-; reflexivity|discriminate].
    + injection H as <-. reflexivity.
Qed.

(** X10: the entries [reconcile] lists as missing from the tradebook are
    exactly the entries it goes through that are dated before every trade
    of the (non-empty) tradebook, in their order; such entries reach no
    other list. *)
Theorem reconcile_missing_tradebook_entries : forall self financial_year r,
  reconcile self financial_year = Return r ->
  missing_tradebook_entries r
  = filter (before_tradebook self) (selected_entries self financial_year).
Proof.
  intros self fy r H.
  destruct (reconcile_outcomes self fy r H) as (os & HF & _ & _ & _ & Hmi & _).
  rewrite Hmi. clear Hmi H.
  induction HF as [|e o es os He HF IH]; [reflexivity|].
  cbn [flat_map filter]. rewrite IH, (entry_missing_iff self e o He).
  destruct (before_tradebook self e); reflexivity.
Qed.

(** The entry is a perfect match: it is not dated before the tradebook and
    its candidate has the same quantity and a matching value. *)
Definition perfect_match (self : ReconciliationService) (entry : TaxPnlEntry)
    : bool :=
  negb (before_tradebook self entry) &&
  match find_matching_buy self entry with
  | Some matching_trade =>
      (t_quantity matching_trade =? e_quantity entry) &&
      _values_match (trade_value matching_trade) (e_buy_value entry) VALUE_TOLERANCE
  | None => false
  end.

(** The entry is neither dated before the tradebook nor a perfect match. *)
Definition unmatched (self : ReconciliationService) (entry : TaxPnlEntry) : bool :=
  negb (before_tradebook self entry) && negb (perfect_match self entry).

(** What a matched record and a missing-entry record say of their entry. *)
Definition matched_data (m : MatchedEntry)
    : string * option string * date * Z * Flt.float :=
  (m_symbol m, m_isin m, m_entry_date m, m_quantity m, m_buy_value m).

Definition entry_data (e : TaxPnlEntry)
    : string * option string * date * Z * Flt.float :=
  (e_symbol e, e_isin e, e_entry_date e, e_quantity e, Flt.rnd (e_buy_value e)).

Lemma entry_lists : forall self entry o,
  reconcile_entry self entry = Return o ->
  map matched_data (outcome_matched o)
    = map entry_data (filter (perfect_match self) [entry]) /\
  map d_taxpnl_data (outcome_discrepancies o)
    = map Some (filter (unmatched self) [entry]) /\
  outcome_missing o = filter (before_tradebook self) [entry].
Proof.
  intros self entry o H. unfold reconcile_entry in H.
  rewrite before_history_test in H.
  cbn [filter]. unfold unmatched, perfect_match.
  destruct (before_tradebook self entry); cbn [negb andb].
  { injection H as <-. repeat split. }
  destruct (find_matching_buy self entry) as [trade|].
  - destruct ((t_quantity trade =? e_quantity entry) && _); cbn [negb].
    { injection H as <-. repeat split. }
    destruct (detect_stock_split trade entry) as [[sa|]|x]; [| |discriminate].
    { injection H as <-. repeat split. }
    destruct (detect_bonus_issue trade entry) as [[ba|]|x]; [| |discriminate].
    { injection H as <-. repeat split. }
    injection H as <-. repeat split.
  - injection H as <-. repeat split.
Qed.

Lemma filter_cons_app : forall (A : Type) (f : A -> bool) (x : A) (l : list A),
  filter f (x :: l) = filter f [x] ++ filter f l.
Proof. intros A f x l. cbn [filter]. destruct (f x); reflexivity. Qed.

Lemma reconcile_lists : forall self entries outcomes,
  Forall2 (fun e o => reconcile_entry self e = Return o) entries outcomes ->
  map matched_data (flat_map outcome_matched outcomes)
    = map entry_data (filter (perfect_match self) entries) /\
  map d_taxpnl_data (flat_map outcome_discrepancies outcomes)
    = map Some (filter (unmatched self) entries) /\
  flat_map outcome_missing outcomes = filter (before_tradebook self) entries.
Proof.
  intros self entries outcomes HF.
  induction HF as [|e o es os He HF (IH1 & IH2 & IH3)]; [repeat split|].
  destruct (entry_lists self e o He) as (E1 & E2 & E3).
  cbn [flat_map].
  rewrite (filter_cons_app _ (perfect_match self)),
          (filter_cons_app _ (unmatched self)),
          (filter_cons_app _ (before_tradebook self)).
  rewrite !map_app, IH1, IH2, IH3, E1, E2, E3. repeat split.
Qed.

(** X5: every Tax P&L entry [reconcile] goes through lands in exactly one of
    the lists matched, discrepancies and missing_tradebook_entries, in the
    order of the entries: the entries dated before the tradebook are the
    missing ones, the perfect matches are the matched ones and all others
    are reported as discrepancies.  So total_taxpnl_entries, the number of
    entries gone through, is the sum of the three counts of the summary,
    which are the lengths of the lists; each proposed corporate action comes
    with a discrepancy. *)
Theorem reconcile_summary_counts : forall self financial_year r,
  reconcile self financial_year = Return r ->
  total_taxpnl_entries (summary r) = len (selected_entries self financial_year) /\
  map matched_data (matched r)
    = map entry_data
        (filter (perfect_match self) (selected_entries self financial_year)) /\
  map d_taxpnl_data (discrepancies r)
    = map Some (filter (unmatched self) (selected_entries self financial_year)) /\
  missing_tradebook_entries r
    = filter (before_tradebook self) (selected_entries self financial_year) /\
  (forall entry,
     Z.b2z (perfect_match self entry) + Z.b2z (unmatched self entry)
     + Z.b2z (before_tradebook self entry) = 1) /\
  total_taxpnl_entries (summary r)
    = n_matched (summary r) + n_discrepancies (summary r)
      + n_missing_tradebook_entries (summary r) /\
  n_corporate_actions (summary r) <= n_discrepancies (summary r) /\
  n_matched (summary r) = len (matched r) /\
  n_discrepancies (summary r) = len (discrepancies r) /\
  n_corporate_actions (summary r) = len (corporate_actions r) /\
  n_missing_tradebook_entries (summary r) = len (missing_tradebook_entries r).
Proof.
  intros self fy r H.
  destruct (reconcile_outcomes self fy r H)
    as (os & HF & Hm & Hd & Ha & Hmi & S1 & S2 & S3 & S4 & S5).
  destruct (outcome_counts os) as [C1 C2].
  destruct (reconcile_lists self _ _ HF) as (L1 & L2 & L3).
  assert (Hlen : len (selected_entries self fy) = len os).
  { unfold len. rewrite (Forall2_length HF). reflexivity. }
  split; [exact S1|].
  split; [rewrite Hm; exact L1|].
  split; [rewrite Hd; exact L2|].
  split; [rewrite Hmi; exact L3|].
  split.
  { intros entry. unfold unmatched, perfect_match.
    destruct (before_tradebook self entry); cbn [negb andb]; [reflexivity|].
    destruct (match find_matching_buy self entry with
              | Some t => _
              | None => false
              end); reflexivity. }
  rewrite S1, S2, S3, S4, S5, Hm, Hd, Ha, Hmi, Hlen.
  repeat split; assumption.
Qed.

(** What [reconcile] returns for the sample service. *)
Definition sample_result : ReconciliationResult := Eval vm_compute in
    match reconcile sample_service None with
    | Return r => r
    | Raise _ => mkResult [] [] [] [] (mkSummary 0 0 0 0 0 0%Q)
    end.

Lemma reconcile_summary_counts_witness :
  reconcile sample_service None = Return sample_result /\
  total_taxpnl_entries (summary sample_result) = 4 /\
  total_taxpnl_entries (summary sample_result)
    = n_matched (summary sample_result) + n_discrepancies (summary sample_result)
      + n_missing_tradebook_entries (summary sample_result) /\
  n_corporate_actions (summary sample_result)
    <= n_discrepancies (summary sample_result).
Proof.
  assert (H : reconcile sample_service None = Return sample_result)
    by (vm_compute; reflexivity).
  split; [exact H|].
  destruct (reconcile_summary_counts sample_service None sample_result H)
    as (T & _ & _ & _ & _ & A & B & _).
  split; [exact T|]. split; [exact A | exact B].
Defined.

Lemma reconcile_never_raises_witness :
  trades_positive sample_service /\
  exists r, reconcile sample_service (Some "2024-2025"%string) = Return r.
Proof.
  assert (H : trades_positive sample_service).
  { unfold trades_positive. cbn. constructor; [|constructor]. split; reflexivity. }
  split; [exact H|].
  exact (reconcile_never_raises sample_service (Some "2024-2025"%string) H).
Defined.

Lemma reconcile_never_price_mismatch_witness :
  reconcile sample_service None = Return sample_result /\
  Forall (fun d => d_discrepancy_type d <> price_mismatch)
         (discrepancies sample_result).
Proof.
  assert (H : reconcile sample_service None = Return sample_result)
    by (vm_compute; reflexivity).
  split; [exact H|].
  exact (reconcile_never_price_mismatch sample_service None sample_result H).
Defined.

Lemma reconcile_bonus_only_three_halves_witness :
  trades_positive sample_service /\
  reconcile sample_service None = Return sample_result /\
  Forall (fun a => da_action_type a = Models.bonus ->
                   da_ratio_from a = 2 /\ da_ratio_to a = 1)
         (corporate_actions sample_result).
Proof.
  assert (Hp : trades_positive sample_service).
  { unfold trades_positive. cbn. constructor; [|constructor]. split; reflexivity. }
  assert (H : reconcile sample_service None = Return sample_result)
    by (vm_compute; reflexivity).
  split; [exact Hp|]. split; [exact H|].
  exact (reconcile_bonus_only_three_halves sample_service None sample_result Hp H).
Defined.

Lemma reconcile_missing_tradebook_entries_witness :
  reconcile sample_service None = Return sample_result /\
  missing_tradebook_entries sample_result
  = filter (before_tradebook sample_service) (selected_entries sample_service None).
Proof.
  assert (H : reconcile sample_service None = Return sample_result)
    by (vm_compute; reflexivity).
  split; [exact H|].
  exact (reconcile_missing_tradebook_entries sample_service None sample_result H).
Defined.

End ReconcileRuns.

(** ** Stock splits in the result of a reconciliation *)

Section SplitClassification.

Import Recon.

(** The pair [reconcile] hands to the detectors for an entry: the entry is
    not dated before the tradebook, the search returns a candidate, and the
    pair is not a perfect match. *)
Definition mismatched_pair (self : ReconciliationService) (entry : TaxPnlEntry)
    : option TradebookTrade :=
  if before_tradebook self entry then None
  else
    match find_matching_buy self entry with
    | Some matching_trade =>
        if (t_quantity matching_trade =? e_quantity entry) &&
           _values_match (trade_value matching_trade) (e_buy_value entry)
                         VALUE_TOLERANCE
        then None
        else Some matching_trade
    | None => None
    end.

(** The detector's three tests for one ratio. *)
Definition split_tests (trade : TradebookTrade) (entry : TaxPnlEntry) (ratio : Z)
    : bool :=
  values_within_2pct trade entry && ratio_within trade entry ratio
  && price_within trade entry ratio.

(** The proposal and the discrepancy of an entry classified as a split: those
    of the first ratio of the table that passes the three tests on its
    mismatched pair. *)
Definition split_records (self : ReconciliationService) (entry : TaxPnlEntry)
    : list (DetectedAction * Discrepancy) :=
  match mismatched_pair self entry with
  | Some trade =>
      match find (split_tests trade entry) COMMON_SPLIT_RATIOS with
      | Some ratio =>
          [(split_proposal trade entry ratio,
            action_discrepancy entry trade (split_proposal trade entry ratio))]
      | None => []
      end
  | None => []
  end.

Definition is_split (a : DetectedAction) : bool :=
  match da_action_type a with Models.split => true | _ => false end.

Definition carries_split (d : Discrepancy) : bool :=
  match d_detected_action d with Some a => is_split a | None => false end.

(** The result holds a split for the entry: a proposal of type split among
    the corporate actions, and a discrepancy for the entry that carries
    it, of type corporate_action and severity info. *)
Definition split_emitted (r : ReconciliationResult) (entry : TaxPnlEntry)
    (trade : TradebookTrade) : Prop :=
  exists a d,
    In a (corporate_actions r) /\ In d (discrepancies r) /\
    da_action_type a = Models.split /\
    d_taxpnl_data d = Some entry /\ d_tradebook_data d = Some trade /\
    d_detected_action d = Some a /\
    d_discrepancy_type d = corporate_action /\ d_severity d = info.

(** The quantity ratio of the pair is less than 0.01 away from the ratio, in
    exact arithmetic. *)
Definition exact_ratio_below (trade : TradebookTrade) (entry : TaxPnlEntry)
    (ratio : Z) : Prop :=
  (Qabs (inject_Z (e_quantity entry) / inject_Z (t_quantity trade) - inject_Z ratio)
     < 1 # 100)%Q.

(** The classification of one mismatched pair in the result [r]. *)
Definition pair_classification (r : ReconciliationResult) (entry : TaxPnlEntry)
    (trade : TradebookTrade) : Prop :=
  (split_emitted r entry trade <-> split_conditions trade entry) /\
  (forall ratio,
     In ratio COMMON_SPLIT_RATIOS ->
     ratio_within trade entry ratio = true ->
     values_within_2pct trade entry = true /\
     price_within trade entry ratio = true /\
     exact_values_within (101 # 10000) trade entry /\
     exact_ratio_within ((1 # 100) + (1 # 10000000000000)) trade entry ratio /\
     exact_price_within trade entry ratio /\
     (t_quantity trade < 100000000000 ->
      exact_ratio_within (1 # 100) trade entry ratio)) /\
  (forall ratio,
     In ratio COMMON_SPLIT_RATIOS ->
     exact_ratio_within ((1 # 100) - (1 # 10000000000000)) trade entry ratio \/
     (t_quantity trade < 100000000000 /\ exact_ratio_below trade entry ratio) ->
     ratio_within trade entry ratio = true).

(** What [reconcile] returns about splits. *)
Definition split_classification (self : ReconciliationService)
    (financial_year : option string) (r : ReconciliationResult) : Prop :=
  let records := flat_map (split_records self) (selected_entries self financial_year) in
  filter is_split (corporate_actions r) = map fst records /\
  filter carries_split (discrepancies r) = map snd records /\
  (forall a d, In (a, d) records ->
     da_action_type a = Models.split /\ da_ratio_from a = 1 /\
     In (da_ratio_to a) COMMON_SPLIT_RATIOS /\
     d_detected_action d = Some a /\
     d_discrepancy_type d = corporate_action /\ d_severity d = info) /\
  (forall entry trade,
     In entry (selected_entries self financial_year) ->
     mismatched_pair self entry = Some trade ->
     pair_classification r entry trade).

Lemma table_ratio_range : forall ratio,
  In ratio COMMON_SPLIT_RATIOS -> 2 <= ratio <= 100.
Proof.
  intros ratio Hin. unfold COMMON_SPLIT_RATIOS in Hin. cbn [In] in Hin.
  repeat (destruct Hin as [<-|Hin]; [lia|]). contradiction.
Qed.

(** Two whole numbers that pass the ratio test for the same quantities are
    the same. *)
Lemma ratio_test_unique : forall trade entry ratio ratio',
  2 <= ratio <= 100 -> 2 <= ratio' <= 100 ->
  ratio_within trade entry ratio = true ->
  ratio_within trade entry ratio' = true ->
  ratio = ratio'.
Proof.
  intros trade entry r1 r2 H1 H2 T1 T2. unfold ratio_within in T1, T2.
  pose proof (ratio_test_sound _ _ _ H1 T1) as B1.
  pose proof (ratio_test_sound _ _ _ H2 T2) as B2.
  remember (inject_Z (e_quantity entry) / inject_Z (t_quantity trade))%Q as x eqn:E.
  clear E T1 T2.
  apply Qabs_Qle_condition in B1. apply Qabs_Qle_condition in B2.
  assert (A : (inject_Z r1 < inject_Z (r2 + 1))%Q).
  { rewrite inject_Z_plus. change (inject_Z 1) with 1%Q. lra. }
  assert (B : (inject_Z r2 < inject_Z (r1 + 1))%Q).
  { rewrite inject_Z_plus. change (inject_Z 1) with 1%Q. lra. }
  rewrite <- Zlt_Qlt in A, B. lia.
Qed.

(** The quantity ratio minus the ratio, times the trade quantity. *)
Lemma ratio_gap_scaled : forall (p t r : Z),
  0 < t ->
  ((inject_Z p / inject_Z t - inject_Z r) * inject_Z t
   == inject_Z (p - r * t))%Q.
Proof.
  intros p t r Ht.
  assert (HT : (0 < inject_Z t)%Q) by (unfold Qlt; cbn; lia).
  replace (p - r * t) with (p + - (r * t)) by lia.
  rewrite inject_Z_plus, inject_Z_opp, inject_Z_mult. field. lra.
Qed.

(** Below 10^11 units a quantity ratio is either exactly 0.01 away from a
    whole number or differs from that distance by more than 10^-13. *)
Lemma ratio_gap_sharp_upper : forall (p t r : Z),
  0 < t < 100000000000 ->
  (Qabs (inject_Z p / inject_Z t - inject_Z r)
     <= (1 # 100) + (1 # 10000000000000))%Q ->
  (Qabs (inject_Z p / inject_Z t - inject_Z r) <= 1 # 100)%Q.
Proof.
  intros p t r Ht H.
  pose proof (ratio_gap_scaled p t r ltac:(lia)) as E.
  remember (inject_Z p / inject_Z t - inject_Z r)%Q as x eqn:Ex. clear Ex.
  remember (p - r * t) as n eqn:En. clear En.
  assert (HT : (0 < inject_Z t)%Q) by (unfold Qlt; cbn; lia).
  apply Qabs_Qle_condition in H. destruct H as [Hlo Hhi].
  assert (U : (inject_Z (10000000000000 * n) <= inject_Z (100000000001 * t))%Q).
  { rewrite !inject_Z_mult. rewrite <- E.
    change (inject_Z 10000000000000) with (10000000000000 # 1)%Q.
    change (inject_Z 100000000001) with (100000000001 # 1)%Q. nra. }
  assert (L : (inject_Z (- (100000000001 * t)) <= inject_Z (10000000000000 * n))%Q).
  { rewrite inject_Z_opp, !inject_Z_mult. rewrite <- E.
    change (inject_Z 10000000000000) with (10000000000000 # 1)%Q.
    change (inject_Z 100000000001) with (100000000001 # 1)%Q. nra. }
  rewrite <- Zle_Qle in U, L.
  assert (U' : 100 * n <= t) by lia.
  assert (L' : - t <= 100 * n) by lia.
  rewrite Zle_Qle in U', L'. rewrite inject_Z_mult in U', L'.
  rewrite inject_Z_opp in L'. rewrite <- E in U', L'.
  change (inject_Z 100) with (100 # 1)%Q in U', L'.
  apply Qabs_Qle_condition. split; nra.
Qed.

Lemma ratio_gap_sharp_lower : forall (p t r : Z),
  0 < t < 100000000000 ->
  (Qabs (inject_Z p / inject_Z t - inject_Z r) < 1 # 100)%Q ->
  (Qabs (inject_Z p / inject_Z t - inject_Z r)
     <= (1 # 100) - (1 # 10000000000000))%Q.
Proof.
  intros p t r Ht H.
  pose proof (ratio_gap_scaled p t r ltac:(lia)) as E.
  remember (inject_Z p / inject_Z t - inject_Z r)%Q as x eqn:Ex. clear Ex.
  remember (p - r * t) as n eqn:En. clear En.
  assert (HT : (0 < inject_Z t)%Q) by (unfold Qlt; cbn; lia).
  apply Qabs_Qlt_condition in H. destruct H as [Hlo Hhi].
  assert (U : (inject_Z (100 * n) < inject_Z t)%Q).
  { rewrite inject_Z_mult. rewrite <- E.
    change (inject_Z 100) with (100 # 1)%Q. nra. }
  assert (L : (inject_Z (- t) < inject_Z (100 * n))%Q).
  { rewrite inject_Z_opp, inject_Z_mult. rewrite <- E.
    change (inject_Z 100) with (100 # 1)%Q. nra. }
  rewrite <- Zlt_Qlt in U, L.
  assert (U' : 10000000000000 * n <= 99999999999 * t) by lia.
  assert (L' : - (99999999999 * t) <= 10000000000000 * n) by lia.
  rewrite Zle_Qle in U', L'. rewrite inject_Z_opp in L'.
  rewrite !inject_Z_mult in U', L'. rewrite <- E in U', L'.
  change (inject_Z 10000000000000) with (10000000000000 # 1)%Q in U', L'.
  change (inject_Z 99999999999) with (99999999999 # 1)%Q in U', L'.
  apply Qabs_Qle_condition. split; nra.
Qed.

Lemma mismatched_pair_spec : forall self entry trade,
  mismatched_pair self entry = Some trade ->
  before_tradebook self entry = false /\
  find_matching_buy self entry = Some trade /\
  t_quantity trade <> e_quantity entry.
Proof.
  intros self entry trade H. unfold mismatched_pair in H.
  destruct (before_tradebook self entry); [discriminate|].
  destruct (find_matching_buy self entry) as [t|] eqn:Hfind; [|discriminate].
  rewrite (find_matching_buy_values _ _ _ Hfind), andb_true_r in H.
  destruct (Z.eqb_spec (t_quantity t) (e_quantity entry)) as [|Hne]; [discriminate|].
  injection H as <-. auto.
Qed.

Lemma split_conditions_tests : forall trade entry,
  split_conditions trade entry <->
  exists ratio, In ratio COMMON_SPLIT_RATIOS /\ split_tests trade entry ratio = true.
Proof.
  intros trade entry. unfold split_conditions, split_tests. split.
  - intros (Hv & ratio & Hin & Hr & Hp). exists ratio. split; [exact Hin|].
    rewrite Hv, Hr, Hp. reflexivity.
  - intros (ratio & Hin & H). apply andb_true_iff in H. destruct H as [H Hp].
    apply andb_true_iff in H. destruct H as [Hv Hr].
    split; [exact Hv|]. exists ratio. auto.
Qed.

(** The split detector on a pair: the proposal for the first ratio of the
    table that passes the three tests. *)
Lemma detect_stock_split_find : forall trade entry,
  0 < t_quantity trade -> (0 < t_price trade)%Q ->
  detect_stock_split trade entry
  = Return (option_map (split_proposal trade entry)
              (find (split_tests trade entry) COMMON_SPLIT_RATIOS)).
Proof.
  intros trade entry Hq Hp.
  pose proof (detect_stock_split_spec trade entry ltac:(lia) (price_nonzero _ Hp))
    as Hspec.
  destruct (find (split_tests trade entry) COMMON_SPLIT_RATIOS) as [r0|] eqn:Hf;
    cbn [option_map].
  - apply find_some in Hf. destruct Hf as [Hin0 Ht0].
    assert (Hc : split_conditions trade entry).
    { apply split_conditions_tests. exists r0. auto. }
    unfold split_tests in Ht0. apply andb_true_iff in Ht0. destruct Ht0 as [Ht0 _].
    apply andb_true_iff in Ht0. destruct Ht0 as [_ Hr0].
    destruct (detect_stock_split trade entry) as [[a|]|x];
      [|contradiction|contradiction].
    destruct Hspec as (_ & ratio & Hin & Hr & _ & ->).
    rewrite (ratio_test_unique trade entry ratio r0
               (table_ratio_range _ Hin) (table_ratio_range _ Hin0) Hr Hr0).
    reflexivity.
  - destruct (detect_stock_split trade entry) as [[a|]|x];
      [|reflexivity|contradiction].
    exfalso. destruct Hspec as ((Hv & _) & ratio & Hin & Hr & Hpw & _).
    pose proof (find_none _ _ Hf ratio Hin) as Hno. cbv beta in Hno.
    unfold split_tests in Hno. rewrite Hv, Hr, Hpw in Hno. discriminate.
Qed.

(** The outcome of the loop body on an entry with a mismatched pair. *)
Lemma mismatched_entry_outcome : forall self entry trade,
  mismatched_pair self entry = Some trade ->
  0 < t_quantity trade -> (0 < t_price trade)%Q ->
  exists o,
    reconcile_entry self entry = Return o /\
    match find (split_tests trade entry) COMMON_SPLIT_RATIOS with
    | Some ratio =>
        o = Proposed (split_proposal trade entry ratio)
              (action_discrepancy entry trade (split_proposal trade entry ratio))
    | None =>
        (exists a, o = Proposed a (action_discrepancy entry trade a) /\
                   da_action_type a = Models.bonus) \/
        (exists d, o = Unexplained d /\ d_detected_action d = None)
    end.
Proof.
  intros self entry trade Hpair Hq Hp.
  destruct (mismatched_pair_spec _ _ _ Hpair) as (Hb & Hfind & Hne).
  unfold reconcile_entry. rewrite before_history_test, Hb, Hfind.
  destruct (Z.eqb_spec (t_quantity trade) (e_quantity entry)) as [|_];
    [contradiction|].
  cbn [andb negb].
  rewrite (detect_stock_split_find trade entry Hq Hp).
  destruct (find (split_tests trade entry) COMMON_SPLIT_RATIOS) as [ratio|];
    cbn [option_map].
  - eexists. split; reflexivity.
  - destruct (detect_bonus_issue trade entry) as [[ba|]|x] eqn:Hbonus.
    + eexists. split; [reflexivity|]. left. exists ba. split; [reflexivity|].
      exact (detect_bonus_issue_type _ _ _ Hbonus).
    + eexists. split; [reflexivity|]. right. eexists. split; reflexivity.
    + exfalso. unfold detect_bonus_issue in Hbonus.
      destruct (negb _); [discriminate|].
      destruct (e_quantity entry <=? t_quantity trade); [discriminate|].
      destruct (Z.eqb_spec (t_quantity trade) 0); [lia|discriminate].
Qed.

(** The split records of an entry are what its outcome adds to the result. *)
Lemma entry_split_records : forall self entry o,
  trades_positive self ->
  reconcile_entry self entry = Return o ->
  filter is_split (outcome_actions o) = map fst (split_records self entry) /\
  filter carries_split (outcome_discrepancies o)
    = map snd (split_records self entry).
Proof.
  intros self entry o Hpos Ho. unfold split_records.
  destruct (mismatched_pair self entry) as [trade|] eqn:Hpair.
  - destruct (mismatched_pair_spec _ _ _ Hpair) as (_ & Hfind & _).
    pose proof (find_matching_buy_in _ _ _ Hfind) as Hin.
    unfold trades_positive in Hpos. rewrite Forall_forall in Hpos.
    destruct (Hpos trade Hin) as [Hq Hp].
    destruct (mismatched_entry_outcome self entry trade Hpair Hq Hp)
      as (o' & Ho' & Hcase).
    assert (E : o = o') by congruence. subst o'.
    destruct (find (split_tests trade entry) COMMON_SPLIT_RATIOS) as [ratio|].
    + subst o. split; reflexivity.
    + destruct Hcase as [(a & -> & Hty)|(d & -> & Hd)].
      * cbn [outcome_actions outcome_discrepancies filter map].
        unfold carries_split, action_discrepancy. cbn [d_detected_action].
        unfold is_split. rewrite Hty. split; reflexivity.
      * cbn [outcome_actions outcome_discrepancies filter map].
        unfold carries_split. rewrite Hd. split; reflexivity.
  - unfold mismatched_pair in Hpair. unfold reconcile_entry in Ho.
    rewrite before_history_test in Ho.
    destruct (before_tradebook self entry).
    { injection Ho as <-. split; reflexivity. }
    destruct (find_matching_buy self entry) as [t|].
    + destruct ((t_quantity t =? e_quantity entry) && _); [|discriminate].
      injection Ho as <-. split; reflexivity.
    + injection Ho as <-. split; reflexivity.
Qed.

Lemma reconcile_split_records : forall self entries outcomes,
  trades_positive self ->
  Forall2 (fun e o => reconcile_entry self e = Return o) entries outcomes ->
  filter is_split (flat_map outcome_actions outcomes)
    = map fst (flat_map (split_records self) entries) /\
  filter carries_split (flat_map outcome_discrepancies outcomes)
    = map snd (flat_map (split_records self) entries).
Proof.
  intros self entries outcomes Hpos HF.
  induction HF as [|e o es os He HF [IH1 IH2]]; [split; reflexivity|].
  cbn [flat_map]. rewrite !filter_app, !map_app, IH1, IH2.
  destruct (entry_split_records self e o Hpos He) as [E1 E2].
  rewrite E1, E2. split; reflexivity.
Qed.

(** Every discrepancy of an outcome reports the entry of that outcome. *)
Lemma discrepancy_entry : forall self entry o d,
  reconcile_entry self entry = Return o ->
  In d (outcome_discrepancies o) ->
  d_taxpnl_data d = Some entry.
Proof.
  intros self entry o d H Hd. unfold reconcile_entry in H.
  destruct (match earliest_tradebook_date self with
            | Some earliest => e_entry_date entry <? earliest
            | None => false
            end).
  { injection H as <-. destruct Hd. }
  destruct (find_matching_buy self entry) as [trade|].
  - destruct ((t_quantity trade =? e_quantity entry) && _).
    { injection H as <-. destruct Hd. }
    destruct (detect_stock_split trade entry) as [[sa|]|x]; [| |discriminate].
    { injection H as <-. cbn in Hd. destruct Hd as [<-|[]]. reflexivity. }
    destruct (detect_bonus_issue trade entry) as [[ba|]|x]; [| |discriminate].
    { injection H as <-. cbn in Hd. destruct Hd as [<-|[]]. reflexivity. }
    injection H as <-. cbn in Hd. destruct Hd as [<-|[]]. reflexivity.
  - injection H as <-. cbn in Hd. destruct Hd as [<-|[]]. reflexivity.
Qed.

Lemma outcome_of_entry : forall self entries outcomes entry,
  Forall2 (fun e o => reconcile_entry self e = Return o) entries outcomes ->
  In entry entries ->
  exists o, In o outcomes /\ reconcile_entry self entry = Return o.
Proof.
  intros self entries outcomes entry HF. induction HF as [|e o es os He HF IH].
  - intros [].
  - intros [<-|Hin].
    + exists o. split; [left; reflexivity|exact He].
    + destruct (IH Hin) as (o' & Ho' & He'). exists o'. split; [right; exact Ho'|exact He'].
Qed.

(** The classification of a mismatched pair among the entries [reconcile]
    went through. *)
Lemma pair_classification_holds : forall self fy r entry trade,
  trades_positive self ->
  reconcile self fy = Return r ->
  In entry (selected_entries self fy) ->
  mismatched_pair self entry = Some trade ->
  pair_classification r entry trade.
Proof.
  intros self fy r entry trade Hpos Hrec Hsel Hpair.
  destruct (mismatched_pair_spec _ _ _ Hpair) as (_ & Hfind & _).
  pose proof (find_matching_buy_in _ _ _ Hfind) as Hin.
  unfold trades_positive in Hpos. rewrite Forall_forall in Hpos.
  destruct (Hpos trade Hin) as [Hq Hp].
  destruct (reconcile_outcomes self fy r Hrec) as (os & HF & _ & Hd & Ha & _).
  destruct (mismatched_entry_outcome self entry trade Hpair Hq Hp)
    as (o & Ho & Hcase).
  split; [|split].
  - rewrite split_conditions_tests. split.
    + intros (a & d & _ & Hdin & Hty & Hdata & _ & Hact & _).
      rewrite Hd in Hdin. apply in_flat_map in Hdin.
      destruct Hdin as (o' & Ho'in & Hdo').
      pose proof (outcomes_forall _ _ _ HF) as Hall.
      rewrite Forall_forall in Hall. destruct (Hall o' Ho'in) as (e' & _ & He').
      pose proof (discrepancy_entry self e' o' d He' Hdo') as Hdata'.
      assert (Ee : e' = entry) by congruence. subst e'.
      assert (Eo : o' = o) by congruence. subst o'.
      destruct (find (split_tests trade entry) COMMON_SPLIT_RATIOS) as [ratio|] eqn:Hf.
      * apply find_some in Hf. exists ratio. exact Hf.
      * exfalso. destruct Hcase as [(ba & -> & Hbty)|(d' & -> & Hnone)].
        -- cbn in Hdo'. destruct Hdo' as [<-|[]]. cbn in Hact.
           assert (ba = a) by congruence. subst ba. congruence.
        -- cbn in Hdo'. destruct Hdo' as [<-|[]]. congruence.
    + intros (ratio & Hrin & Ht).
      destruct (find (split_tests trade entry) COMMON_SPLIT_RATIOS) as [ratio'|] eqn:Hf.
      * destruct (outcome_of_entry _ _ _ _ HF Hsel) as (o' & Ho'in & Ho').
        assert (Eo : o' = o) by congruence. subst o' o.
        exists (split_proposal trade entry ratio').
        exists (action_discrepancy entry trade (split_proposal trade entry ratio')).
        split.
        { rewrite Ha. apply in_flat_map. eexists. split; [exact Ho'in|].
          left. reflexivity. }
        split.
        { rewrite Hd. apply in_flat_map. eexists. split; [exact Ho'in|].
          left. reflexivity. }
        repeat split.
      * pose proof (find_none _ _ Hf ratio Hrin) as Hno. cbv beta in Hno. congruence.
  - intros ratio Hrin Hr.
    destruct (ratio_test_decides self entry trade ratio Hfind Hq Hp Hrin Hr)
      as (Hv & Hpw & Hxv & Hxr & Hxp).
    repeat (split; [assumption|]).
    intros Hsmall. unfold exact_ratio_within in *.
    apply ratio_gap_sharp_upper; [lia|exact Hxr].
  - intros ratio Hrin Hx. unfold ratio_within.
    apply ratio_test_complete; [exact (table_ratio_range _ Hrin)|].
    destruct Hx as [Hx|[Hsmall Hx]]; [exact Hx|].
    apply ratio_gap_sharp_lower; [lia|exact Hx].
Qed.

Lemma split_records_shape : forall self entry a d,
  In (a, d) (split_records self entry) ->
  da_action_type a = Models.split /\ da_ratio_from a = 1 /\
  In (da_ratio_to a) COMMON_SPLIT_RATIOS /\
  d_detected_action d = Some a /\
  d_discrepancy_type d = corporate_action /\ d_severity d = info.
Proof.
  intros self entry a d H. unfold split_records in H.
  destruct (mismatched_pair self entry) as [trade|]; [|destruct H].
  destruct (find (split_tests trade entry) COMMON_SPLIT_RATIOS) as [ratio|] eqn:Hf;
    [|destruct H].
  apply find_some in Hf. destruct Hf as [Hin _].
  destruct H as [H|[]]. injection H as <- <-.
  cbn. auto 10.
Qed.

(** C8, amended: for a tradebook with positive quantities and prices
    [reconcile] returns a result in which the proposals of type split, and
    the discrepancies carrying them, are those of the entries it went
    through whose mismatched pair passes the detector's three tests for a
    ratio of the table, one per entry and in their order: a proposal
    1 : ratio with a discrepancy of type corporate_action and severity info.
    For a mismatched pair the result holds a split exactly when the three
    tests pass: the values within 2%, the quantity ratio less than 0.01 away
    from a ratio of the table in double precision, the implied price less
    than 2% of the old price away from the old price over the ratio.  The
    value and price tests follow from the ratio test, the implied price
    then being within 2% of the old price over the ratio.  In exact
    arithmetic the ratio test passes when the quantity ratio is less than
    0.01 away from the ratio and only when it is at most 0.01 away, for
    trade quantities below 10^11 (in general, up to 10^-13); at exactly
    0.01 the rounding decides. *)
Theorem stock_split_classification : forall self financial_year,
  trades_positive self ->
  exists r,
    reconcile self financial_year = Return r /\
    split_classification self financial_year r.
Proof.
  intros self fy Hpos.
  destruct (reconcile_returns self fy) as [r Hr].
  { intros e _. apply reconcile_entry_returns. exact Hpos. }
  exists r. split; [exact Hr|].
  destruct (reconcile_outcomes self fy r Hr) as (os & HF & _ & Hd & Ha & _).
  destruct (reconcile_split_records self _ _ Hpos HF) as [E1 E2].
  unfold split_classification. cbv zeta.
  split; [rewrite Ha; exact E1|]. split; [rewrite Hd; exact E2|]. split.
  - intros a d Hin. apply in_flat_map in Hin. destruct Hin as (e & _ & Hin).
    exact (split_records_shape self e a d Hin).
  - intros entry trade Hsel Hpair.
    exact (pair_classification_holds self fy r entry trade Hpos Hr Hsel Hpair).
Qed.

(** One buy of 100 units at 100 on day 10, and two report entries for the
    same day and the same value 10000: one of 201 units, one of 199. *)
Definition boundary_trade : TradebookTrade :=
  mkTradebookTrade "NESTLEIND" None Fifo.Buy 10 100 100%Q "T1".

Definition entry_201 : TaxPnlEntry :=
  mkTaxPnlEntry "NESTLEIND" None 10 500 201 10000%Q None.

Definition entry_199 : TaxPnlEntry :=
  mkTaxPnlEntry "NESTLEIND" None 10 500 199 10000%Q None.

Definition boundary_service : ReconciliationService :=
  mkService [boundary_trade] [entry_201; entry_199].

Definition boundary_result : ReconciliationResult := Eval vm_compute in
    match reconcile boundary_service None with
    | Return r => r
    | Raise _ => mkResult [] [] [] [] (mkSummary 0 0 0 0 0 0%Q)
    end.

(** C8, as stated, fails at the boundary of the ratio test.  Both entries
    form a mismatched pair with the trade, both have values equal to the
    trade's and an implied price within 2% of 100 / 2, and both quantity
    ratios, 201 / 100 and 199 / 100, are exactly 0.01 away from the table
    ratio 2.  [reconcile] classifies the first as a split 1 : 2 and the
    second as a plain quantity mismatch: the doubles nearest to 2.01 and
    1.99 lie on either side. *)
Lemma split_boundary_by_rounding :
  mismatched_pair boundary_service entry_201 = Some boundary_trade /\
  mismatched_pair boundary_service entry_199 = Some boundary_trade /\
  (Qabs (inject_Z 201 / inject_Z 100 - inject_Z 2) == 1 # 100)%Q /\
  (Qabs (inject_Z 199 / inject_Z 100 - inject_Z 2) == 1 # 100)%Q /\
  exact_values_within (2 # 100) boundary_trade entry_201 /\
  exact_values_within (2 # 100) boundary_trade entry_199 /\
  exact_price_within boundary_trade entry_201 2 /\
  exact_price_within boundary_trade entry_199 2 /\
  reconcile boundary_service None = Return boundary_result /\
  corporate_actions boundary_result = [split_proposal boundary_trade entry_201 2] /\
  map d_taxpnl_data (discrepancies boundary_result)
    = [Some entry_201; Some entry_199] /\
  map d_discrepancy_type (discrepancies boundary_result)
    = [corporate_action; quantity_mismatch] /\
  map d_severity (discrepancies boundary_result) = [info; warning] /\
  split_emitted boundary_result entry_201 boundary_trade /\
  ~ split_emitted boundary_result entry_199 boundary_trade.
Proof.
  repeat (split; [vm_compute; reflexivity|]).
  split; [left; vm_compute; discriminate|].
  split; [left; vm_compute; discriminate|].
  split; [vm_compute; discriminate|].
  split; [vm_compute; discriminate|].
  repeat (split; [vm_compute; reflexivity|]).
  split.
  - eexists. eexists. split; [left; reflexivity|]. split; [left; reflexivity|].
    repeat split.
  - intros (a & d & Ha & Hd & _ & Hdata & _ & Hact & _).
    cbn in Hd. destruct Hd as [<-|[<-|[]]]; cbn in Hdata, Hact; discriminate.
Qed.

Lemma stock_split_classification_witness :
  trades_positive boundary_service /\
  exists r,
    reconcile boundary_service None = Return r /\
    split_classification boundary_service None r.
Proof.
  assert (H : trades_positive boundary_service).
  { unfold trades_positive. cbn. constructor; [|constructor]. split; reflexivity. }
  split; [exact H|].
  exact (stock_split_classification boundary_service None H).
Defined.

End SplitClassification.

Section SortedUnique.

Context {A : Type} (key : A -> Z).

Lemma sorted_permutation_unique : forall l l' : list A,
  StronglySorted (fun a b => key a <= key b) l ->
  StronglySorted (fun a b => key a <= key b) l' ->
  Permutation l l' ->
  NoDup (map key l) ->
  l = l'.
Proof.
  induction l as [|a l IH]; intros l' Hs Hs' Hp Hnd.
  - apply Permutation_nil in Hp. subst. reflexivity.
  - destruct l' as [|a' l'].
    { apply Permutation_sym, Permutation_nil in Hp. discriminate. }
    inversion Hs as [|? ? Hsl Hal]; subst.
    inversion Hs' as [|? ? Hsl' Hal']; subst.
    cbn [map] in Hnd. inversion Hnd as [|? ? Hnotin Hnd']; subst.
    assert (Ea : a = a').
    { assert (Hin : In a (a' :: l')) by (eapply Permutation_in; [exact Hp|left; reflexivity]).
      assert (Hin' : In a' (a :: l))
        by (eapply Permutation_in; [apply Permutation_sym; exact Hp|left; reflexivity]).
      destruct Hin as [E|Hin]; [auto|].
      destruct Hin' as [E|Hin']; [auto|].
      rewrite Forall_forall in Hal, Hal'.
      pose proof (Hal a' Hin') as L1. pose proof (Hal' a Hin) as L2.
      exfalso. apply Hnotin. assert (Ek : key a = key a') by lia.
      rewrite Ek. apply in_map. exact Hin'. }
    subst a'. f_equal. apply IH; auto.
    eapply Permutation_cons_inv. exact Hp.
Qed.

End SortedUnique.

Section FromTrades.

Import Fifo Engine.

Lemma key_le_total : forall x y, key_le x y = true \/ key_le y x = true.
Proof. intros x y. unfold key_le. rewrite !Z.leb_le. lia. Qed.

Lemma key_le_trans : forall x y z,
  key_le x y = true -> key_le y z = true -> key_le x z = true.
Proof. intros x y z. unfold key_le. rewrite !Z.leb_le. lia. Qed.

Lemma sort_by_key_sorted : forall l,
  StronglySorted (fun a b => sort_key a <= sort_key b) (sort_by key_le l).
Proof.
  intros l.
  pose proof (sort_by_sorted key_le key_le_total key_le_trans l) as H.
  induction H as [|a l' Hs IH Hall]; constructor; [exact IH|].
  eapply Forall_impl; [|exact Hall]. intros b Hb. unfold key_le in Hb.
  apply Z.leb_le. exact Hb.
Qed.

(** X13: [from_trades] does not depend on the order in which the trades are
    given, provided their sort keys (the trade's datetime, or midnight of
    its date without one) are pairwise distinct. *)
Theorem from_trades_order_independent : forall trades trades',
  Permutation trades trades' ->
  NoDup (map sort_key trades) ->
  from_trades trades = from_trades trades'.
Proof.
  intros ts ts' Hp Hnd. unfold from_trades. f_equal.
  apply (sorted_permutation_unique sort_key).
  - apply sort_by_key_sorted.
  - apply sort_by_key_sorted.
  - eapply Permutation_trans; [apply sort_by_perm|].
    eapply Permutation_trans; [exact Hp|]. apply Permutation_sym, sort_by_perm.
  - eapply Permutation_NoDup; [|exact Hnd].
    apply Permutation_map, Permutation_sym, sort_by_perm.
Qed.

(** Total quantity of the trades of one direction. *)
Definition bought_units (ts : list TradeDict) : Z :=
  fold_right (fun t acc => match td_trade_type t with
                           | Buy => td_quantity t + acc
                           | Sell => acc
                           end) 0 ts.

Definition sold_units (ts : list TradeDict) : Z :=
  fold_right (fun t acc => match td_trade_type t with
                           | Buy => acc
                           | Sell => td_quantity t + acc
                           end) 0 ts.

(** No lot of the queue is exhausted or holds more than was bought. *)
Definition lots_bounded (lots : list BuyLot) : Prop :=
  Forall (fun lot => 0 < lot_remaining_qty lot <= lot_quantity lot) lots.

Lemma lots_bounded_positive : forall lots, lots_bounded lots -> lots_positive lots.
Proof.
  intros lots H. eapply Forall_impl; [|exact H]. cbv beta. intros lot Hl. lia.
Qed.

Lemma sell_step_bounded : forall d p id st,
  sell_guard st = true -> lots_bounded (st_lots st) ->
  lots_bounded (st_lots (sell_step d p id st)).
Proof.
  intros d p id [lots mls ms rs] Hg Hb. unfold sell_guard in Hg.
  cbn [st_remaining_sell st_lots] in *.
  apply andb_true_iff in Hg. destruct Hg as [Hrs _]. apply Z.ltb_lt in Hrs.
  destruct lots as [|lot rest]; [exact Hb|].
  inversion Hb as [|? ? Hlot Hrest]; subst. cbv beta in Hlot.
  unfold sell_step. cbn [st_lots st_remaining_sell set_remaining lot_remaining_qty].
  destruct (Z.eqb_spec (lot_remaining_qty lot - Z.min rs (lot_remaining_qty lot)) 0)
    as [E|E]; [exact Hrest|].
  constructor; [|exact Hrest]. cbn [lot_remaining_qty lot_quantity set_remaining]. lia.
Qed.

Lemma sell_loop_bounded : forall d p id fuel st,
  lots_bounded (st_lots st) -> lots_bounded (st_lots (sell_loop fuel d p id st)).
Proof.
  intros d p id. induction fuel as [|fuel IH]; intros st Hb; cbn [sell_loop];
    [exact Hb|].
  destruct (sell_guard st) eqn:Hg; [|exact Hb].
  apply IH. apply sell_step_bounded; assumption.
Qed.

Lemma process_sell_bounded : forall self d q p id e' ms,
  process_sell self d q p id = (e', Return ms) ->
  lots_bounded (buy_lots self) -> lots_bounded (buy_lots e').
Proof.
  intros self d q p id e' ms H Hb. unfold process_sell in H.
  destruct (get_available_quantity self <? q); [discriminate|].
  injection H as <- _. cbn [buy_lots]. apply sell_loop_bounded. exact Hb.
Qed.

Lemma bounded_as_lots : forall self,
  lots_bounded (buy_lots self) -> get_current_holdings_as_lots self = buy_lots self.
Proof.
  intros self H. unfold get_current_holdings_as_lots.
  induction H as [|lot lots Hlot _ IH]; [reflexivity|].
  cbn [filter]. destruct (Z.ltb_spec 0 (lot_remaining_qty lot)); [|lia].
  rewrite IH. reflexivity.
Qed.

(** The state of an engine during [from_trades]. *)
Definition loop_inv (e : FIFOEngine) : Prop :=
  lots_bounded (buy_lots e) /\
  get_available_quantity e = total_bought e - total_sold e.

(** The running total of sells never exceeds [a] plus the running total of
    buys. *)
Definition sells_covered (a : Z) (ts : list TradeDict) : Prop :=
  forall n, sold_units (firstn n ts) <= a + bought_units (firstn n ts).

Lemma sells_covered_cons : forall a t ts,
  0 <= a ->
  sells_covered a (t :: ts) <->
  match td_trade_type t with
  | Buy => sells_covered (a + td_quantity t) ts
  | Sell => td_quantity t <= a /\ sells_covered (a - td_quantity t) ts
  end.
Proof.
  intros a t ts Ha. unfold sells_covered. split.
  - intros H. destruct (td_trade_type t) eqn:Ety.
    + intros n. specialize (H (S n)). cbn [firstn] in H.
      unfold sold_units, bought_units in *. cbn [fold_right] in H.
      rewrite Ety in H. lia.
    + split.
      * specialize (H 1%nat). cbn [firstn] in H.
        unfold sold_units, bought_units in *. cbn [fold_right] in H.
        rewrite Ety in H. lia.
      * intros n. specialize (H (S n)). cbn [firstn] in H.
        unfold sold_units, bought_units in *. cbn [fold_right] in H.
        rewrite Ety in H. lia.
  - intros H [|n].
    + cbn. lia.
    + cbn [firstn]. unfold sold_units, bought_units in *. cbn [fold_right].
      destruct (td_trade_type t); [specialize (H n)|destruct H as [H1 H];
        specialize (H n)]; lia.
Qed.

Lemma from_trades_loop_spec : forall ts e,
  Forall (fun t => 0 < td_quantity t) ts ->
  loop_inv e ->
  (sells_covered (get_available_quantity e) ts ->
   exists e', from_trades_loop e ts = Return e' /\ loop_inv e' /\
     total_bought e' = total_bought e + bought_units ts /\
     total_sold e' = total_sold e + sold_units ts) /\
  (~ sells_covered (get_available_quantity e) ts ->
   from_trades_loop e ts = Raise ValueError).
Proof.
  induction ts as [|t ts IH]; intros e Hq (Hb & Hav);
    assert (Ha : 0 <= get_available_quantity e)
      by (apply lots_positive_available, lots_bounded_positive; exact Hb).
  - split.
    + intros _. exists e. cbn. repeat split; try assumption; lia.
    + intros Hn. exfalso. apply Hn. intros [|n]; cbn; lia.
  - inversion Hq as [|? ? Ht Hts]; subst.
    rewrite (sells_covered_cons _ _ _ Ha). cbn [from_trades_loop].
    unfold bought_units, sold_units. cbn [fold_right].
    fold (bought_units ts). fold (sold_units ts).
    destruct (td_trade_type t).
    + set (e1 := fst (process_buy e (td_trade_date t) (td_quantity t) (td_price t)
                        (td_trade_id t) (td_trade_datetime t) (td_order_id t))).
      assert (Hav1 : get_available_quantity e1
                     = get_available_quantity e + td_quantity t).
      { unfold e1, get_available_quantity. cbn [process_buy fst buy_lots].
        change (fold_right _ 0 (buy_lots e ++ ?l)) with (sum_remaining (buy_lots e ++ l)).
        rewrite sum_remaining_app. cbn. unfold sum_remaining. lia. }
      assert (Hinv1 : loop_inv e1).
      { split.
        - unfold e1. cbn [process_buy fst buy_lots]. apply Forall_app.
          split; [exact Hb|]. constructor; [cbn; lia|constructor].
        - rewrite Hav1. unfold e1. cbn [process_buy fst total_bought total_sold]. lia. }
      destruct (IH e1 Hts Hinv1) as [IH1 IH2]. rewrite Hav1 in IH1, IH2.
      split.
      * intros Hc. destruct (IH1 Hc) as (e' & Hr & Hi & B & S).
        exists e'. split; [exact Hr|]. split; [exact Hi|].
        unfold e1 in B, S. cbn [process_buy fst total_bought total_sold] in B, S. lia.
      * intros Hn. apply IH2. exact Hn.
    + destruct (Z_le_gt_dec (td_quantity t) (get_available_quantity e)) as [Hle|Hgt].
      * destruct (process_sell_ok (td_trade_date t) (td_price t) (td_trade_id t)
                    e (td_quantity t) ltac:(lia) Hle)
          as (e1 & ms & Heq & A & _ & _ & B & S & _ & _).
        rewrite Heq.
        assert (Hinv1 : loop_inv e1).
        { split; [exact (process_sell_bounded _ _ _ _ _ _ _ Heq Hb)|lia]. }
        destruct (IH e1 Hts Hinv1) as [IH1 IH2]. rewrite A in IH1, IH2.
        split.
        -- intros [_ Hc]. destruct (IH1 Hc) as (e' & Hr & Hi & B' & S').
           exists e'. split; [exact Hr|]. split; [exact Hi|]. lia.
        -- intros Hn. apply IH2. intros Hc. apply Hn. split; [exact Hle|exact Hc].
      * rewrite (process_sell_raises (td_trade_date t) (td_price t) (td_trade_id t)
                   e (td_quantity t) ltac:(lia)).
        split; [intros [Hle _]; lia|reflexivity].
Qed.

Lemma units_perm : forall ts ts',
  Permutation ts ts' ->
  bought_units ts = bought_units ts' /\ sold_units ts = sold_units ts'.
Proof.
  intros ts ts' H. unfold bought_units, sold_units.
  induction H as [|t l l' _ [IH1 IH2]|a b l|l1 l2 l3 _ [IH1 IH2] _ [IH3 IH4]];
    cbn [fold_right].
  - auto.
  - rewrite IH1, IH2. auto.
  - destruct (td_trade_type a), (td_trade_type b); split; lia.
  - split; congruence.
Qed.

(** X14: for trades with positive quantities, [from_trades] returns an engine
    exactly when, going through the trades in sorted order, the running
    total of sells never exceeds the running total of buys; otherwise it
    raises ValueError (it never skips a sell).  The engine returned holds
    the buys less the sells, and every lot of its queue has between one
    unit and its bought quantity left, so that
    get_current_holdings_as_lots returns the whole queue. *)
Theorem from_trades_accepts : forall trades,
  Forall (fun t => 0 < td_quantity t) trades ->
  (sells_covered 0 (sort_by key_le trades) ->
   exists e,
     from_trades trades = Return e /\
     get_available_quantity e = bought_units trades - sold_units trades /\
     total_bought e = bought_units trades /\
     total_sold e = sold_units trades /\
     lots_bounded (buy_lots e) /\
     get_current_holdings_as_lots e = buy_lots e) /\
  (~ sells_covered 0 (sort_by key_le trades) ->
   from_trades trades = Raise ValueError).
Proof.
  intros trades Hq. unfold from_trades.
  assert (Hq' : Forall (fun t => 0 < td_quantity t) (sort_by key_le trades)).
  { rewrite Forall_forall in *. intros t Ht. apply Hq.
    eapply Permutation_in; [apply sort_by_perm|exact Ht]. }
  assert (Hinit : loop_inv init) by (split; [constructor|reflexivity]).
  destruct (from_trades_loop_spec _ init Hq' Hinit) as [H1 H2].
  change (get_available_quantity init) with 0 in H1, H2.
  destruct (units_perm _ _ (sort_by_perm key_le trades)) as [Eb Es].
  split; [|exact H2].
  intros Hc. destruct (H1 Hc) as (e & Hr & (Hb & Hav) & B & S).
  cbn [init total_bought total_sold] in B, S.
  exists e. split; [exact Hr|]. rewrite <- Eb, <- Es.
  repeat split; try lia; try assumption.
  apply bounded_as_lots. exact Hb.
Qed.

(** Three trade dictionaries: a buy of 100 on day 1, a buy of 50 with a
    timestamp on day 3, and a sale of 120 on day 10. *)
Definition first_buy : TradeDict :=
  mkTradeDict Buy 1 None 100 50%Q "T001" None.

Definition second_buy : TradeDict :=
  mkTradeDict Buy 3 (Some (3 * day + 34200000000)) 50 55%Q "T002" (Some "O2"%string).

Definition later_sale : TradeDict :=
  mkTradeDict Sell 10 None 120 60%Q "T003" None.

Lemma from_trades_order_independent_witness :
  Permutation [later_sale; first_buy; second_buy] [second_buy; later_sale; first_buy] /\
  NoDup (map sort_key [later_sale; first_buy; second_buy]) /\
  from_trades [later_sale; first_buy; second_buy]
  = from_trades [second_buy; later_sale; first_buy].
Proof.
  assert (H1 : Permutation [later_sale; first_buy; second_buy]
                           [second_buy; later_sale; first_buy]).
  { apply Permutation_sym.
    exact (Permutation_cons_append [later_sale; first_buy] second_buy). }
  assert (H2 : NoDup (map sort_key [later_sale; first_buy; second_buy])).
  { cbn. repeat constructor; cbn; intuition discriminate. }
  split; [exact H1|]. split; [exact H2|].
  exact (from_trades_order_independent _ _ H1 H2).
Defined.

Lemma from_trades_accepts_witness :
  Forall (fun t => 0 < td_quantity t) [later_sale; first_buy; second_buy] /\
  sells_covered 0 (sort_by key_le [later_sale; first_buy; second_buy]) /\
  exists e,
    from_trades [later_sale; first_buy; second_buy] = Return e /\
    get_available_quantity e
      = bought_units [later_sale; first_buy; second_buy]
        - sold_units [later_sale; first_buy; second_buy] /\
    total_bought e = bought_units [later_sale; first_buy; second_buy] /\
    total_sold e = sold_units [later_sale; first_buy; second_buy] /\
    lots_bounded (buy_lots e) /\
    get_current_holdings_as_lots e = buy_lots e.
Proof.
  assert (H1 : Forall (fun t => 0 < td_quantity t)
                      [later_sale; first_buy; second_buy])
    by (repeat constructor).
  assert (H2 : sells_covered 0 (sort_by key_le [later_sale; first_buy; second_buy])).
  { intros n. destruct n as [|[|[|[|n]]]]; vm_compute; intros H; discriminate H. }
  split; [exact H1|]. split; [exact H2|].
  exact (proj1 (from_trades_accepts _ H1) H2).
Defined.

End FromTrades.

Section AveragePrice.

Import Fifo Engine.

Lemma dec_quantize_pos : forall q : Q, (0 < q)%Q -> (0 < Dec.quantize q)%Q.
Proof.
  intros q Hq. pose proof (dec_error q) as E.
  rewrite (Qabs_pos q) in E by lra.
  remember (Dec.quantize q) as r eqn:Hr. clear Hr.
  pose proof (Qle_Qabs (- (r - q))) as L. rewrite Qabs_opp in L. lra.
Qed.

Lemma dec_add_pos : forall (x : Q) (n : Z),
  (0 <= x)%Q -> 0 < n -> (0 < Dec.add x (Dec.of_int n))%Q.
Proof.
  intros x n Hx Hn. unfold Dec.add. apply dec_quantize_pos.
  assert (Hi : (0 < Dec.of_int n)%Q) by (unfold Dec.of_int, Qlt; cbn; lia).
  lra.
Qed.

Lemma holdings_loop_quantity : forall lots total_qty total_value,
  (0 <= total_qty)%Q ->
  (0 <= fst (holdings_loop lots total_qty total_value))%Q /\
  ((fst (holdings_loop lots total_qty total_value) == 0)%Q <->
   (total_qty == 0)%Q /\ filter (fun lot => 0 <? lot_remaining_qty lot) lots = []).
Proof.
  induction lots as [|lot rest IH]; intros tq tv Htq; cbn [holdings_loop filter].
  - cbn [fst]. split; [exact Htq|]. split; [auto|intros [H _]; exact H].
  - destruct (Z.ltb_spec 0 (lot_remaining_qty lot)) as [Hp|Hp].
    + pose proof (dec_add_pos tq _ Htq Hp) as Hpos.
      destruct (IH (Dec.add tq (Dec.of_int (lot_remaining_qty lot)))
                   (Dec.add tv (Dec.mul (Dec.of_int (lot_remaining_qty lot))
                                        (lot_price lot)))
                   ltac:(lra)) as [IH1 IH2].
      split; [exact IH1|]. split.
      * intros H. apply IH2 in H. destruct H as [H _]. lra.
      * intros [_ H]. discriminate.
    + exact (IH tq tv Htq).
Qed.

(** X15: [calculate_average_price] returns None exactly when no lot of the
    queue has units left, that is when get_current_holdings_as_lots is
    empty. *)
Theorem calculate_average_price_none : forall self,
  calculate_average_price self = None <->
  get_current_holdings_as_lots self = [].
Proof.
  intros self. unfold calculate_average_price, get_current_holdings_as_lots.
  destruct (holdings_loop_quantity (buy_lots self) 0%Q 0%Q ltac:(lra)) as [_ H].
  destruct (holdings_loop (buy_lots self) 0%Q 0%Q) as [tq tv]. cbn [fst] in H.
  unfold Dec.eqb. destruct (Qeq_bool tq 0) eqn:E.
  - apply Qeq_bool_eq in E. split; [intros _; apply H; exact E|reflexivity].
  - split; [discriminate|]. intros Hf. exfalso.
    assert (E' : (tq == 0)%Q) by (apply H; split; [reflexivity|exact Hf]).
    apply Qeq_eq_bool in E'. congruence.
Qed.

End AveragePrice.

Section OldestFirst.

Import Fifo.

Variables (trade_date : date) (price : Dec.Decimal) (trade_id : string).

(** The realized-disposal record of [matched_qty] units taken from [lot]. *)
Definition matched_record (lot : BuyLot) (matched_qty : Z) : MatchedLot :=
  let buy_value := Dec.mul (Dec.of_int matched_qty) (lot_price lot) in
  let sell_value := Dec.mul (Dec.of_int matched_qty) price in
  mkMatchedLot (lot_trade_date lot) trade_date matched_qty (lot_price lot) price
               buy_value sell_value (Dec.sub sell_value buy_value)
               (trade_date - lot_trade_date lot)
               (classify (trade_date - lot_trade_date lot))
               (lot_trade_id lot) trade_id.

(** What is left of the last lot a sale reaches. *)
Definition leftover (lot : BuyLot) (taken : Z) : list BuyLot :=
  if lot_remaining_qty lot - taken =? 0 then []
  else [set_remaining lot (lot_remaining_qty lot - taken)].

Lemma sell_loop_done : forall fuel lots mls ms,
  sell_loop fuel trade_date price trade_id (mkSellState lots mls ms 0)
  = mkSellState lots mls ms 0.
Proof. intros [|fuel] lots mls ms; reflexivity. Qed.

Lemma sell_loop_oldest_first : forall full fuel mls ms rs lot kept,
  (List.length full < fuel)%nat ->
  lots_positive full -> 0 < lot_remaining_qty lot ->
  sum_remaining full < rs <= sum_remaining full + lot_remaining_qty lot ->
  let records :=
    map (fun l => matched_record l (lot_remaining_qty l)) full
    ++ [matched_record lot (rs - sum_remaining full)] in
  sell_loop fuel trade_date price trade_id
    (mkSellState (full ++ lot :: kept) mls ms rs)
  = mkSellState (leftover lot (rs - sum_remaining full) ++ kept)
                (mls ++ records) (ms ++ records) 0.
Proof.
  induction full as [|l full IH]; intros fuel mls ms rs lot kept Hfuel Hpos Hlot Hrs.
  - cbn [sum_remaining fold_right] in Hrs.
    destruct fuel as [|fuel]; [cbn in Hfuel; lia|].
    cbn [sell_loop app]. unfold sell_guard. cbn [st_remaining_sell st_lots].
    destruct (Z.ltb_spec 0 rs) as [_|]; [|lia]. cbn [andb].
    unfold sell_step. cbn [st_lots st_remaining_sell st_matched_lots st_matched].
    rewrite (Z.min_l rs (lot_remaining_qty lot)) by lia.
    cbn [set_remaining lot_remaining_qty].
    replace (rs - rs) with 0 by lia.
    cbn [map sum_remaining fold_right app]. rewrite Z.sub_0_r.
    rewrite sell_loop_done. unfold leftover, matched_record.
    destruct (lot_remaining_qty lot - rs =? 0); reflexivity.
  - rewrite sum_remaining_cons in Hrs.
    inversion Hpos as [|? ? Hl Hfull]; subst. cbv beta in Hl.
    assert (Hnn : 0 <= sum_remaining full).
    { clear -Hfull. induction Hfull as [|x xs Hx _ IHx]; cbn; [lia|].
      unfold sum_remaining in IHx. lia. }
    destruct fuel as [|fuel]; [cbn in Hfuel; lia|].
    cbn [sell_loop app]. unfold sell_guard. cbn [st_remaining_sell st_lots].
    destruct (Z.ltb_spec 0 rs) as [_|]; [|lia]. cbn [andb].
    unfold sell_step at 1. cbn [st_lots st_remaining_sell st_matched_lots st_matched].
    rewrite (Z.min_r rs (lot_remaining_qty l)) by lia.
    cbn [set_remaining lot_remaining_qty].
    rewrite Z.sub_diag. cbn [Z.eqb].
    rewrite (IH fuel _ _ (rs - lot_remaining_qty l) lot kept);
      [|cbn in Hfuel; lia|exact Hfull|exact Hlot|lia].
    cbn [map]. rewrite sum_remaining_cons.
    replace (rs - lot_remaining_qty l - sum_remaining full)
      with (rs - (lot_remaining_qty l + sum_remaining full)) by lia.
    rewrite <- !app_assoc. reflexivity.
Qed.

(** X11: an accepted sale consumes the queue oldest lot first.  If the lots
    [full] at the head of the queue hold fewer units than the sale and
    together with the next lot [lot] at least as many, the sale takes every
    lot of [full] whole and the rest from [lot]: it returns one record per
    lot touched, in queue order, removes the exhausted lots, leaves what
    remains of [lot] at the head, and leaves the lots behind it alone. *)
Theorem process_sell_oldest_first : forall self qty full lot kept,
  buy_lots self = full ++ lot :: kept ->
  lots_positive (buy_lots self) ->
  sum_remaining full < qty <= sum_remaining full + lot_remaining_qty lot ->
  let records :=
    map (fun l => matched_record l (lot_remaining_qty l)) full
    ++ [matched_record lot (qty - sum_remaining full)] in
  process_sell self trade_date qty price trade_id
  = (mkEngine (leftover lot (qty - sum_remaining full) ++ kept)
              (matched_lots self ++ records)
              (total_bought self) (total_sold self + qty),
     Return records).
Proof.
  intros self qty full lot kept Hq Hpos Hqty records.
  assert (Hparts : lots_positive full /\ 0 < lot_remaining_qty lot /\
                   lots_positive kept).
  { unfold lots_positive in *. rewrite Hq in Hpos.
    apply Forall_app in Hpos. destruct Hpos as [Hf Hk].
    inversion Hk; subst. auto. }
  destruct Hparts as (Hfull & Hlot & Hkept).
  assert (Hk0 : 0 <= sum_remaining kept).
  { clear -Hkept. induction Hkept as [|x xs Hx _ IHx]; cbn; [lia|].
    unfold sum_remaining in IHx. lia. }
  unfold process_sell.
  assert (Hav : get_available_quantity self
                = sum_remaining full + (lot_remaining_qty lot + sum_remaining kept)).
  { unfold get_available_quantity. rewrite Hq.
    change (fold_right _ 0 (full ++ lot :: kept))
      with (sum_remaining (full ++ lot :: kept)).
    rewrite sum_remaining_app, sum_remaining_cons. reflexivity. }
  destruct (Z.ltb_spec (get_available_quantity self) qty) as [Hlt|_]; [lia|].
  remember (List.length (buy_lots self)) as fuel eqn:Hfuel.
  assert (Hlen : (List.length full < fuel)%nat).
  { rewrite Hfuel, Hq, length_app. cbn. lia. }
  rewrite Hq.
  rewrite (sell_loop_oldest_first full fuel (matched_lots self) [] qty lot kept
             Hlen Hfull Hlot Hqty).
  cbn [st_lots st_matched_lots st_matched app]. reflexivity.
Qed.

(** X12: [process_sell] does not reject a quantity of zero or less: within
    the available quantity it matches nothing, returns no record, leaves
    the queue as it is, and still adds the quantity to the total sold. *)
Theorem process_sell_nonpositive : forall self qty,
  qty <= 0 -> qty <= get_available_quantity self ->
  process_sell self trade_date qty price trade_id
  = (mkEngine (buy_lots self) (matched_lots self) (total_bought self)
              (total_sold self + qty),
     Return []).
Proof.
  intros self qty Hq Hav. unfold process_sell.
  destruct (Z.ltb_spec (get_available_quantity self) qty) as [|_]; [lia|].
  assert (Hstop : forall fuel,
            sell_loop fuel trade_date price trade_id
              (mkSellState (buy_lots self) (matched_lots self) [] qty)
            = mkSellState (buy_lots self) (matched_lots self) [] qty).
  { intros [|fuel]; [reflexivity|]. cbn [sell_loop]. unfold sell_guard.
    cbn [st_remaining_sell]. destruct (Z.ltb_spec 0 qty); [lia|]. reflexivity. }
  rewrite Hstop. reflexivity.
Qed.

End OldestFirst.
Section OldestFirstExample.

Import Fifo.

(** Two lots, 100 units at 50 bought on day 0 and 50 units at 55 bought on
    day 30, and a sale of 120 units at 60 on day 400. *)
Definition older_lot : BuyLot := mkBuyLot 0 None 100 50%Q 100 "T001" None.

Definition newer_lot : BuyLot := mkBuyLot 30 None 50 55%Q 50 "T002" None.

Definition two_lot_engine : FIFOEngine :=
  mkEngine [older_lot; newer_lot] [] 150 0.

Lemma process_sell_oldest_first_witness :
  buy_lots two_lot_engine = [older_lot] ++ newer_lot :: [] /\
  lots_positive (buy_lots two_lot_engine) /\
  sum_remaining [older_lot] < 120
    <= sum_remaining [older_lot] + lot_remaining_qty newer_lot /\
  process_sell two_lot_engine 400 120 60%Q "T003"
  = (mkEngine (leftover newer_lot (120 - sum_remaining [older_lot]) ++ [])
              (matched_lots two_lot_engine
               ++ (map (fun l => matched_record 400 60%Q "T003" l (lot_remaining_qty l))
                       [older_lot]
                   ++ [matched_record 400 60%Q "T003" newer_lot
                         (120 - sum_remaining [older_lot])]))
              (total_bought two_lot_engine) (total_sold two_lot_engine + 120),
     Return (map (fun l => matched_record 400 60%Q "T003" l (lot_remaining_qty l))
                 [older_lot]
             ++ [matched_record 400 60%Q "T003" newer_lot
                   (120 - sum_remaining [older_lot])])).
Proof.
  assert (H1 : buy_lots two_lot_engine = [older_lot] ++ newer_lot :: [])
    by reflexivity.
  assert (H2 : lots_positive (buy_lots two_lot_engine))
    by (repeat constructor).
  assert (H3 : sum_remaining [older_lot] < 120
               <= sum_remaining [older_lot] + lot_remaining_qty newer_lot)
    by (cbn; lia).
  split; [exact H1|]. split; [exact H2|]. split; [exact H3|].
  exact (process_sell_oldest_first 400 60%Q "T003" two_lot_engine 120
           [older_lot] newer_lot [] H1 H2 H3).
Defined.

Lemma process_sell_nonpositive_witness :
  -5 <= 0 /\ -5 <= get_available_quantity two_lot_engine /\
  process_sell two_lot_engine 400 (-5) 60%Q "T003"
  = (mkEngine (buy_lots two_lot_engine) (matched_lots two_lot_engine)
              (total_bought two_lot_engine) (total_sold two_lot_engine + -5),
     Return []).
Proof.
  assert (H1 : -5 <= 0) by lia.
  assert (H2 : -5 <= get_available_quantity two_lot_engine) by (cbn; lia).
  split; [exact H1|]. split; [exact H2|].
  exact (process_sell_nonpositive 400 60%Q "T003" two_lot_engine (-5) H1 H2).
Defined.

End OldestFirstExample.

Section LedgerOperations.

Import Models Alloc.

Lemma get_total_holdings_trades : forall db db' self,
  trades db' = trades db ->
  get_total_holdings db' self = get_total_holdings db self.
Proof.
  intros db db' self H.
  unfold get_total_holdings, _get_fifo_engine, query_trades. rewrite H.
  reflexivity.
Qed.

(** X16: [sync_with_holdings] is idempotent: on a database whose tables
    satisfy their constraints it returns, and a second call right after
    finds nothing to do, returns {adjusted: 0, deleted: 0} and leaves the
    database as the first call left it. *)
Theorem sync_with_holdings_idempotent : forall db self,
  trades_checked db -> allocations_keyed db ->
  quantities_positive (allocations db) ->
  exists db1 res1,
    sync_with_holdings db self = (db1, Return res1) /\
    sync_with_holdings db1 self = (db1, Return (mkSyncResult 0 0)).
Proof.
  intros db self Ht Hk Hp.
  destruct (get_total_holdings_total db self) as (h & Hh & _).
  destruct (sync_with_holdings_spec self db h Ht Hk Hp Hh)
    as (db1 & res1 & H1 & Htr & Hk1 & Hp1 & Hle & _).
  exists db1, res1. split; [exact H1|].
  assert (Ht1 : trades_checked db1) by (unfold trades_checked; rewrite Htr; exact Ht).
  assert (Hh1 : get_total_holdings db1 self = Return h)
    by (rewrite (get_total_holdings_trades db db1 self Htr); exact Hh).
  destruct (sync_with_holdings_spec self db1 h Ht1 Hk1 Hp1 Hh1)
    as (db2 & res2 & H2 & _ & _ & _ & _ & Hnoop & _).
  destruct (Hnoop Hle) as [-> ->]. exact H2.
Qed.

Lemma find_app_fresh : forall (f : Allocation -> bool) rows a,
  (forall b, In b rows -> f b = false) ->
  find f (rows ++ [a]) = if f a then Some a else None.
Proof.
  intros f rows a H. induction rows as [|b rows IH]; [reflexivity|].
  cbn [app find]. rewrite (H b (or_introl eq_refl)). apply IH.
  intros c Hc. apply H. right. exact Hc.
Qed.

Lemma find_app_old : forall (f : Allocation -> bool) rows a,
  f a = false -> find f (rows ++ [a]) = find f rows.
Proof.
  intros f rows a H. induction rows as [|b rows IH].
  - cbn. rewrite H. reflexivity.
  - cbn [app find]. destruct (f b); [reflexivity|exact IH].
Qed.

Lemma remove_app_fresh : forall rows a,
  ~ In (al_id a) (map al_id rows) -> remove (rows ++ [a]) (al_id a) = rows.
Proof.
  intros rows a H. unfold remove. rewrite filter_app. cbn [filter].
  rewrite Z.eqb_refl. cbn [negb]. rewrite app_nil_r.
  apply (remove_absent rows (al_id a) H).
Qed.

Lemma set_allocations_back : forall db rows,
  set_allocations (set_allocations db rows) (allocations db) = db.
Proof. intros [t a o g c] rows. reflexivity. Qed.

Lemma create_allocation_row : forall db self owner_id goal_id qty db' a,
  create_allocation db self owner_id goal_id qty = (db', Return a) ->
  db' = set_allocations db (allocations db ++ [a]) /\
  al_id a = next_id (map al_id (allocations db)) /\
  al_stock_id a = stock_id self /\ al_account_id a = account_id self /\
  al_owner_id a = owner_id /\ al_goal_id a = goal_id /\ al_quantity a = qty /\
  0 < qty.
Proof.
  intros db self o g q db' a H. unfold create_allocation in H.
  destruct (negb (mem_id o (owners db))); [discriminate|].
  destruct (negb (mem_id g (goals db))); [discriminate|].
  destruct (get_available_units db self) as [av|x]; [|discriminate].
  destruct (av <? q); [discriminate|].
  destruct (get_weighted_average_price db self q) as [[p [d|]]|x];
    [|discriminate|discriminate].
  destruct (Z.leb_spec q 0) as [|Hq]; [discriminate|].
  injection H as <- <-. cbn. repeat split; try reflexivity. exact Hq.
Qed.

(** X21: a row [create_allocation] has stored is found under its id, no other
    id's row is affected, and deleting it again restores the database. *)
Theorem create_then_delete : forall db self owner_id goal_id qty db' a,
  create_allocation db self owner_id goal_id qty = (db', Return a) ->
  get_allocation db' (al_id a) = Some a /\
  (forall i, i <> al_id a -> get_allocation db' i = get_allocation db i) /\
  delete_allocation db' self (al_id a) = (db, Return true).
Proof.
  intros db self o g q db' a H.
  destruct (create_allocation_row _ _ _ _ _ _ _ H)
    as (-> & Hid & Hs & Hacc & _).
  assert (Hfresh : ~ In (al_id a) (map al_id (allocations db)))
    by (rewrite Hid; apply next_id_fresh).
  assert (Hget : get_allocation (set_allocations db (allocations db ++ [a])) (al_id a)
                 = Some a).
  { unfold get_allocation. cbn [set_allocations allocations].
    rewrite find_app_fresh; [rewrite Z.eqb_refl; reflexivity|].
    intros b Hb. apply Z.eqb_neq. intros E. apply Hfresh. rewrite <- E.
    apply in_map. exact Hb. }
  split; [exact Hget|]. split.
  - intros i Hi. unfold get_allocation. cbn [set_allocations allocations].
    apply find_app_old. apply Z.eqb_neq. auto.
  - unfold delete_allocation. rewrite Hget.
    unfold own_row. rewrite Hs, Hacc, !Z.eqb_refl. cbn [andb negb].
    cbn [set_allocations allocations]. rewrite (remove_app_fresh _ _ Hfresh).
    f_equal. apply (set_allocations_back db).
Qed.

(** X22: [update_allocation] never changes the cost basis of a row: the row
    it returns has the id, stock, account, buy price and buy date of the
    stored row, whatever owner, goal or quantity is set. *)
Theorem update_allocation_keeps_cost_basis :
  forall db self allocation_id new_quantity new_owner_id new_goal_id db' a',
    update_allocation db self allocation_id new_quantity new_owner_id new_goal_id
      = (db', Return a') ->
    exists a,
      get_allocation db allocation_id = Some a /\
      al_id a' = al_id a /\
      al_stock_id a' = al_stock_id a /\ al_account_id a' = al_account_id a /\
      al_buy_price a' = al_buy_price a /\ al_buy_date a' = al_buy_date a /\
      (new_owner_id = None -> al_owner_id a' = al_owner_id a) /\
      (new_goal_id = None -> al_goal_id a' = al_goal_id a) /\
      (new_quantity = None -> al_quantity a' = al_quantity a).
Proof.
  intros db self i nq no ng db' a' H. unfold update_allocation in H.
  destruct (get_allocation db i) as [a|]; [|discriminate].
  exists a. split; [reflexivity|].
  destruct (negb (own_row self a)); [discriminate|].
  destruct no as [o|].
  - destruct (negb (mem_id o (owners db))); [discriminate|].
    destruct ng as [g|].
    + destruct (negb (mem_id g (goals db))); [discriminate|].
      destruct nq as [q|].
      * destruct (q <=? 0); [discriminate|].
        destruct (get_total_holdings db self) as [t|x]; [|discriminate].
        cbn [set_goal set_owner al_quantity] in H.
        destruct (_ <? q); [discriminate|].
        injection H as _ <-. cbn. repeat split; intros; discriminate.
      * injection H as _ <-. cbn. repeat split; intros; discriminate.
    + destruct nq as [q|].
      * destruct (q <=? 0); [discriminate|].
        destruct (get_total_holdings db self) as [t|x]; [|discriminate].
        cbn [set_goal set_owner al_quantity] in H.
        destruct (_ <? q); [discriminate|].
        injection H as _ <-. cbn. repeat split; intros; discriminate.
      * injection H as _ <-. cbn. repeat split; intros; discriminate.
  - destruct ng as [g|].
    + destruct (negb (mem_id g (goals db))); [discriminate|].
      destruct nq as [q|].
      * destruct (q <=? 0); [discriminate|].
        destruct (get_total_holdings db self) as [t|x]; [|discriminate].
        cbn [set_goal set_owner al_quantity] in H.
        destruct (_ <? q); [discriminate|].
        injection H as _ <-. cbn. repeat split; intros; discriminate.
      * injection H as _ <-. cbn. repeat split; intros; discriminate.
    + destruct nq as [q|].
      * destruct (q <=? 0); [discriminate|].
        destruct (get_total_holdings db self) as [t|x]; [|discriminate].
        destruct (_ <? q); [discriminate|].
        injection H as _ <-. cbn. repeat split; intros; discriminate.
      * injection H as _ <-. cbn. repeat split; intros; discriminate.
Qed.

Lemma wap_loop_zero : forall lots total_value earliest_date lots_to_skip,
  snd (fst (wap_loop lots total_value 0 earliest_date 0 lots_to_skip)) = 0.
Proof.
  induction lots as [|lot rest IH]; intros tv ed sk; [reflexivity|].
  cbn [wap_loop]. cbv zeta.
  destruct (_ <=? 0) eqn:Ha; [apply IH|].
  apply Z.leb_gt in Ha. rewrite Z.min_l by lia. cbn [Z.add Z.sub Z.leb Z.compare].
  reflexivity.
Qed.

Lemma get_available_units_total : forall db self,
  exists av, get_available_units db self = Return av /\ 0 <= av.
Proof.
  intros db self. unfold get_available_units.
  destruct (get_total_holdings_total db self) as (h & -> & _).
  eexists. split; [reflexivity|]. lia.
Qed.

(** X18: an allocation of zero units is always refused: with an existing
    owner and goal, [create_allocation] raises InsufficientUnitsError for
    quantity 0 whatever is held, and stores nothing. *)
Theorem create_allocation_zero_units : forall db self owner_id goal_id,
  mem_id owner_id (owners db) = true ->
  mem_id goal_id (goals db) = true ->
  create_allocation db self owner_id goal_id 0
  = (db, Raise InsufficientUnitsError).
Proof.
  intros db self o g Ho Hg. unfold create_allocation. rewrite Ho, Hg. cbn [negb].
  destruct (get_available_units_total db self) as (av & -> & Hav).
  destruct (Z.ltb_spec av 0) as [|_]; [lia|].
  unfold get_weighted_average_price.
  destruct (_get_fifo_engine db self) as [engine|x] eqn:He.
  - pose proof (wap_loop_zero (Fifo.get_current_holdings_as_lots engine) 0%Q None
                  (get_allocated_units db self)) as Hz.
    destruct (wap_loop _ _ _ _ _ _) as [[tv tq] ed]. cbn [fst snd] in Hz.
    rewrite Hz. reflexivity.
  - exfalso. unfold _get_fifo_engine in He.
    destruct (replay_total (query_trades db self) Fifo.init) as [e' He'].
    congruence.
Qed.

Lemma sum_remaining_nonneg : forall lots,
  lots_positive lots -> 0 <= sum_remaining lots.
Proof.
  intros lots H. induction H as [|x xs Hx _ IH]; cbn; [lia|].
  unfold sum_remaining in IH. lia.
Qed.

(** Lots covered by the units already allocated are passed over. *)
Lemma wap_loop_skip : forall pre rest tv tq ed rem sk,
  lots_positive pre -> sum_remaining pre <= sk ->
  wap_loop (pre ++ rest) tv tq ed rem sk
  = wap_loop rest tv tq ed rem (sk - sum_remaining pre).
Proof.
  induction pre as [|l pre IH]; intros rest tv tq ed rem sk Hpos Hsk.
  - cbn [app sum_remaining fold_right]. rewrite Z.sub_0_r. reflexivity.
  - inversion Hpos as [|? ? Hl Hpre]; subst. cbv beta in Hl.
    rewrite sum_remaining_cons in *.
    pose proof (sum_remaining_nonneg pre Hpre) as Hnn.
    cbn [app wap_loop]. cbv zeta.
    destruct (Z.ltb_spec 0 sk) as [_|]; [|lia].
    rewrite (Z.min_r sk (Fifo.lot_remaining_qty l)) by lia.
    rewrite Z.sub_diag. cbn [Z.leb Z.compare].
    rewrite (IH rest tv tq ed rem (sk - Fifo.lot_remaining_qty l) Hpre) by lia.
    f_equal. lia.
Qed.

(** Once a first lot has been drawn on, the date stays and the quantity
    taken stays positive. *)
Lemma wap_loop_started : forall lots tv tq d rem sk,
  lots_positive lots -> 0 < tq -> 0 < rem -> 0 <= sk ->
  exists tv' tq', wap_loop lots tv tq (Some d) rem sk = (tv', tq', Some d) /\ 0 < tq'.
Proof.
  induction lots as [|l lots IH]; intros tv tq d rem sk Hpos Htq Hrem Hsk.
  - exists tv, tq. split; [reflexivity|exact Htq].
  - inversion Hpos as [|? ? Hl Hlots]; subst. cbv beta in Hl.
    cbn [wap_loop]. cbv zeta.
    set (skip := if 0 <? sk then Z.min sk (Fifo.lot_remaining_qty l) else 0).
    assert (Hskip : 0 <= skip <= sk /\ skip <= Fifo.lot_remaining_qty l).
    { unfold skip. destruct (Z.ltb_spec 0 sk); lia. }
    destruct (Z.leb_spec (Fifo.lot_remaining_qty l - skip) 0) as [Ha|Ha].
    + apply IH; auto; lia.
    + destruct (Z.leb_spec (rem - Z.min rem (Fifo.lot_remaining_qty l - skip)) 0)
        as [Hr|Hr].
      * eexists _, _. split; [reflexivity|]. lia.
      * apply IH; auto; lia.
Qed.

Lemma wap_loop_first : forall lot post qty sk,
  lots_positive (lot :: post) -> 0 < qty -> 0 <= sk < Fifo.lot_remaining_qty lot ->
  exists tv tq,
    wap_loop (lot :: post) 0%Q 0 None qty sk
    = (tv, tq, Some (Fifo.lot_trade_date lot)) /\ 0 < tq.
Proof.
  intros lot post qty sk Hpos Hq Hsk.
  inversion Hpos as [|? ? Hl Hpost]; subst. cbv beta in Hl.
  cbn [wap_loop]. cbv zeta.
  set (skip := if 0 <? sk then Z.min sk (Fifo.lot_remaining_qty lot) else 0).
  assert (Hskip : skip = sk).
  { unfold skip. destruct (Z.ltb_spec 0 sk); lia. }
  rewrite Hskip.
  destruct (Z.leb_spec (Fifo.lot_remaining_qty lot - sk) 0) as [Ha|Ha]; [lia|].
  rewrite Z.add_0_l.
  destruct (Z.leb_spec (qty - Z.min qty (Fifo.lot_remaining_qty lot - sk)) 0)
    as [Hr|Hr].
  - eexists _, _. split; [reflexivity|]. lia.
  - apply wap_loop_started; auto; lia.
Qed.

Lemma open_lots_positive : forall engine,
  lots_positive (Fifo.get_current_holdings_as_lots engine).
Proof.
  intros engine. unfold Fifo.get_current_holdings_as_lots, lots_positive.
  apply Forall_forall. intros lot Hin. apply filter_In in Hin.
  destruct Hin as [_ H]. apply Z.ltb_lt in H. exact H.
Qed.

(** X19: [get_weighted_average_price] takes allocations to cover the oldest
    open lots.  If the open lots [pre] hold no more units than are
    allocated and the next lot [lot] holds the first unallocated unit, the
    date returned for a positive quantity is the trade date of [lot]; if
    the allocations cover all open lots, the call raises
    InsufficientUnitsError. *)
Theorem weighted_average_price_date : forall db self engine,
  _get_fifo_engine db self = Return engine ->
  (forall qty pre lot post,
     Fifo.get_current_holdings_as_lots engine = pre ++ lot :: post ->
     sum_remaining pre <= get_allocated_units db self
       < sum_remaining pre + Fifo.lot_remaining_qty lot ->
     0 < qty ->
     exists avg_price,
       get_weighted_average_price db self qty
       = Return (avg_price, Some (Fifo.lot_trade_date lot))) /\
  (forall qty,
     sum_remaining (Fifo.get_current_holdings_as_lots engine)
       <= get_allocated_units db self ->
     get_weighted_average_price db self qty = Raise InsufficientUnitsError).
Proof.
  intros db self engine He.
  pose proof (open_lots_positive engine) as Hpos. split.
  - intros qty pre lot post Hlots Hsk Hq.
    unfold get_weighted_average_price. rewrite He, Hlots.
    rewrite Hlots in Hpos. unfold lots_positive in Hpos.
    apply Forall_app in Hpos. destruct Hpos as [Hpre Hrest].
    rewrite (wap_loop_skip pre (lot :: post) _ _ _ _ _ Hpre) by lia.
    destruct (wap_loop_first lot post qty
                (get_allocated_units db self - sum_remaining pre) Hrest Hq
                ltac:(lia)) as (tv & tq & -> & Htq).
    destruct (Z.eqb_spec tq 0) as [|_]; [lia|].
    eexists. reflexivity.
  - intros qty Hsk. unfold get_weighted_average_price. rewrite He.
    rewrite <- (app_nil_r (Fifo.get_current_holdings_as_lots engine)).
    rewrite (wap_loop_skip _ [] _ _ _ _ _ Hpos Hsk). reflexivity.
Qed.

(** Total quantity of the stored trades of one direction. *)
Definition trade_units (ty : Fifo.TradeType) (ts : list Trade) : Z :=
  fold_right (fun t acc => match tr_trade_type t, ty with
                           | Fifo.Buy, Fifo.Buy | Fifo.Sell, Fifo.Sell =>
                               tr_quantity t + acc
                           | _, _ => acc
                           end) 0 ts.

(** The trades of the manager's (stock, account). *)
Definition pair_trades (db : Database) (self : AllocationManager) : list Trade :=
  filter (fun t => (tr_stock_id t =? stock_id self) &&
                   (tr_account_id t =? account_id self)) (trades db).

Lemma trade_units_perm : forall ty ts ts',
  Permutation ts ts' -> trade_units ty ts = trade_units ty ts'.
Proof.
  intros ty ts ts' H. unfold trade_units.
  induction H as [|t l l' _ IH|a b l|l1 l2 l3 _ IH1 _ IH2]; cbn [fold_right].
  - reflexivity.
  - rewrite IH. reflexivity.
  - destruct (tr_trade_type a), (tr_trade_type b), ty; lia.
  - congruence.
Qed.

Lemma replay_bounds : forall ts engine engine',
  Forall (fun t => 0 < tr_quantity t) ts ->
  lots_positive (Fifo.buy_lots engine) ->
  replay engine ts = Return engine' ->
  Fifo.get_available_quantity engine
    + trade_units Fifo.Buy ts - trade_units Fifo.Sell ts
    <= Fifo.get_available_quantity engine'
    <= Fifo.get_available_quantity engine + trade_units Fifo.Buy ts.
Proof.
  induction ts as [|t ts IH]; intros e e' Hq Hpos H.
  - cbn in H. injection H as <-. cbn. lia.
  - inversion Hq as [|? ? Ht Hts]; subst.
    cbn [replay] in H.
    destruct (replay_trade e t) as [e1|x] eqn:H1; [|discriminate].
    pose proof (replay_trade_positive e t e1 Ht Hpos H1) as Hpos1.
    specialize (IH e1 e' Hts Hpos1 H).
    unfold trade_units in *. cbn [fold_right].
    unfold replay_trade in H1.
    destruct (tr_trade_type t).
    + injection H1 as <-.
      unfold Fifo.get_available_quantity in *. cbn [Fifo.process_buy fst Fifo.buy_lots] in IH.
      change (fold_right _ 0 (Fifo.buy_lots e ++ ?l))
        with (sum_remaining (Fifo.buy_lots e ++ l)) in IH.
      rewrite sum_remaining_app in IH. cbn in IH. unfold sum_remaining in IH. lia.
    + destruct (Z_le_gt_dec (tr_quantity t) (Fifo.get_available_quantity e))
        as [Hle|Hgt].
      * destruct (process_sell_ok (tr_trade_date t) (tr_price t) (tr_trade_id t)
                    e (tr_quantity t) ltac:(lia) Hle)
          as (e2 & ms & Heq & A & _).
        rewrite Heq in H1. injection H1 as <-. lia.
      * rewrite (process_sell_raises (tr_trade_date t) (tr_price t) (tr_trade_id t)
                   e (tr_quantity t) ltac:(lia)) in H1.
        injection H1 as <-. lia.
Qed.

(** X20: the holdings the manager computes always exist; with positive
    trade quantities they are not negative, at most the units bought for
    the pair and at least the units bought less the units sold (a sell
    that is passed over only leaves more). *)
Theorem total_holdings_bounds : forall db self,
  trades_checked db ->
  exists h,
    get_total_holdings db self = Return h /\
    0 <= h /\
    trade_units Fifo.Buy (pair_trades db self)
      - trade_units Fifo.Sell (pair_trades db self) <= h /\
    h <= trade_units Fifo.Buy (pair_trades db self).
Proof.
  intros db self Ht.
  destruct (get_total_holdings_total db self) as (h & Hh & Hnn).
  exists h. split; [exact Hh|]. split; [exact (Hnn Ht)|].
  unfold get_total_holdings, _get_fifo_engine in Hh.
  destruct (replay Fifo.init (query_trades db self)) as [e|x] eqn:Hr;
    [|discriminate].
  injection Hh as <-.
  assert (Hinit : lots_positive (Fifo.buy_lots Fifo.init)) by constructor.
  pose proof (replay_bounds _ _ _ (query_trades_checked db self Ht) Hinit Hr)
    as Hb.
  change (Fifo.get_available_quantity Fifo.init) with 0 in Hb.
  assert (Hp : Permutation (query_trades db self) (pair_trades db self))
    by (unfold query_trades, pair_trades; apply sort_by_perm).
  rewrite <- (trade_units_perm Fifo.Buy _ _ Hp).
  rewrite <- (trade_units_perm Fifo.Sell _ _ Hp). lia.
Qed.

Definition foreign_rows (self : AllocationManager) (rows : list Allocation)
    : list Allocation :=
  filter (fun a => negb (own_row self a)) rows.

Lemma remove_foreign : forall self rows a,
  own_row self a = true -> NoDup (map al_id rows) -> In a rows ->
  foreign_rows self (remove rows (al_id a)) = foreign_rows self rows.
Proof.
  intros self rows a Hown Hnd Hin. unfold foreign_rows, remove.
  induction rows as [|b rows IH]; [reflexivity|].
  cbn [map] in Hnd. inversion Hnd as [|? ? Hnotin Hnd']; subst.
  cbn [filter]. destruct (Z.eqb_spec (al_id b) (al_id a)) as [E|E]; cbn [negb].
  - assert (Eb : b = a).
    { destruct Hin as [Hb|Hb]; [exact Hb|]. exfalso. apply Hnotin. rewrite E.
      apply in_map. exact Hb. }
    subst b. rewrite Hown. cbn [negb].
    assert (Hrm : filter (fun a0 => negb (al_id a0 =? al_id a)) rows = rows).
    { apply (remove_absent rows (al_id a) Hnotin). }
    rewrite Hrm. reflexivity.
  - cbn [filter]. destruct Hin as [Hb|Hb]; [congruence|].
    rewrite (IH Hnd' Hb). reflexivity.
Qed.

Lemma store_foreign : forall self rows a q,
  own_row self a = true -> NoDup (map al_id rows) -> In a rows ->
  foreign_rows self (store rows (set_quantity a q)) = foreign_rows self rows.
Proof.
  intros self rows a q Hown Hnd Hin. unfold foreign_rows, store.
  cbn [set_quantity al_id].
  induction rows as [|b rows IH]; [reflexivity|].
  cbn [map] in Hnd. inversion Hnd as [|? ? Hnotin Hnd']; subst.
  cbn [map filter]. destruct (Z.eqb_spec (al_id b) (al_id a)) as [E|E].
  - assert (Eb : b = a).
    { destruct Hin as [Hb|Hb]; [exact Hb|]. exfalso. apply Hnotin. rewrite E.
      apply in_map. exact Hb. }
    subst b.
    assert (Hown' : own_row self (set_quantity a q) = true) by exact Hown.
    rewrite Hown', Hown. cbn [negb].
    assert (Hst : map (fun a0 => if al_id a0 =? al_id a
                                 then set_quantity a q else a0) rows = rows).
    { apply (store_absent rows (set_quantity a q)). exact Hnotin. }
    unfold set_quantity in Hst. cbn [al_id] in Hst. unfold set_quantity.
    rewrite Hst. reflexivity.
  - destruct Hin as [Hb|Hb]; [congruence|].
    rewrite (IH Hnd' Hb). reflexivity.
Qed.

Lemma sync_loop_foreign : forall self l rows ex adj del rows' ex' adj' del',
  NoDup (map al_id l) -> NoDup (map al_id rows) ->
  (forall a, In a l -> In a rows /\ own_row self a = true) ->
  sync_loop l rows ex adj del = (rows', ex', adj', del') ->
  foreign_rows self rows' = foreign_rows self rows.
Proof.
  intros self. induction l as [|a l IH];
    intros rows ex adj del rows' ex' adj' del' Hl Hrows Hin H.
  - cbn in H. injection H as <- _ _ _. reflexivity.
  - cbn [sync_loop] in H.
    destruct (ex <=? 0); [injection H as <- _ _ _; reflexivity|].
    cbn [map] in Hl. inversion Hl as [|? ? Hnotin Hl']; subst.
    destruct (Hin a (or_introl eq_refl)) as [Ha Hown].
    destruct (al_quantity a <=? ex).
    + assert (Hin' : forall b, In b l ->
                  In b (remove rows (al_id a)) /\ own_row self b = true).
      { intros b Hb. destruct (Hin b (or_intror Hb)) as [Hb1 Hb2].
        split; [|exact Hb2]. apply remove_keeps; [exact Hb1|].
        intros E. apply Hnotin. rewrite <- E. apply in_map. exact Hb. }
      rewrite (IH _ _ _ _ _ _ _ _ Hl' (remove_ids rows (al_id a) Hrows) Hin' H).
      apply remove_foreign; assumption.
    + rewrite sync_loop_done in H. injection H as <- _ _ _.
      apply store_foreign; assumption.
Qed.

(** X17: [sync_with_holdings] never touches the allocations of another
    (stock, account) pair, nor any other table. *)
Theorem sync_with_holdings_other_pairs : forall db self db' r,
  allocations_keyed db ->
  sync_with_holdings db self = (db', r) ->
  foreign_rows self (allocations db') = foreign_rows self (allocations db) /\
  trades db' = trades db /\ owners db' = owners db /\ goals db' = goals db /\
  Models.corporate_actions db' = Models.corporate_actions db.
Proof.
  intros db self db' r Hk H. unfold sync_with_holdings in H.
  destruct (get_total_holdings db self) as [h|x].
  - destruct (_ <=? h).
    + injection H as <- _. auto.
    + destruct (sync_loop _ _ _ _ _) as [[[rows e] a] d] eqn:Hl.
      injection H as <- _. cbn [set_allocations allocations trades owners goals
                                 Models.corporate_actions].
      repeat split.
      assert (Hp : Permutation (get_allocations db self)
                               (filter (own_row self) (allocations db)))
        by (unfold get_allocations; apply sort_by_perm).
      refine (sync_loop_foreign self _ _ _ _ _ _ _ _ _ _ Hk _ Hl).
      * eapply Permutation_NoDup;
          [apply Permutation_map, Permutation_sym; exact Hp|].
        apply filter_keys. exact Hk.
      * intros b Hb. apply (Permutation_in _ Hp) in Hb.
        apply filter_In in Hb. exact Hb.
  - injection H as <- _. auto.
Qed.

(** A ledger: the pair (stock 1, account 1) bought 100 units on day 1 and
    50 on day 5 and sold 30 on day 9, so that it holds 120; 90 units are
    allocated to owner 1.  Another stock of the account has a trade and an
    allocation of its own. *)
Definition sample_trade_rows : list Trade :=
  [mkTrade 1 1 1 Fifo.Buy 1 None 100 50%Q "T1";
   mkTrade 2 1 1 Fifo.Buy 5 None 50 55%Q "T2";
   mkTrade 3 1 1 Fifo.Sell 9 None 30 60%Q "T3";
   mkTrade 4 1 2 Fifo.Buy 2 None 10 20%Q "T4"].

Definition sample_db : Database :=
  mkDatabase sample_trade_rows
    [mkAllocation 1 1 1 1 1 90 50%Q 1;
     mkAllocation 3 2 1 1 1 10 20%Q 2]
    [1; 2] [1] [].

(** The same ledger with 40 more units allocated to owner 2: 130 units
    allocated of 120 held. *)
Definition crowded_db : Database :=
  mkDatabase sample_trade_rows
    [mkAllocation 1 1 1 1 1 90 50%Q 1;
     mkAllocation 2 1 1 2 1 40 55%Q 5;
     mkAllocation 3 2 1 1 1 10 20%Q 2]
    [1; 2] [1] [].

Definition sample_pair : AllocationManager := mkManager 1 1.

Lemma crowded_db_checked :
  trades_checked crowded_db /\ allocations_keyed crowded_db /\
  quantities_positive (allocations crowded_db).
Proof.
  split; [repeat constructor|].
  split; [unfold allocations_keyed; cbn; repeat constructor; cbn;
          intuition discriminate|].
  repeat constructor.
Defined.

Lemma sync_with_holdings_idempotent_witness :
  trades_checked crowded_db /\ allocations_keyed crowded_db /\
  quantities_positive (allocations crowded_db) /\
  exists db1 res1,
    sync_with_holdings crowded_db sample_pair = (db1, Return res1) /\
    sync_with_holdings db1 sample_pair = (db1, Return (mkSyncResult 0 0)).
Proof.
  destruct crowded_db_checked as (H1 & H2 & H3).
  split; [exact H1|]. split; [exact H2|]. split; [exact H3|].
  exact (sync_with_holdings_idempotent crowded_db sample_pair H1 H2 H3).
Defined.

(** What [sync_with_holdings] makes of the crowded ledger. *)
Definition synced : Database * result SyncResult := Eval vm_compute in
    sync_with_holdings crowded_db sample_pair.

Lemma sync_with_holdings_other_pairs_witness :
  allocations_keyed crowded_db /\
  sync_with_holdings crowded_db sample_pair = (fst synced, snd synced) /\
  foreign_rows sample_pair (allocations (fst synced))
    = foreign_rows sample_pair (allocations crowded_db) /\
  trades (fst synced) = trades crowded_db.
Proof.
  destruct crowded_db_checked as (_ & H2 & _).
  assert (H : sync_with_holdings crowded_db sample_pair = (fst synced, snd synced))
    by (vm_compute; reflexivity).
  split; [exact H2|]. split; [exact H|].
  destruct (sync_with_holdings_other_pairs crowded_db sample_pair
              (fst synced) (snd synced) H2 H) as (A & B & _).
  split; [exact A | exact B].
Defined.

Lemma create_allocation_zero_units_witness :
  mem_id 1 (owners sample_db) = true /\
  mem_id 1 (goals sample_db) = true /\
  create_allocation sample_db sample_pair 1 1 0
  = (sample_db, Raise InsufficientUnitsError).
Proof.
  assert (H1 : mem_id 1 (owners sample_db) = true) by reflexivity.
  assert (H2 : mem_id 1 (goals sample_db) = true) by reflexivity.
  split; [exact H1|]. split; [exact H2|].
  exact (create_allocation_zero_units sample_db sample_pair 1 1 H1 H2).
Defined.

(** The engine of the sample pair: 70 units left of the first lot, 50 of
    the second. *)
Definition sample_lot_1 : Fifo.BuyLot :=
  Fifo.mkBuyLot 1 None 100 50%Q 70 "T1" None.

Definition sample_lot_2 : Fifo.BuyLot :=
  Fifo.mkBuyLot 5 None 50 55%Q 50 "T2" None.

Definition sample_pair_engine : Fifo.FIFOEngine := Eval vm_compute in
    match _get_fifo_engine sample_db sample_pair with
    | Return e => e
    | Raise _ => Fifo.init
    end.

Lemma weighted_average_price_date_witness :
  _get_fifo_engine sample_db sample_pair = Return sample_pair_engine /\
  Fifo.get_current_holdings_as_lots sample_pair_engine
    = [sample_lot_1] ++ sample_lot_2 :: [] /\
  sum_remaining [sample_lot_1] <= get_allocated_units sample_db sample_pair
    < sum_remaining [sample_lot_1] + Fifo.lot_remaining_qty sample_lot_2 /\
  exists avg_price,
    get_weighted_average_price sample_db sample_pair 20
    = Return (avg_price, Some (Fifo.lot_trade_date sample_lot_2)).
Proof.
  assert (H1 : _get_fifo_engine sample_db sample_pair = Return sample_pair_engine)
    by (vm_compute; reflexivity).
  assert (H2 : Fifo.get_current_holdings_as_lots sample_pair_engine
               = [sample_lot_1] ++ sample_lot_2 :: []) by (vm_compute; reflexivity).
  assert (H3 : sum_remaining [sample_lot_1]
                 <= get_allocated_units sample_db sample_pair
                 < sum_remaining [sample_lot_1] + Fifo.lot_remaining_qty sample_lot_2)
    by (cbn; lia).
  split; [exact H1|]. split; [exact H2|]. split; [exact H3|].
  exact (proj1 (weighted_average_price_date sample_db sample_pair
                  sample_pair_engine H1)
           20 [sample_lot_1] sample_lot_2 [] H2 H3 ltac:(lia)).
Defined.

Lemma total_holdings_bounds_witness :
  trades_checked sample_db /\
  exists h,
    get_total_holdings sample_db sample_pair = Return h /\
    0 <= h /\
    trade_units Fifo.Buy (pair_trades sample_db sample_pair)
      - trade_units Fifo.Sell (pair_trades sample_db sample_pair) <= h /\
    h <= trade_units Fifo.Buy (pair_trades sample_db sample_pair).
Proof.
  assert (H : trades_checked sample_db) by (repeat constructor).
  split; [exact H|].
  exact (total_holdings_bounds sample_db sample_pair H).
Defined.

(** What [create_allocation] returns for 20 units of the sample pair. *)
Definition created : Database * result Allocation := Eval vm_compute in
    create_allocation sample_db sample_pair 2 1 20.

Definition created_row : Allocation :=
  match snd created with
  | Return a => a
  | Raise _ => mkAllocation 0 0 0 0 0 0 0%Q 0
  end.

Lemma create_then_delete_witness :
  create_allocation sample_db sample_pair 2 1 20 = (fst created, Return created_row) /\
  get_allocation (fst created) (al_id created_row) = Some created_row /\
  delete_allocation (fst created) sample_pair (al_id created_row)
  = (sample_db, Return true).
Proof.
  assert (H : create_allocation sample_db sample_pair 2 1 20
              = (fst created, Return created_row)) by (vm_compute; reflexivity).
  split; [exact H|].
  destruct (create_then_delete sample_db sample_pair 2 1 20 (fst created)
              created_row H) as (A & _ & B).
  split; [exact A | exact B].
Defined.

(** What [update_allocation] returns when row 1 goes to owner 2 with 100
    units. *)
Definition updated : Database * result Allocation := Eval vm_compute in
    update_allocation sample_db sample_pair 1 (Some 100) (Some 2) None.

Definition updated_row : Allocation :=
  match snd updated with
  | Return a => a
  | Raise _ => mkAllocation 0 0 0 0 0 0 0%Q 0
  end.

Lemma update_allocation_keeps_cost_basis_witness :
  update_allocation sample_db sample_pair 1 (Some 100) (Some 2) None
    = (fst updated, Return updated_row) /\
  exists a,
    get_allocation sample_db 1 = Some a /\
    al_id updated_row = al_id a /\
    al_stock_id updated_row = al_stock_id a /\
    al_account_id updated_row = al_account_id a /\
    al_buy_price updated_row = al_buy_price a /\
    al_buy_date updated_row = al_buy_date a.
Proof.
  assert (H : update_allocation sample_db sample_pair 1 (Some 100) (Some 2) None
              = (fst updated, Return updated_row)) by (vm_compute; reflexivity).
  split; [exact H|].
  destruct (update_allocation_keeps_cost_basis sample_db sample_pair 1
              (Some 100) (Some 2) None (fst updated) updated_row H)
    as (a & A & B & C & D & E & F & _).
  exists a. repeat split; assumption.
Defined.

End LedgerOperations.

Section DetectorFacts.

Import Models CorpActions Detectors.

Lemma save_keeps_trades : forall db d,
  trades (fst (save_corporate_action db d)) = trades db.
Proof.
  intros db d. unfold save_corporate_action.
  destruct (find _ _); reflexivity.
Qed.

Lemma same_action_refl_row : forall d i,
  same_action d (mkCorporateAction i (ad_stock_id d) (ad_action_type d)
                   (ad_detected_date d) (ad_ratio_from d) (ad_ratio_to d)
                   (ad_old_price d) (ad_new_price d) true false) = true.
Proof.
  intros d i. unfold same_action. cbn. rewrite !Z.eqb_refl.
  destruct (ad_action_type d); reflexivity.
Qed.

Lemma save_again : forall db d,
  save_corporate_action (fst (save_corporate_action db d)) d
  = (fst (save_corporate_action db d), snd (save_corporate_action db d)).
Proof.
  intros db d. unfold save_corporate_action at 2 3 4.
  destruct (find (same_action d) (corporate_actions db)) as [ex|] eqn:E.
  - cbn [fst snd]. unfold save_corporate_action. rewrite E. reflexivity.
  - cbn [fst snd]. unfold save_corporate_action.
    cbn [set_corporate_actions corporate_actions].
    rewrite find_append, E. cbn [find]. rewrite same_action_refl_row.
    reflexivity.
Qed.

Lemma detectors_read_trades : forall db db' s a,
  trades db' = trades db ->
  detect_split_from_prices db' s a = detect_split_from_prices db s a /\
  detect_split_from_sell_mismatch db' s a = detect_split_from_sell_mismatch db s a.
Proof.
  intros db db' s a H.
  unfold detect_split_from_prices, detect_split_from_sell_mismatch,
    query_buys, query_pair. rewrite H. split; reflexivity.
Qed.

(** X23: [detect_and_save_splits] is idempotent: it never changes the trades,
    and a second call on the database the first call left returns the same
    corporate action (or None again) and changes nothing. *)
Theorem detect_and_save_splits_idempotent : forall db stock_id account_id,
  let '(db1, found) := detect_and_save_splits db stock_id account_id in
  trades db1 = trades db /\
  detect_and_save_splits db1 stock_id account_id = (db1, found).
Proof.
  intros db s a. unfold detect_and_save_splits at 1.
  set (sd := match detect_split_from_prices db s a with
             | Some d => Some d
             | None => detect_split_from_sell_mismatch db s a
             end).
  assert (Hsd : forall db', trades db' = trades db ->
            match detect_split_from_prices db' s a with
            | Some d => Some d
            | None => detect_split_from_sell_mismatch db' s a
            end = sd).
  { intros db' H. destruct (detectors_read_trades db db' s a H) as [-> ->].
    reflexivity. }
  destruct sd as [d|].
  - pose proof (save_keeps_trades db (action_data d)) as Ht.
    pose proof (save_again db (action_data d)) as Hs.
    destruct (save_corporate_action db (action_data d)) as [db1 ca].
    cbn [fst snd] in Ht, Hs. split; [exact Ht|].
    unfold detect_and_save_splits. rewrite (Hsd db1 Ht), Hs. reflexivity.
  - split; [reflexivity|]. unfold detect_and_save_splits.
    rewrite (Hsd db eq_refl). reflexivity.
Qed.

(** A float is within one part in 2^53 of the number it rounds. *)
Lemma flt_rnd_bounds : forall q : Q,
  (0 <= q)%Q ->
  (q * (9007199254740991 # 1) <= Flt.rnd q * (9007199254740992 # 1) /\
   Flt.rnd q * (9007199254740992 # 1) <= q * (9007199254740993 # 1))%Q.
Proof.
  intros q Hq. pose proof (flt_error q) as E.
  rewrite (Qabs_pos q Hq) in E.
  remember (Flt.rnd q) as r eqn:Hr. clear Hr.
  pose proof (Qle_Qabs (r - q)) as L1.
  pose proof (Qle_Qabs (- (r - q))) as L2. rewrite Qabs_opp in L2.
  assert (A1 : ((r - q) * (9007199254740992 # 1)
                <= Qabs (r - q) * (9007199254740992 # 1))%Q)
    by (apply Qmult_le_compat_r; [exact L1|lra]).
  assert (A2 : (- (r - q) * (9007199254740992 # 1)
                <= Qabs (r - q) * (9007199254740992 # 1))%Q)
    by (apply Qmult_le_compat_r; [exact L2|lra]).
  split; lra.
Qed.

Lemma flt_rnd_nonneg : forall q : Q, (0 <= q)%Q -> (0 <= Flt.rnd q)%Q.
Proof. intros q Hq. destruct (flt_rnd_bounds q Hq) as [L _]. lra. Qed.

Lemma flt_rnd_abs : forall q : Q,
  (Qabs (Flt.rnd q) * (9007199254740992 # 1) <= Qabs q * (9007199254740993 # 1))%Q.
Proof.
  intros q. pose proof (flt_error q) as E.
  remember (Flt.rnd q) as r eqn:Hr. clear Hr.
  pose proof (Qabs_triangle (r - q) q) as T.
  assert (Er : (r - q + q == r)%Q) by ring. rewrite Er in T.
  pose proof (Qabs_nonneg q). pose proof (Qabs_nonneg (r - q)).
  lra.
Qed.

Lemma flt_mul_bounds : forall x y : Q,
  (0 <= x)%Q -> (0 <= y)%Q ->
  (0 <= Flt.mul x y /\
   Flt.mul x y * (9007199254740992 # 1) <= (x * y) * (9007199254740993 # 1))%Q.
Proof.
  intros x y Hx Hy. unfold Flt.mul.
  assert (Hxy : (0 <= x * y)%Q) by (apply Qmult_le_0_compat; assumption).
  split; [apply flt_rnd_nonneg; exact Hxy | apply flt_rnd_bounds; exact Hxy].
Qed.

Lemma flt_of_int_bounds : forall z : Z,
  0 <= z ->
  (0 <= Flt.of_int z /\
   Flt.of_int z * (9007199254740992 # 1) <= inject_Z z * (9007199254740993 # 1))%Q.
Proof.
  intros z Hz. unfold Flt.of_int.
  assert (H : (0 <= inject_Z z)%Q) by (unfold Qle; cbn; lia).
  split; [apply flt_rnd_nonneg; exact H | apply flt_rnd_bounds; exact H].
Qed.

Lemma f_0_1_bounds : (0 <= f_0_1 /\ f_0_1 <= 100001 # 1000000)%Q.
Proof.
  unfold f_0_1.
  assert (H : (0 <= 1 # 10)%Q) by (unfold Qle; cbn; lia).
  pose proof (flt_rnd_nonneg _ H). destruct (flt_rnd_bounds _ H) as [_ U].
  remember (Flt.rnd (1 # 10)) as f eqn:Hf. clear Hf. split; lra.
Qed.

(** total_sell * 0.1 is not negative and at most 10.01% of total_sell. *)
Lemma tenth_bounds : forall total_sell : Z,
  0 <= total_sell ->
  (0 <= Flt.mul (Flt.of_int total_sell) f_0_1 /\
   Flt.mul (Flt.of_int total_sell) f_0_1 <= inject_Z total_sell * (1001 # 10000))%Q.
Proof.
  intros S HS.
  destruct (flt_of_int_bounds S HS) as [F0 F1].
  destruct f_0_1_bounds as [T0 T1].
  destruct (flt_mul_bounds _ _ F0 T0) as [M0 M1].
  remember (Flt.of_int S) as fs eqn:Hfs. clear Hfs.
  remember f_0_1 as ft eqn:Hft. clear Hft.
  remember (Flt.mul fs ft) as m eqn:Hm. clear Hm.
  assert (HSq : (0 <= inject_Z S)%Q) by (unfold Qle; cbn; lia).
  assert (P1 : (fs * ft <= fs * (100001 # 1000000))%Q).
  { rewrite (Qmult_comm fs ft), (Qmult_comm fs (100001 # 1000000)).
    apply Qmult_le_compat_r; assumption. }
  split; [exact M0|]. lra.
Qed.

Lemma within_tenth_exact : forall total_buy ratio,
  0 <= total_buy -> 0 <= ratio ->
  within_tenth total_buy (ratio * total_buy) ratio = true.
Proof.
  intros B r HB Hr. unfold within_tenth.
  replace (B * r - r * B) with 0 by lia. cbn [Z.abs].
  apply Qle_bool_iff.
  destruct (tenth_bounds (r * B) ltac:(nia)) as [L _]. exact L.
Qed.

Lemma within_tenth_far : forall total_buy ratio k,
  0 < total_buy -> 0 < k -> 100 * k <= 88 * ratio ->
  within_tenth total_buy (ratio * total_buy) k = false.
Proof.
  intros B r k HB Hk Hkr. unfold within_tenth.
  destruct (Qle_bool _ _) eqn:E; [|reflexivity]. exfalso.
  apply Qle_bool_iff in E.
  destruct (tenth_bounds (r * B) ltac:(nia)) as [_ U].
  remember (Flt.mul (Flt.of_int (r * B)) f_0_1) as m eqn:Hm. clear Hm.
  assert (HZ : 12 * (r * B) <= 100 * Z.abs (B * k - r * B)) by nia.
  assert (HQ : (inject_Z (12 * (r * B)) <= inject_Z (100 * Z.abs (B * k - r * B)))%Q)
    by (rewrite <- Zle_Qle; exact HZ).
  rewrite !inject_Z_mult in HQ.
  assert (Hpos : (0 < inject_Z r * inject_Z B)%Q).
  { rewrite <- inject_Z_mult. unfold Qlt. cbn. nia. }
  rewrite inject_Z_mult in U.
  remember (inject_Z (Z.abs (B * k - r * B))) as d eqn:Hd. clear Hd.
  remember (inject_Z r * inject_Z B)%Q as y eqn:Hy. clear Hy.
  change (inject_Z 12) with (12 # 1)%Q in HQ.
  change (inject_Z 100) with (100 # 1)%Q in HQ. lra.
Qed.

(** X24: when all units of a (stock, account) were sold after a split, so
    that the units sold are exactly r times the units bought for a ratio r
    of the table, [detect_split_from_sell_mismatch] proposes the split
    1 : r, with confidence medium and the two totals; when the units sold
    do not exceed the units bought it proposes nothing. *)
Theorem sell_mismatch_detects_exact_split : forall db stock_id account_id,
  let trades := query_pair db stock_id account_id in
  let total_buy := total_units is_buy trades in
  let total_sell := total_units is_sell trades in
  (total_sell <= total_buy ->
   detect_split_from_sell_mismatch db stock_id account_id = None) /\
  (forall ratio,
     In ratio COMMON_SPLIT_RATIOS -> 0 < total_buy ->
     total_sell = ratio * total_buy ->
     exists d,
       detect_split_from_sell_mismatch db stock_id account_id = Some d /\
       sd_stock_id d = stock_id /\
       sd_ratio_from d = 1 /\ sd_ratio_to d = ratio /\
       sd_total_buy d = Some total_buy /\ sd_total_sell d = Some total_sell /\
       sd_confidence d = Recon.medium).
Proof.
  intros db s a trades B S. split.
  - intros H. unfold detect_split_from_sell_mismatch.
    fold trades. fold B. fold S.
    destruct (Z.leb_spec S B); [reflexivity|lia].
  - intros r Hin HB HS. unfold detect_split_from_sell_mismatch.
    fold trades. fold B. fold S.
    assert (Hr : 2 <= r).
    { unfold COMMON_SPLIT_RATIOS in Hin. cbn [In] in Hin.
      repeat (destruct Hin as [<-|Hin]; [lia|]). contradiction. }
    destruct (Z.leb_spec S B) as [Hle|_]; [nia|].
    rewrite HS. clear HS.
    pose proof (within_tenth_exact B r ltac:(lia) ltac:(lia)) as Hex.
    pose proof (fun k => within_tenth_far B r k HB) as Hfar.
    unfold COMMON_SPLIT_RATIOS in *. cbn [In] in Hin.
    repeat (destruct Hin as [<-|Hin];
      [ cbn [mismatch_loop];
        repeat (rewrite Hfar by lia);
        rewrite Hex; eexists; split; [reflexivity|];
        cbn [sd_stock_id sd_ratio_from sd_ratio_to sd_total_buy sd_total_sell
             sd_confidence];
        repeat split
      | ]).
    contradiction.
Qed.

Lemma band_hit : forall c_lo c_hi x : Q,
  (0 <= c_lo)%Q -> (0 <= c_hi)%Q ->
  (c_lo * (1000001 # 1000000) <= x)%Q -> (x <= c_hi * (999999 # 1000000))%Q ->
  Flt.leb (Flt.rnd c_lo) x && Flt.leb x (Flt.rnd c_hi) = true.
Proof.
  intros c_lo c_hi x H1 H2 L U.
  destruct (flt_rnd_bounds c_lo H1) as [_ B1].
  destruct (flt_rnd_bounds c_hi H2) as [B2 _].
  remember (Flt.rnd c_lo) as lo eqn:E1. clear E1.
  remember (Flt.rnd c_hi) as hi eqn:E2. clear E2.
  unfold Flt.leb. apply andb_true_iff. split; apply Qle_bool_iff; lra.
Qed.

Lemma band_miss : forall c_lo c_hi x : Q,
  (0 <= c_hi)%Q -> (c_hi * (1000001 # 1000000) < x)%Q ->
  Flt.leb (Flt.rnd c_lo) x && Flt.leb x (Flt.rnd c_hi) = false.
Proof.
  intros c_lo c_hi x H2 U.
  destruct (flt_rnd_bounds c_hi H2) as [_ B2].
  remember (Flt.rnd c_lo) as lo eqn:E1. clear E1.
  remember (Flt.rnd c_hi) as hi eqn:E2. clear E2.
  apply andb_false_iff. right. unfold Flt.leb.
  destruct (Qle_bool x hi) eqn:E; [|reflexivity].
  apply Qle_bool_iff in E. lra.
Qed.

(** A price ratio within a thousandth of a ratio of the table falls in that
    ratio's band and in no band before it. *)
Lemma scan_thresholds_exact : forall ratio x,
  In ratio COMMON_SPLIT_RATIOS ->
  (inject_Z ratio * (999 # 1000) <= x)%Q ->
  (x <= inject_Z ratio * (1001 # 1000))%Q ->
  scan_thresholds x SPLIT_DETECTION_THRESHOLDS = Some ratio.
Proof.
  intros r x Hin L U. unfold COMMON_SPLIT_RATIOS in Hin. cbn [In] in Hin.
  unfold SPLIT_DETECTION_THRESHOLDS.
  assert (Hnn : forall n d, (0 <= Z.pos n # d)%Q) by (intros; unfold Qle; cbn; lia).
  repeat (destruct Hin as [<-|Hin];
    [ cbn [scan_thresholds];
      repeat (rewrite band_miss by
                first [ apply Hnn
                      | unfold inject_Z in L; lra ]);
      rewrite band_hit by
        first [ apply Hnn
              | unfold inject_Z in L, U; lra ];
      reflexivity
    | ]).
  contradiction.
Qed.

Lemma price_ratio_exact : forall prev curr ratio,
  0 < ratio -> (0 < tr_price curr)%Q ->
  (tr_price prev == inject_Z ratio * tr_price curr)%Q ->
  (inject_Z ratio * (999 # 1000) <= price_ratio_of prev curr /\
   price_ratio_of prev curr <= inject_Z ratio * (1001 # 1000))%Q.
Proof.
  intros prev curr r Hr Hp HP. unfold price_ratio_of.
  assert (HR : (0 < inject_Z r)%Q) by (unfold Qlt; cbn; lia).
  assert (HPpos : (0 <= tr_price prev)%Q).
  { rewrite HP. apply Qmult_le_0_compat; lra. }
  destruct (flt_rnd_bounds (tr_price prev) HPpos) as [A1 A2].
  destruct (flt_rnd_bounds (tr_price curr) ltac:(lra)) as [B1 B2].
  remember (Flt.rnd (tr_price prev)) as a eqn:Ea. clear Ea.
  remember (Flt.rnd (tr_price curr)) as b eqn:Eb. clear Eb.
  remember (tr_price prev) as P eqn:EP. clear EP.
  remember (tr_price curr) as p eqn:Ep. clear Ep.
  remember (inject_Z r) as R eqn:ER. clear ER.
  assert (Hb : (0 < b)%Q) by lra.
  assert (Ha : (0 <= a)%Q) by lra.
  assert (Ht : (0 <= a / b)%Q) by (apply Qle_shift_div_l; lra).
  assert (M1 : (R * (p * (9007199254740991 # 1))
                <= R * (b * (9007199254740992 # 1)))%Q).
  { rewrite (Qmult_comm R), (Qmult_comm R (b * _)).
    apply Qmult_le_compat_r; lra. }
  assert (M2 : (R * (b * (9007199254740992 # 1))
                <= R * (p * (9007199254740993 # 1)))%Q).
  { rewrite (Qmult_comm R), (Qmult_comm R (p * _)).
    apply Qmult_le_compat_r; lra. }
  assert (T1 : (R * (9999 # 10000) <= a / b)%Q).
  { apply Qle_shift_div_l; [exact Hb|]. lra. }
  assert (T2 : (a / b <= R * (10001 # 10000))%Q).
  { apply Qle_shift_div_r; [exact Hb|]. lra. }
  unfold Flt.div. destruct (flt_rnd_bounds (a / b) Ht) as [C1 C2].
  remember (Flt.rnd (a / b)) as x eqn:Ex. clear Ex.
  split; lra.
Qed.

Lemma confidence_high : forall ratio x,
  0 < ratio <= 100 ->
  (inject_Z ratio * (999 # 1000) <= x)%Q ->
  (x <= inject_Z ratio * (1001 # 1000))%Q ->
  Flt.ltb (Flt.abs (Flt.sub x (Flt.of_int ratio))) f_0_5 = true.
Proof.
  intros r x Hr L U.
  rewrite (flt_of_int_small r) by (apply Z.lt_le_trans with 101; [lia|cbn; lia]).
  assert (HR : (0 < inject_Z r /\ inject_Z r <= 100)%Q).
  { split; [unfold Qlt; cbn; lia|].
    change 100%Q with (inject_Z 100). rewrite <- Zle_Qle. lia. }
  unfold Flt.sub, Flt.abs.
  pose proof (flt_rnd_abs (x - inject_Z r)) as A.
  assert (D : (Qabs (x - inject_Z r) <= 1 # 10)%Q).
  { apply Qabs_Qle_condition. split; lra. }
  assert (H5 : (0 <= 5 # 10)%Q) by (unfold Qle; cbn; lia).
  destruct (flt_rnd_bounds (5 # 10) H5) as [F _]. fold f_0_5 in F.
  remember (Flt.rnd (x - inject_Z r)) as y eqn:Ey. clear Ey.
  remember f_0_5 as h eqn:Eh. clear Eh.
  remember (Qabs (x - inject_Z r)) as dx eqn:Edx. clear Edx.
  unfold Flt.ltb. destruct (Qle_bool h (Qabs y)) eqn:E; [|reflexivity].
  apply Qle_bool_iff in E. exfalso. lra.
Qed.

(** X25: two successive buys of a (stock, account), the first at exactly r
    times the price of the second for a ratio r of the table, are detected
    by [detect_split_from_prices] as a split 1 : r of high confidence,
    dated at the second buy, with the two prices as floats. *)
Theorem price_pattern_detects_exact_split :
  forall db stock_id account_id first second rest ratio,
    query_buys db stock_id account_id = first :: second :: rest ->
    (0 < tr_price second)%Q ->
    In ratio COMMON_SPLIT_RATIOS ->
    (tr_price first == inject_Z ratio * tr_price second)%Q ->
    detect_split_from_prices db stock_id account_id
    = Some (mkSplitData stock_id 1 ratio
              (Some (Flt.rnd (tr_price first)))
              (Some (Flt.rnd (tr_price second)))
              (Some (tr_trade_date second))
              (Some (tr_trade_id first)) (Some (tr_trade_id second))
              None None Recon.high).
Proof.
  intros db s a first second rest r Hq Hp Hin HP.
  assert (Hr : 0 < r <= 100).
  { unfold COMMON_SPLIT_RATIOS in Hin. cbn [In] in Hin.
    repeat (destruct Hin as [<-|Hin]; [lia|]). contradiction. }
  destruct (price_ratio_exact first second r ltac:(lia) Hp HP) as [L U].
  unfold detect_split_from_prices. rewrite Hq. cbn [prices_loop].
  destruct (Qle_bool (tr_price second) 0) eqn:E.
  { apply Qle_bool_iff in E. lra. }
  cbv zeta. rewrite (scan_thresholds_exact r _ Hin L U).
  rewrite (confidence_high r _ Hr L U). reflexivity.
Qed.

(** A stock bought at 1000 on day 1 and at 100 on day 5. *)
Definition split_history_db : Database :=
  mkDatabase
    [mkTrade 1 1 1 Fifo.Buy 1 None 10 1000%Q "T1";
     mkTrade 2 1 1 Fifo.Buy 5 None 20 100%Q "T2"]
    [] [1] [1] [].

Lemma price_pattern_detects_exact_split_witness :
  query_buys split_history_db 1 1
    = [mkTrade 1 1 1 Fifo.Buy 1 None 10 1000%Q "T1";
       mkTrade 2 1 1 Fifo.Buy 5 None 20 100%Q "T2"] /\
  (0 < 100)%Q /\
  In 10 COMMON_SPLIT_RATIOS /\
  (1000 == inject_Z 10 * 100)%Q /\
  detect_split_from_prices split_history_db 1 1
  = Some (mkSplitData 1 1 10 (Some (Flt.rnd 1000)) (Some (Flt.rnd 100))
            (Some 5) (Some "T1"%string) (Some "T2"%string) None None Recon.high).
Proof.
  assert (H1 : query_buys split_history_db 1 1
               = [mkTrade 1 1 1 Fifo.Buy 1 None 10 1000%Q "T1";
                  mkTrade 2 1 1 Fifo.Buy 5 None 20 100%Q "T2"])
    by (vm_compute; reflexivity).
  assert (H2 : (0 < 100)%Q) by reflexivity.
  assert (H3 : In 10 COMMON_SPLIT_RATIOS) by (cbn; auto 10).
  assert (H4 : (1000 == inject_Z 10 * 100)%Q) by reflexivity.
  split; [exact H1|]. split; [exact H2|]. split; [exact H3|]. split; [exact H4|].
  exact (price_pattern_detects_exact_split split_history_db 1 1 _ _ [] 10
           H1 H2 H3 H4).
Defined.

End DetectorFacts.

Section SplitSequences.

Import Models CorpActions.

(** The test of [adjust_quantity_for_splits] on one row: the split has a
    record date and the lot was bought before it. *)
Definition split_applies (buy_date : date) (s : CorporateAction) : bool :=
  match ca_record_date s with
  | Some record_date => buy_date <? record_date
  | None => false
  end.

(** X26: [adjust_quantity_for_splits] passes over every split without a
    record date or recorded on or before the buy date: the result is that
    of the remaining splits alone, and the lot comes back unchanged when
    no split remains. *)
Theorem adjust_ignores_earlier_splits : forall splits qty price buy_date,
  adjust_quantity_for_splits qty price buy_date splits
  = adjust_quantity_for_splits qty price buy_date
      (filter (split_applies buy_date) splits) /\
  (filter (split_applies buy_date) splits = [] ->
   adjust_quantity_for_splits qty price buy_date splits = Return (qty, price)).
Proof.
  intros splits qty price buy_date.
  assert (H : adjust_quantity_for_splits qty price buy_date splits
              = adjust_quantity_for_splits qty price buy_date
                  (filter (split_applies buy_date) splits)).
  { revert qty price. induction splits as [|s rest IH]; intros qty price.
    - reflexivity.
    - cbn [filter]. unfold split_applies at 1.
      destruct (ca_record_date s) as [rd|] eqn:Erd.
      + destruct (buy_date <? rd) eqn:Elt.
        * cbn [adjust_quantity_for_splits].
          destruct (apply_split buy_date (qty, price) s) as [[q p]|x];
            [apply IH|reflexivity].
        * cbn [adjust_quantity_for_splits]. unfold apply_split.
          rewrite Erd, Elt. apply IH.
      + cbn [adjust_quantity_for_splits]. unfold apply_split. rewrite Erd.
        apply IH. }
  split; [exact H|]. intros E. rewrite H, E. reflexivity.
Qed.

(** The product of the ratios of a list of splits. *)
Definition ratio_product (splits : list CorporateAction) : Z :=
  fold_right (fun s acc => ca_ratio_to s * acc) 1 splits.

(** The price divided by each ratio in turn, in Decimal. *)
Definition divided_price (price : Dec.Decimal) (splits : list CorporateAction)
    : Dec.Decimal :=
  fold_left (fun p s => Dec.div p (inject_Z (ca_ratio_to s))) splits price.

Lemma ratio_product_pos : forall splits,
  Forall detected_split splits -> 1 <= ratio_product splits.
Proof.
  intros splits H. induction H as [|s rest Hs _ IH]; cbn; [lia|].
  destruct Hs as (_ & _ & Hin). unfold COMMON_SPLIT_RATIOS in Hin. cbn [In] in Hin.
  fold (ratio_product rest).
  repeat (destruct Hin as [<-|Hin]; [lia|]). contradiction.
Qed.

(** X27: successive detected splits compose: for a lot bought before the
    record dates of the detected splits 1 : r1, ..., 1 : rn (the adjusted
    quantity staying below 2^53), [adjust_quantity_for_splits] returns the
    quantity times r1 ... rn and the price divided by r1, ..., rn in turn. *)
Theorem adjust_composes_detected_splits : forall splits qty price buy_date,
  Forall (fun s => detected_split s /\ split_applies buy_date s = true) splits ->
  Z.abs (qty * ratio_product splits) < 2 ^ 53 ->
  adjust_quantity_for_splits qty price buy_date splits
  = Return (qty * ratio_product splits, divided_price price splits).
Proof.
  induction splits as [|s rest IH]; intros qty price buy_date Hall Hb.
  - cbn. rewrite Z.mul_1_r. reflexivity.
  - inversion Hall as [|? ? [Hs Ha] Hrest]; subst.
    assert (Hdet : Forall detected_split rest).
    { eapply Forall_impl; [|exact Hrest]. cbv beta. intros x [Hx _]. exact Hx. }
    pose proof (ratio_product_pos rest Hdet) as Hpos.
    assert (Hr : 2 <= ca_ratio_to s).
    { destruct Hs as (_ & _ & Hin). unfold COMMON_SPLIT_RATIOS in Hin.
      cbn [In] in Hin. repeat (destruct Hin as [<-|Hin]; [lia|]). contradiction. }
    unfold split_applies in Ha.
    destruct (ca_record_date s) as [rd|] eqn:Erd; [|discriminate].
    apply Z.ltb_lt in Ha.
    cbn [ratio_product fold_right] in Hb. fold (ratio_product rest) in Hb.
    assert (Hb1 : Z.abs (qty * ca_ratio_to s) < 2 ^ 53).
    { apply Z.le_lt_trans with (Z.abs (qty * (ca_ratio_to s * ratio_product rest)));
        [|exact Hb].
      rewrite Z.mul_assoc, !Z.abs_mul.
      rewrite (Z.abs_eq (ratio_product rest)) by lia.
      pose proof (Z.abs_nonneg qty). pose proof (Z.abs_nonneg (ca_ratio_to s)).
      nia. }
    cbn [adjust_quantity_for_splits].
    rewrite (apply_detected_split qty price buy_date s rd Hs Erd Ha Hb1).
    rewrite (IH (qty * ca_ratio_to s) _ buy_date Hrest).
    + cbn [ratio_product fold_right divided_price fold_left].
      fold (ratio_product rest). f_equal. f_equal. ring.
    + rewrite <- Z.mul_assoc. exact Hb.
Qed.

(** A 1 : 2 split recorded on day 10 and a 1 : 5 split recorded on day 20. *)
Definition first_split : CorporateAction :=
  mkCorporateAction 1 1 split (Some 10) 1 2 None None true false.

Definition second_split : CorporateAction :=
  mkCorporateAction 2 1 split (Some 20) 1 5 None None true false.

Lemma adjust_composes_detected_splits_witness :
  Forall (fun s => detected_split s /\ split_applies 0 s = true)
         [first_split; second_split] /\
  Z.abs (10 * ratio_product [first_split; second_split]) < 2 ^ 53 /\
  adjust_quantity_for_splits 10 100%Q 0 [first_split; second_split]
  = Return (10 * ratio_product [first_split; second_split],
            divided_price 100%Q [first_split; second_split]).
Proof.
  assert (H1 : Forall (fun s => detected_split s /\ split_applies 0 s = true)
                      [first_split; second_split]).
  { assert (D1 : detected_split first_split)
      by (unfold detected_split; cbn; repeat split; auto 10).
    assert (D2 : detected_split second_split)
      by (unfold detected_split; cbn; repeat split; auto 10).
    constructor; [split; [exact D1|reflexivity]|].
    constructor; [split; [exact D2|reflexivity]|constructor]. }
  assert (H2 : Z.abs (10 * ratio_product [first_split; second_split]) < 2 ^ 53)
    by (cbn; lia).
  split; [exact H1|]. split; [exact H2|].
  exact (adjust_composes_detected_splits [first_split; second_split] 10 100%Q 0
           H1 H2).
Defined.

End SplitSequences.
